(* ===== verification/_CoqProject ===== *)
-Q . S2P
Prelude.v
JsSort.v
Calendar.v
JsDate.v
JsObject.v
Content.v
JsNumber.v
Collections.v
YearIndex.v
Filters.v
Stars.v
Composition.v
Select.v
Compress.v
Script.v
NodePath.v
Config.v
