(* ===== verification/Prelude.v ===== *)
(** * Twofold: a verification development of the site generator's data layer

    The repository (Navdevl/twofold) is a static-site configuration for a
    travel log, written in JavaScript for the Eleventy generator, plus an
    image-compression script.  Its parts and how they interact:

    - the Record Source (Eleventy's [collectionApi]) hands out content
      items; [getFilteredByGlob] selects them by input path;
    - the Collection Builder ([src/.eleventy.js], lines 6-60) derives the
      collections [places], [visits], [visitsByYear] and [visitsByPlace];
      it sorts with [Array.prototype.sort] and a comparator, groups into a
      plain object with [byKey[k] = []] and [push], and reads dates through
      [new Date(..)] and [getFullYear];
    - the Derived-Value Functions (the filters and the [stars] shortcode,
      [src/.eleventy.js] lines 62-146) are called by the templates per
      record, on the collections' items;
    - the Year Index Builder ([src/src/_data/years.js]) lists the years
      named by the file names of the visit directory; the templates use it
      beside [visitsByYear], which takes its years from the dates;
    - the compression script ([src/scripts/compress-assets.ts]) selects
      image files and reports the sizes it saved;
    - the configuration function itself registers all of the above with
      Eleventy, declares [assets] and [css] as passthrough copies and
      returns the directory layout ([src], [_data], [_site]); [years.js]
      and the script find their directories with Node's [path.join].

    ** Files, in dependency order, and what they model

    - [Prelude] (this file): the scope [twofold_scope] with the bind
      notation of [js_result] (the result of code that can throw a
      [TypeError], a [RangeError] or a Node system error such as
      [EACCES]) and [js_catch] for [try]/[catch], the tactics [inv] and [case_if], the
      hint database [twofold], JavaScript's [Set.prototype.add] on lists
      ([set_add]), and shared lemmas on lists ([filter], [Permutation],
      [find], [NoDup], folds that add to a set, and
      [StronglySorted_perm_eq]: two permutations sorted by a relation
      that is antisymmetric on their elements are equal), and the
      subsequence relation [subseq].
    - [JsSort]: [Array.prototype.sort] with a comparator, as the stable
      insertion sort [sort]; the class [Consistent] is ECMAScript's
      "consistent comparator"; the abstract specification [stable_sorted]
      (a sorted permutation keeping the input order of equal keys) has the
      refinement theorem [sort_stable_sorted] and the uniqueness theorem
      [stable_sorted_unique], so that no result depends on which stable
      algorithm the engine runs; [sort_ext_in] moves a sort to any
      comparator that agrees on the elements.
    - [Calendar]: ECMAScript's day arithmetic ([Day], [DayFromYear],
      [YearFromTime], [MonthFromTime], [DateFromTime], [MakeDay]) through
      the era-based [days_from_civil] and [civil_from_days]; the two are
      inverse and agree with ECMAScript's definitions; [prev_day], the
      calendar day before a date, with [prev_day_spec].
    - [JsDate]: time values, [TimeClip], the host class [JsHost] (time zone
      offset, fallback parser, longest string, clock), [new Date(..)] with
      the date-only ISO parser (a day field from 01 to 31, a day past the
      month's end carried into the next month by [MakeDay], as V8 does),
      the local getters, [Number::toString] of integers.
    - [JsObject]: a plain object as an ordered property list beside the
      names inherited from [Object.prototype]; the grouping loop
      [group_by]/[group_push] of lines 25-31 and 46-52, [Object.keys]
      order ([own_keys]) and the per-key sort [sort_each] of lines 34-36
      and 55-57.
    - [Content]: JavaScript values of front matter, numbers as binary64
      ([SpecFloat]), items and [getFilteredByGlob] (from the spec's Record
      Source contract).
    - [JsNumber]: [StringToNumber] on ASCII strings, [isNaN], and the
      comparator [(a, b) => b - a] on strings.
    - [Collections]: the four collections as functions of the collection
      API, for a host [JsHost] and a collator [Collator] (the class behind
      [localeCompare]).
    - [YearIndex]: [years.js], the directory being its existence flag and
      its entry names.
    - [Filters]: every filter of lines 62-127.
    - [Stars]: the [stars] shortcode (lines 130-146), once in closed form
      ([stars]: the unit counts [Math.floor], [% 1 >= 0.5] and
      [5 - fullStars - ..] decide the markup) and once with its three
      loops run as written ([stars_loop]: [for_units] iterates
      [html += ..] under fuel, each append checked against the engine's
      longest string).
    - [Composition]: one content store seen from both sides, the visits
      directory of [years.js] ([store_dir]) and the collection API of
      [visitsByYear] ([store_api]); the identifier convention
      [YYYY-MM-DD-slug.md] as [follows_convention].  It holds the
      theorems that relate the collections to the year index.
    - [Select]: the compression script's file selection: Node's
      [path.extname], the staged-file filter on [git]'s output, and the
      directory walk [getAllImageFiles] with the array its recursive
      calls share and the [readdirSync] errors that escape it.
    - [Compress]: [compressImages] over an explicit file system, the
      compressors being the host class [ImageTools], with the
      [Error compressing] lines its [catch] prints.
    - [Script]: [main]'s control flow in [js_result], with its console
      lines as values, and [main().catch].
    - [NodePath]: Node's [path.posix.join] and [normalize] (from Node's
      [lib/path.js], not in the repository), the segments as a stack.
    - [Config]: the registrations of [.eleventy.js] by name and its
      returned object; [visitsDir] (years.js line 5) and [ASSETS_DIR]
      (compress-assets.ts line 20) through [path_join].

    ** What the theorems show

    - Collections: with valid dates [visits] is a permutation of the visit
      items sorted latest first, and the unique stable sort of them;
      for every collator, the stable sorts of the place items by
      [localeCompare] of their titles are exactly [places]; [visitsByYear] never
      throws and its groups partition the visits by year, each group in
      input order then sorted; [visitsByPlace] does the same by place
      unless a place is named after a member of [Object.prototype], and
      throws exactly then.  Finding: any visit without a valid date makes
      the comparator inconsistent ([date_desc_inconsistent]), so the
      order of [visits] is left to the engine, with no error.
    - Year index: no duplicates, exactly the accepted prefixes, largest
      first; every entry has exactly four characters; [isNaN] accepts
      "0x1f", " 12" and blanks.
    - Composition: when every visit file follows the identifier
      convention, on a UTC host, [getYears(visitsByYear)] is exactly the
      year index of [years.js], in order ([years_getYears]), the two year
      sources the spec's section 4.3 leaves unreconciled.  Findings: a
      hidden [.md] file is skipped by the collections' glob, so
      [visitsByYear] does not change, but its first four characters
      (such as ".202") join the index as a year no key of [visitsByYear]
      has ([years_hidden_file]); on every host behind UTC a visit is
      grouped under the local year of UTC midnight of its date, the year
      before for January 1st, while [years.js] takes the year of its name
      ([visitsByYear_key_west_of_utc]).
    - Stars: [stars] emits five units for ratings in [0, 5] with the
      half star exactly when the fraction is at least 1/2, and does not
      clamp outside: a negative rating gives [5 - floor] empty stars, a
      rating from 5 on [floor] full stars and the half star, NaN nothing,
      the infinities a [RangeError]; the loops compute the closed form for every rating
      given enough fuel ([stars_loop_stars]), and on +Infinity they stop
      with a [RangeError] after exactly [max_string_length / 32 + 1]
      iterations.
    - Filters: [averageRating] ignores non-numbers; [uniqueCities] has each city once and
      only cities; [getPlace] is the first place with the slug; on a UTC
      host [dateSlug] is the identity on ISO dates of years 1000-9999 and
      the calendar filters read the date's fields; on every host behind
      UTC by less than a day they show every ISO date of the years
      1001-9999 as the valid date one day before it; whenever
      [new Date(..)] is NaN the filters print NaN, on every host.
    - Compression script: the walk returns each image file of a
      well-formed tree once, in walk order; the staged filter keeps
      exactly the image files under [assets/]; [compressImages] counts
      every file once, its totals are the sums of its reports, each
      report is accurate when the paths are distinct, its error lines are
      those of a subsequence of the listed paths, one per failure, each
      with an error of its own file, and only listed JPEG/PNG files change; a run changes nothing outside the assets
      directory, exits with 1 only when that directory is missing or the
      walk throws, and is silent as a pre-commit hook with nothing
      staged; an unreadable directory under [assets/] ends the run in
      [main().catch] before any file is compressed.  Findings: WebP files are reported as
      processed but never compressed; a duplicated path is compressed
      twice and both reports take the size from before the first run, for
      every compressor, so the saved bytes are over-counted.
    - Paths: the script's [join] (concatenation with a slash) is Node's
      [path.join] on its calls ([join_path_join], which justifies that
      model of [join]); for every project
      root, [years.js] reads the directory of the visits glob and the
      script rewrites the passthrough-copied [assets] directory
      ([content_directories]).

    ** Bounds and evaluation

    Every loop of the code runs over a finite list except the shortcode's
    [for] loops, whose bound is the rating.  [stars] counts them
    ([loop_count]); [stars_loop] runs them under fuel and returns [None]
    when fuel runs out.  The bound [fuel_bound = max_string_length / 32 + 2]
    suffices for every rating: each iteration appends at least 32 UTF-16
    units, so within [max_string_length / 32 + 1] iterations a loop
    either ends or throws the engine's [RangeError] for an over-long
    string, and the fuel is not shared between the three loops.  Calendar facts are proved for
    every integer day from small checks evaluated by [vm_compute] on
    [check_range] (the 400 years of an era, the 366 days of a year, the
    months) with monotonicity and the 400-year period; year and two-digit
    printing are checked on 1000-9999 and 1-31, the ranges the theorems
    state.  Numbers in dates are exact integers: time values stay below
    8.64e15 < 2^53, so binary64 subtraction of two of them has the sign of
    their exact difference.

    ** Not modelled

    The template engine and its rendering, Eleventy's copying of the
    passthrough directories and its use of the output directory and path
    prefix (the configuration object is modelled, not what Eleventy does
    with it), the image codecs, the file system and [git] (taken as inputs),
    the engine's fallback parser for non-ISO date strings and the full
    Intl locale data (host parameters), and, in the compression script,
    [formatBytes] (its [Math.log] and the printing of fractional numbers)
    and the text of the console lines.  [formatBytes] is left out because
    [Math.log] is implementation-approximated in ECMA-262 (21.3.2.20), so
    its unit index at exact powers of 1024 depends on the engine, and its
    output prints fractional binary64 values (Number::toString of
    non-integers).  Later work, in order: date-time ISO strings and
    [averageRating] as a bound on [stars] input. *)

From Stdlib Require Export List Permutation Sorted ZArith Lia Bool String.
Export ListNotations.

Declare Scope twofold_scope.
Delimit Scope twofold_scope with tf.
Open Scope twofold_scope.

(** ** Results of code that can throw *)

(** The JavaScript exceptions the modelled code can raise. *)
Inductive js_error :=
| TypeError (what : string)
| RangeError (what : string)
| SystemError (what : string).

Inductive js_result (A : Type) :=
| Ok (a : A)
| Throw (e : js_error).
Arguments Ok {A} a.
Arguments Throw {A} e.

Definition js_bind {A B} (m : js_result A) (k : A -> js_result B) : js_result B :=
  match m with
  | Ok a => k a
  | Throw e => Throw e
  end.

Notation "x <- m ;; k" := (js_bind m (fun x => k))
  (at level 61, m at next level, right associativity) : twofold_scope.

(** [try { m } catch (error) { handler(error) }] *)
Definition js_catch {A} (m : js_result A) (handler : js_error -> A) : A :=
  match m with
  | Ok a => a
  | Throw e => handler e
  end.

(** [error.message] *)
Definition error_message (e : js_error) : string :=
  match e with TypeError w | RangeError w | SystemError w => w end.

Definition is_ok {A} (r : js_result A) : bool :=
  match r with Ok _ => true | Throw _ => false end.

(** ** Tactics *)

Ltac inv H := inversion H; subst; clear H.

(** Case on the first boolean or comparison [if]/[match] of the goal. *)
Ltac case_if :=
  match goal with
  | |- context [if ?b then _ else _] => let E := fresh "E" in destruct b eqn:E
  | |- context [match ?c with Lt => _ | Eq => _ | Gt => _ end] =>
      let E := fresh "E" in destruct c eqn:E
  end.

Create HintDb twofold.

(** ** Shared list lemmas *)

Section ListFacts.
Context {A : Type}.

Lemma Permutation_filter (f : A -> bool) (l l' : list A) :
  Permutation l l' -> Permutation (filter f l) (filter f l').
Proof.
  induction 1; simpl; try (destruct (f x)); try (destruct (f y)); eauto using Permutation.
Qed.

Lemma filter_filter_same (f : A -> bool) (l : list A) :
  filter f (filter f l) = filter f l.
Proof. induction l as [|x l IH]; simpl; [|destruct (f x) eqn:E; simpl; rewrite ?E]; congruence. Qed.

Lemma filter_all_true (f : A -> bool) (l : list A) :
  (forall x, In x l -> f x = true) -> filter f l = l.
Proof.
  induction l as [|x l IH]; intros H; simpl; [reflexivity|].
  rewrite (H x (or_introl eq_refl)), IH; auto with datatypes.
Qed.

Lemma filter_all_false (f : A -> bool) (l : list A) :
  (forall x, In x l -> f x = false) -> filter f l = [].
Proof.
  induction l as [|x l IH]; intros H; simpl; [reflexivity|].
  rewrite (H x (or_introl eq_refl)); auto with datatypes.
Qed.

(** Splitting a list into the elements a test keeps and the others is a
    permutation. *)
Lemma Permutation_filter_split (f : A -> bool) (l : list A) :
  Permutation l (filter f l ++ filter (fun x => negb (f x)) l).
Proof.
  induction l as [|x l IH]; simpl; [constructor|].
  destruct (f x); simpl; [constructor; assumption|].
  eapply Permutation_trans; [apply perm_skip, IH|apply Permutation_middle].
Qed.
Lemma StronglySorted_impl_in (R R' : A -> A -> Prop) (l : list A) :
  (forall x y, In x l -> In y l -> R x y -> R' x y) -> StronglySorted R l -> StronglySorted R' l.
Proof.
  induction l as [|a l IH]; intros Himp Hs; constructor; inv Hs.
  - apply IH; auto using in_cons.
  - rewrite Forall_forall in *. intros y Hy. apply Himp; simpl; auto.
Qed.
End ListFacts.

(** ** A JavaScript [Set] of strings: insertion order, no duplicates *)

(** [set.add(x)]: no effect when [x] is already in the set. *)
Definition set_add (x : string) (s : list string) : list string :=
  if existsb (String.eqb x) s then s else s ++ [x].

Lemma set_add_spec (x : string) (s : list string) :
  NoDup s -> NoDup (set_add x s) /\ (forall y, In y (set_add x s) <-> In y s \/ y = x).
Proof.
  intros Hnd. unfold set_add. destruct (existsb (String.eqb x) s) eqn:E.
  - apply existsb_exists in E as (z & Hz & Ez). apply String.eqb_eq in Ez. subst.
    split; [exact Hnd|intros y; intuition congruence].
  - split.
    + apply NoDup_app; [exact Hnd|repeat constructor; simpl; tauto|].
      intros y Hy [<-|[]]. assert (existsb (String.eqb x) s = true)
        by (apply existsb_exists; exists x; split; [exact Hy|apply String.eqb_refl]). congruence.
    + intros y. rewrite in_app_iff. simpl. intuition.
Qed.

Lemma fold_left_ext_fun {A B : Type} (f g : A -> B -> A) (l : list B) (acc : A) :
  (forall a x, f a x = g a x) -> fold_left f l acc = fold_left g l acc.
Proof. intros E. revert acc. induction l as [|x l IH]; intros acc; simpl; [reflexivity|now rewrite E]. Qed.

Lemma string_app_nil_r (s : string) : (s ++ "")%string = s.
Proof. induction s as [|c s IH]; simpl; [reflexivity|now rewrite IH]. Qed.

Lemma string_app_assoc (a b c : string) : ((a ++ b) ++ c)%string = (a ++ b ++ c)%string.
Proof. induction a as [|x a IH]; simpl; [reflexivity|now rewrite IH]. Qed.

Lemma string_app_inv_l (s a b : string) : (s ++ a)%string = (s ++ b)%string -> a = b.
Proof. induction s as [|x s IH]; simpl; [auto|intros H; injection H; auto]. Qed.

Lemma string_prefix_app (a b : string) : String.prefix a b = true -> exists r, b = (a ++ r)%string.
Proof.
  revert b. induction a as [|x a IH]; intros [|y b] H; simpl in *; try discriminate; [eauto|eauto|].
  destruct (Ascii.ascii_dec x y) as [->|]; [|discriminate].
  destruct (IH b H) as [r ->]. eauto.
Qed.

(** The images of distinct elements under [f] are duplicate-free and
    disjoint: then so is their concatenation. *)
Lemma NoDup_flat_map {A B : Type} (f : A -> list B) (l : list A) :
  NoDup l -> (forall x, In x l -> NoDup (f x)) ->
  (forall x y b, In x l -> In y l -> x <> y -> In b (f x) -> In b (f y) -> False) ->
  NoDup (flat_map f l).
Proof.
  induction l as [|x l IH]; simpl; intros Hl Hf Hd; [constructor|]. inv Hl.
  apply NoDup_app; [auto|apply IH; eauto|].
  intros b Hb Hb'. apply in_flat_map in Hb' as (y & Hy & Hby).
  apply (Hd x y b); auto. intros ->. contradiction.
Qed.

(** Two sorted permutations of each other are equal when the order is
    antisymmetric on their elements. *)
Lemma StronglySorted_perm_eq {A : Type} (R : A -> A -> Prop) (l1 l2 : list A) :
  (forall x y, In x l1 -> In y l1 -> R x y -> R y x -> x = y) ->
  StronglySorted R l1 -> StronglySorted R l2 -> Permutation l1 l2 -> l1 = l2.
Proof.
  revert l2. induction l1 as [|a t1 IH]; intros l2 Hanti H1 H2 Hp.
  - now apply Permutation_nil in Hp.
  - destruct l2 as [|b t2]; [apply Permutation_sym, Permutation_nil in Hp; discriminate|].
    apply StronglySorted_inv in H1 as [H1 F1], H2 as [H2 F2].
    assert (Hab : a = b).
    { assert (Ha : In a (b :: t2)) by (eapply Permutation_in; [exact Hp|now left]).
      assert (Hb : In b (a :: t1)) by (eapply Permutation_in; [symmetry; exact Hp|now left]).
      destruct Ha as [->|Ha]; [reflexivity|]. destruct Hb as [->|Hb]; [reflexivity|].
      apply Hanti; [now left|now right| |].
      - rewrite Forall_forall in F1. now apply F1.
      - rewrite Forall_forall in F2. now apply F2. }
    subst b. f_equal. apply IH; auto.
    + intros x y Hx Hy. apply Hanti; now right.
    + eapply Permutation_cons_inv. exact Hp.
Qed.

(** [find] returns the first element that passes the test. *)
Lemma find_first {A : Type} (f : A -> bool) (l : list A) (x : A) :
  find f l = Some x ->
  exists pre post, l = pre ++ x :: post /\ f x = true /\ forall y, In y pre -> f y = false.
Proof.
  induction l as [|a l IH]; simpl; [discriminate|]. destruct (f a) eqn:Ea.
  - intros [= <-]. exists [], l. simpl. tauto.
  - intros H. destruct (IH H) as (pre & post & -> & Hx & Hpre).
    exists (a :: pre), post. simpl. split; [reflexivity|split; [exact Hx|]].
    intros y [<-|Hy]; auto.
Qed.

(** Elements of a list with distinct images are equal when their images
    are. *)
Lemma NoDup_map_inj_in {A B : Type} (f : A -> B) (l : list A) (x y : A) :
  NoDup (map f l) -> In x l -> In y l -> f x = f y -> x = y.
Proof.
  induction l as [|a l IH]; simpl; [tauto|]. intros Hnd Hx Hy E. inv Hnd.
  destruct Hx as [<-|Hx], Hy as [<-|Hy]; auto; exfalso.
  - match goal with Hn : ~ In _ _ |- _ => apply Hn end. rewrite E. now apply in_map.
  - match goal with Hn : ~ In _ _ |- _ => apply Hn end. rewrite <- E. now apply in_map.
Qed.

(** Adding to a [Set] the values a function finds in the elements of a
    list: each value once, and only those. *)
Lemma fold_set_add_spec {A : Type} (f : A -> option string) (l : list A) (acc : list string) :
  NoDup acc ->
  NoDup (fold_left (fun s x => match f x with Some y => set_add y s | None => s end) l acc) /\
  forall y, In y (fold_left (fun s x => match f x with Some y => set_add y s | None => s end) l acc)
            <-> In y acc \/ exists x, In x l /\ f x = Some y.
Proof.
  revert acc. induction l as [|x l IH]; intros acc Hnd; simpl.
  - split; [exact Hnd|]. intros y. split; [tauto|intros [H|(x & [] & _)]; exact H].
  - assert (Hstep : NoDup (match f x with Some y => set_add y acc | None => acc end) /\
              forall y, In y (match f x with Some y => set_add y acc | None => acc end) <->
                        In y acc \/ f x = Some y).
    { destruct (f x) as [z|].
      - destruct (set_add_spec z acc Hnd) as [H1 H2]. split; [exact H1|].
        intros y. rewrite H2. intuition congruence.
      - split; [exact Hnd|]. intros y. intuition discriminate. }
    destruct Hstep as [Hn1 Hm1]. destruct (IH _ Hn1) as [Hn2 Hm2]. split; [exact Hn2|].
    intros y. rewrite Hm2, Hm1. split.
    + intros [[H|H]|(z & Hz & Hf)]; eauto.
    + intros [H|(z & [<-|Hz] & Hf)]; eauto.
Qed.

(** ** Subsequences

    [subseq xs ys]: [xs] is what is left of [ys] after some of its
    elements are dropped, the others keeping their order. *)

Inductive subseq {A : Type} : list A -> list A -> Prop :=
| subseq_empty (ys : list A) : subseq [] ys
| subseq_keep (a : A) (xs ys : list A) : subseq xs ys -> subseq (a :: xs) (a :: ys)
| subseq_drop (a : A) (xs ys : list A) : subseq xs ys -> subseq xs (a :: ys).

Lemma subseq_In {A : Type} (xs ys : list A) (a : A) : subseq xs ys -> In a xs -> In a ys.
Proof. intros Hs. induction Hs as [ys|b xs ys _ IH|b xs ys _ IH]; cbn; [tauto| |]; intuition. Qed.

Lemma subseq_length {A : Type} (xs ys : list A) : subseq xs ys -> (List.length xs <= List.length ys)%nat.
Proof. intros Hs. induction Hs; cbn; lia. Qed.

#[export] Hint Resolve Permutation_filter : twofold.
#[export] Hint Constructors subseq : twofold.
