(* ===== verification/JsSort.v ===== *)
(** * JsSort: [Array.prototype.sort] with a comparator

    Every collection of [src/.eleventy.js] is ordered by
    [array.sort((a, b) => ...)] and [years.js] sorts its years the same
    way.  ECMAScript (since ES2019) leaves the algorithm to the engine but
    requires it to be stable, and fixes the order only when the comparator
    is consistent.  This file holds:
    - [cmp_sign], ECMAScript's [SortCompare] step: only the sign of the
      comparator's number matters and NaN counts as +0;
    - the class [Consistent] of consistent comparators;
    - [sort], a stable insertion sort standing for the engine;
    - the abstract specification [stable_sorted] and the theorems that
      [sort] meets it and that it has one solution only. *)

From S2P Require Import Prelude.

(** ** The sign of a comparator result

    The comparators of the program return a number; [SortCompare] turns a
    NaN result into +0 and the sort only tests its sign.  We represent a
    comparator result by [cmp_result]: a number whose sign is known, or
    NaN. *)
Inductive cmp_result :=
| CmpNaN
| CmpNum (sign : comparison).

Definition cmp_sign (r : cmp_result) : comparison :=
  match r with
  | CmpNaN => Eq
  | CmpNum c => c
  end.

(** ** Consistent comparators

    A comparator [cmp] (already through [cmp_sign]) is consistent in the
    sense of ECMAScript when it is antisymmetric and its "not greater"
    relation is transitive; this makes "not greater" a total preorder. *)
Class Consistent {A : Type} (cmp : A -> A -> comparison) : Prop := {
  cmp_opp : forall x y, cmp y x = CompOpp (cmp x y);
  cmp_le_trans : forall x y z, cmp x y <> Gt -> cmp y z <> Gt -> cmp x z <> Gt
}.
Arguments cmp_opp {A} cmp {_} x y.
Arguments cmp_le_trans {A} cmp {_} x y z.

Section Sort.
Context {A : Type} (cmp : A -> A -> comparison).

(** [insert x l] places [x] before the first element it is not greater
    than: [x] comes before the elements equal to it. *)
Fixpoint insert (x : A) (l : list A) : list A :=
  match l with
  | [] => [x]
  | y :: l' =>
      match cmp x y with
      | Gt => y :: insert x l'
      | _ => x :: l
      end
  end.

(** Elements are inserted from the last to the first, so an element
    equal to a later one stays in front of it: the sort is stable. *)
Fixpoint sort (l : list A) : list A :=
  match l with
  | [] => []
  | x :: l' => insert x (sort l')
  end.

Definition le (x y : A) : Prop := cmp x y <> Gt.

(** [same_key x y]: the comparator finds [x] and [y] equal. *)
Definition same_key (x y : A) : bool :=
  match cmp x y with Eq => true | _ => false end.

(** The abstract specification of a conforming engine's sort: the
    output is a permutation of the input, sorted by the comparator, and
    on each class of equal keys it keeps the input order. *)
Definition stable_sorted (inp out : list A) : Prop :=
  Permutation inp out /\ Sorted le out /\
  forall x, filter (same_key x) out = filter (same_key x) inp.

(** The decidable check of sortedness. *)
Fixpoint sorted_b (l : list A) : bool :=
  match l with
  | x :: (y :: _) as l' =>
      match cmp x y with Gt => false | _ => sorted_b l' end
  | _ => true
  end.
End Sort.

Arguments le {A} cmp x y.

Section SortFacts.
Context {A : Type} (cmp : A -> A -> comparison).

Lemma insert_perm (x : A) (l : list A) : Permutation (insert cmp x l) (x :: l).
Proof.
  induction l as [|y l IH]; simpl; [reflexivity|].
  destruct (cmp x y); try reflexivity.
  eapply Permutation_trans; [apply perm_skip, IH|apply perm_swap].
Qed.

Lemma sort_perm (l : list A) : Permutation l (sort cmp l).
Proof.
  induction l as [|x l IH]; simpl; [constructor|].
  eapply Permutation_trans; [apply perm_skip, IH|]. symmetry. apply insert_perm.
Qed.

Context `{Hc : !Consistent cmp}.

Lemma cmp_refl (x : A) : cmp x x = Eq.
Proof. pose proof (cmp_opp cmp x x) as H. destruct (cmp x x); simpl in *; congruence. Qed.

Lemma cmp_gt_le (x y : A) : cmp x y = Gt -> le cmp y x.
Proof. unfold le. intros H. rewrite (cmp_opp cmp x y), H. discriminate. Qed.

Lemma le_trans_rel : Relations_1.Transitive (le cmp).
Proof. intros x y z. apply (cmp_le_trans cmp). Qed.

Lemma le_antisym_eq (x y : A) : le cmp x y -> le cmp y x -> cmp x y = Eq.
Proof. unfold le. rewrite (cmp_opp cmp x y). destruct (cmp x y); simpl; congruence. Qed.

Lemma same_key_refl (x : A) : same_key cmp x x = true.
Proof. unfold same_key. now rewrite cmp_refl. Qed.

(** An element greater than [x] is in another key class than [x]. *)
Lemma same_key_gt (x y z : A) :
  same_key cmp z x = true -> cmp x y = Gt -> same_key cmp z y = false.
Proof.
  unfold same_key. intros Hzx Hxy.
  destruct (cmp z x) eqn:E; try discriminate.
  destruct (cmp z y) eqn:E'; try reflexivity.
  exfalso. apply (cmp_le_trans cmp x z y); [rewrite (cmp_opp cmp z x), E|rewrite E'|];
    simpl; congruence.
Qed.

Lemma cmp_lt_le_trans (x y z : A) : cmp x y = Lt -> cmp y z <> Gt -> cmp x z = Lt.
Proof.
  intros H1 H2. assert (Hle : cmp x z <> Gt)
    by (apply (cmp_le_trans cmp x y z); [rewrite H1; discriminate|exact H2]).
  destruct (cmp x z) eqn:E; [exfalso|reflexivity|contradiction].
  assert (Hzx : cmp z x <> Gt) by (rewrite (cmp_opp cmp x z), E; discriminate).
  apply (cmp_le_trans cmp y z x H2) in Hzx. rewrite (cmp_opp cmp x y), H1 in Hzx. auto.
Qed.

Lemma cmp_le_lt_trans (x y z : A) : cmp x y <> Gt -> cmp y z = Lt -> cmp x z = Lt.
Proof.
  intros H1 H2. assert (Hle : cmp x z <> Gt)
    by (apply (cmp_le_trans cmp x y z); [exact H1|rewrite H2; discriminate]).
  destruct (cmp x z) eqn:E; [exfalso|reflexivity|contradiction].
  assert (Hzx : cmp z x <> Gt) by (rewrite (cmp_opp cmp x z), E; discriminate).
  apply (cmp_le_trans cmp z x y Hzx) in H1. rewrite (cmp_opp cmp y z), H2 in H1. auto.
Qed.

Lemma HdRel_insert (x y : A) (l : list A) :
  le cmp y x -> HdRel (le cmp) y l -> HdRel (le cmp) y (insert cmp x l).
Proof.
  intros Hyx Hl. destruct l as [|z l]; simpl; [auto|].
  destruct (cmp x z); inv Hl; auto.
Qed.

Lemma insert_sorted (x : A) (l : list A) :
  Sorted (le cmp) l -> Sorted (le cmp) (insert cmp x l).
Proof.
  induction l as [|y l IH]; intros Hs; simpl; [auto|].
  inv Hs. destruct (cmp x y) eqn:E.
  - constructor; [constructor; auto|constructor; unfold le; congruence].
  - constructor; [constructor; auto|constructor; unfold le; congruence].
  - constructor; [auto|]. apply HdRel_insert; auto using cmp_gt_le.
Qed.

Lemma sort_sorted (l : list A) : Sorted (le cmp) (sort cmp l).
Proof. induction l; simpl; auto using insert_sorted. Qed.

Lemma filter_same_key_insert (z x : A) (l : list A) :
  filter (same_key cmp z) (insert cmp x l) = filter (same_key cmp z) (x :: l).
Proof.
  induction l as [|y l IH]; simpl; [reflexivity|].
  destruct (cmp x y) eqn:E; try reflexivity.
  simpl. rewrite IH. simpl.
  destruct (same_key cmp z x) eqn:Ezx.
  - now rewrite (same_key_gt x y z Ezx E).
  - reflexivity.
Qed.

Lemma sort_stable (z : A) (l : list A) :
  filter (same_key cmp z) (sort cmp l) = filter (same_key cmp z) l.
Proof.
  induction l as [|x l IH]; simpl; [reflexivity|].
  rewrite filter_same_key_insert. simpl. now rewrite IH.
Qed.
End SortFacts.

Section SortSpec.
Context {A : Type} (cmp : A -> A -> comparison) `{Hc : !Consistent cmp}.

(** Every element of a list sorted by [le] is above its head. *)
Lemma sorted_head_le (a x : A) (r : list A) :
  Sorted (le cmp) (a :: r) -> In x (a :: r) -> le cmp a x.
Proof.
  intros Hs [<-|Hin]; [unfold le; rewrite cmp_refl; [discriminate|exact Hc]|].
  apply Sorted_StronglySorted in Hs; [|apply le_trans_rel; exact Hc].
  inv Hs. rewrite Forall_forall in *. auto.
Qed.

(** The heads of two stable sorts of one input coincide. *)
Lemma stable_sorted_heads (inp r1 r2 : list A) (a b : A) :
  stable_sorted cmp inp (a :: r1) -> stable_sorted cmp inp (b :: r2) -> a = b.
Proof.
  intros (P1 & S1 & F1) (P2 & S2 & F2).
  assert (Hab : cmp a b = Eq).
  { apply le_antisym_eq; [exact Hc| |].
    - apply (sorted_head_le a b r1 S1).
      apply (Permutation_in b (Permutation_trans (Permutation_sym P2) P1)); now left.
    - apply (sorted_head_le b a r2 S2).
      apply (Permutation_in a (Permutation_trans (Permutation_sym P1) P2)); now left. }
  specialize (F1 a). specialize (F2 a). rewrite <- F2 in F1. simpl in F1.
  rewrite same_key_refl in F1 by exact Hc.
  unfold same_key in F1 at 2. rewrite Hab in F1. congruence.
Qed.

Lemma stable_sorted_tail (inp r1 r2 : list A) (a : A) :
  stable_sorted cmp inp (a :: r1) -> stable_sorted cmp inp (a :: r2) ->
  stable_sorted cmp r1 r2.
Proof.
  intros (P1 & S1 & F1) (P2 & S2 & F2). split; [|split].
  - eapply Permutation_cons_inv, Permutation_trans; [symmetry; exact P1|exact P2].
  - now apply Sorted_inv in S2.
  - intros x. specialize (F1 x). specialize (F2 x). rewrite <- F1 in F2.
    simpl in F2. destruct (same_key cmp x a); congruence.
Qed.

(** Uniqueness: a comparator-consistent input has exactly one
    stable sorted permutation. *)
Theorem stable_sorted_unique (inp o1 o2 : list A) :
  stable_sorted cmp inp o1 -> stable_sorted cmp inp o2 -> o1 = o2.
Proof.
  revert inp o2. induction o1 as [|a r1 IH]; intros inp o2 H1 H2.
  - destruct H1 as (P1 & _). destruct H2 as (P2 & _).
    symmetry. apply Permutation_nil. rewrite <- P2. now symmetry.
  - destruct o2 as [|b r2].
    + destruct H1 as (P1 & _). destruct H2 as (P2 & _).
      exfalso. apply (@Permutation_nil_cons _ r1 a).
      now rewrite <- P2.
    + pose proof (stable_sorted_heads _ _ _ _ _ H1 H2) as <-.
      f_equal. apply (IH r1); [|eapply stable_sorted_tail; eauto].
      split; [reflexivity|split; [|reflexivity]].
      destruct H1 as (_ & S1 & _). now apply Sorted_inv in S1.
Qed.

Lemma sort_stable_sorted (l : list A) : stable_sorted cmp l (sort cmp l).
Proof.
  split; [apply sort_perm|split; [now apply sort_sorted|]].
  intros x. now apply sort_stable.
Qed.

Lemma sorted_b_Sorted (l : list A) : sorted_b cmp l = true <-> Sorted (le cmp) l.
Proof.
  induction l as [|x [|y l] IH]; simpl; split; intros H; auto.
  - destruct (cmp x y) eqn:E; try discriminate;
      constructor; try (apply IH; exact H); constructor; unfold le; congruence.
  - inv H. inv H3. destruct (cmp x y) eqn:E; try contradiction; apply IH; auto.
Qed.
End SortSpec.

Section SortExt.
Context {A : Type}.

Lemma insert_ext_in (c1 c2 : A -> A -> comparison) (x : A) (l : list A) :
  (forall y, In y l -> c1 x y = c2 x y) -> insert c1 x l = insert c2 x l.
Proof.
  induction l as [|y l IH]; intros H; simpl; [reflexivity|].
  rewrite (H y (or_introl eq_refl)). destruct (c2 x y); try reflexivity.
  f_equal. apply IH. intros z Hz. apply H. now right.
Qed.

(** The sort only compares elements of its input: two comparators that
    agree there give the same order. *)
Lemma sort_ext_in (c1 c2 : A -> A -> comparison) (l : list A) :
  (forall x y, In x l -> In y l -> c1 x y = c2 x y) -> sort c1 l = sort c2 l.
Proof.
  induction l as [|x l IH]; intros H; simpl; [reflexivity|].
  rewrite IH by (intros y z Hy Hz; apply H; now right).
  apply insert_ext_in. intros y Hy. apply H; [now left|right].
  eapply Permutation_in; [symmetry; apply sort_perm|exact Hy].
Qed.

(** Comparing through a key function: a consistent comparator on the
    keys gives a consistent comparator on the elements. *)
Global Instance Consistent_on {B : Type} (f : A -> B) (cmp : B -> B -> comparison) :
  Consistent cmp -> Consistent (fun x y => cmp (f x) (f y)).
Proof.
  intros Hc. split.
  - intros x y. apply (cmp_opp cmp).
  - intros x y z. apply (cmp_le_trans cmp).
Qed.
End SortExt.

(** Options ordered with [None] below every [Some]. *)
Definition option_compare {B : Type} (cmp : B -> B -> comparison) (a b : option B) : comparison :=
  match a, b with
  | None, None => Eq
  | None, Some _ => Lt
  | Some _, None => Gt
  | Some x, Some y => cmp x y
  end.

#[export] Instance Consistent_option {B : Type} (cmp : B -> B -> comparison) :
  Consistent cmp -> Consistent (option_compare cmp).
Proof.
  intros Hc. split.
  - intros [x|] [y|]; simpl; [apply (cmp_opp cmp)|reflexivity..].
  - intros [x|] [y|] [z|]; simpl; try congruence. apply (cmp_le_trans cmp).
Qed.

#[export] Instance Consistent_Z_compare : Consistent Z.compare.
Proof.
  split.
  - intros x y. apply Z.compare_antisym.
  - intros x y z. rewrite !Z.compare_le_iff. lia.
Qed.

(** Reversing a consistent comparator gives a consistent comparator. *)
#[export] Instance Consistent_flip {B : Type} (cmp : B -> B -> comparison) :
  Consistent cmp -> Consistent (fun x y => cmp y x).
Proof.
  intros Hc. split.
  - intros x y. apply (cmp_opp cmp).
  - intros x y z H1 H2. apply (cmp_le_trans cmp z y x); assumption.
Qed.
