(* ===== verification/Calendar.v ===== *)
(** * Calendar: the proleptic Gregorian day arithmetic of ECMAScript dates

    [new Date(d).getFullYear()], [getMonth()] and [getDate()] in
    [src/.eleventy.js] (lines 26, 35, 56, 87-89, 95, 100) read the
    calendar fields of a time value through ECMAScript's [Day],
    [YearFromTime], [MonthFromTime] and [DateFromTime] (ECMA-262
    section 21.4.1).  The standard defines the year as the largest [y]
    with [TimeFromYear y <= t], which is not an algorithm; engines compute
    it arithmetically.  This file:
    - defines [days_from_civil] and [civil_from_days], the arithmetic
      conversion between a civil date and its day number (days since
      1970-01-01), era by era of 400 years = 146097 days;
    - defines ECMAScript's own [DayFromYear];
    - proves the two conversions inverse on valid dates (round trips) and
      [days_from_civil] equal to [DayFromYear] on January 1st, so that the
      year computed is ECMAScript's [YearFromTime].
    The proofs check small ranges by evaluation ([check_range]: the 400
    years of an era, the 366 days of a year, the months), extend them to
    a whole era with monotonicity lemmas, and transport the result to
    every era with [Z.div]/[Z.modulo] arithmetic. *)

From S2P Require Import Prelude.
Open Scope Z_scope.

(** ** ECMAScript's definitions *)

Definition msPerDay : Z := 86400000.

(** [Day t] and [TimeWithinDay t] (floor division, as in ECMA-262). *)
Definition Day (t : Z) : Z := t / msPerDay.

Definition leap_year (y : Z) : bool :=
  (y mod 4 =? 0) && (negb (y mod 100 =? 0) || (y mod 400 =? 0)).

(** [DayFromYear y]: the day number of January 1st of [y]. *)
Definition DayFromYear (y : Z) : Z :=
  365 * (y - 1970) + (y - 1969) / 4 - (y - 1901) / 100 + (y - 1601) / 400.

(** The length of month [m] (1-12), in a leap year when [lf]. *)
Definition month_length (lf : bool) (m : Z) : Z :=
  if m =? 2 then (if lf then 29 else 28)
  else if (m =? 4) || (m =? 6) || (m =? 9) || (m =? 11) then 30
  else 31.

Definition days_in_month (y m : Z) : Z := month_length (leap_year y) m.

Definition valid_md (lf : bool) (m d : Z) : bool :=
  (1 <=? m) && (m <=? 12) && (1 <=? d) && (d <=? month_length lf m).

Definition valid_date (y m d : Z) : bool := valid_md (leap_year y) m d.

(** ECMAScript's month table: the day of the year (from 0) on which
    month [m] (1-12) starts, as used by [MonthFromTime]. *)
Definition cum_days (lf : bool) (m : Z) : Z :=
  nth (Z.to_nat (m - 1)) [0; 31; 59; 90; 120; 151; 181; 212; 243; 273; 304; 334] 0
  + (if lf && (2 <? m) then 1 else 0).

(** ** The conversions, inside one era of 400 years

    A year of the era starts on March 1st, so that February 29th is the
    last day of the era-year.  [yoe] is the year of the era (0-399),
    [doe] the day of the era (0-146096), [doy] the day of the era-year
    (0-365). *)

(** The day of the era on which era-year [yoe] starts. *)
Definition year_start (yoe : Z) : Z := 365 * yoe + yoe / 4 - yoe / 100.

(** The era-year of a day of the era. *)
Definition yoe_of_doe (doe : Z) : Z :=
  (doe - doe / 1460 + doe / 36524 - doe / 146096) / 365.

(** The day of the era-year of month [m] and day [d]. *)
Definition doy_of_md (m d : Z) : Z :=
  let mp := if 2 <? m then m - 3 else m + 9 in
  (153 * mp + 2) / 5 + d - 1.

(** Month and day of a day of the era-year. *)
Definition md_of_doy (doy : Z) : Z * Z :=
  let mp := (5 * doy + 2) / 153 in
  (if mp <? 10 then mp + 3 else mp - 9, doy - (153 * mp + 2) / 5 + 1).

Definition doe_of_civil (yoe m d : Z) : Z := year_start yoe + doy_of_md m d.

Definition civil_of_doe (doe : Z) : Z * Z * Z :=
  let yoe := yoe_of_doe doe in
  let '(m, d) := md_of_doy (doe - year_start yoe) in
  (yoe, m, d).

(** ** The conversions on all day numbers *)

(** The day number of the civil date [y-m-d]. *)
Definition days_from_civil (y m d : Z) : Z :=
  let y' := if m <=? 2 then y - 1 else y in
  let era := y' / 400 in
  era * 146097 + doe_of_civil (y' mod 400) m d - 719468.

(** The civil date of a day number. *)
Definition civil_from_days (z : Z) : Z * Z * Z :=
  let z' := z + 719468 in
  let era := z' / 146097 in
  let '(yoe, m, d) := civil_of_doe (z' mod 146097) in
  (yoe + era * 400 + (if m <=? 2 then 1 else 0), m, d).

(** ECMAScript's [YearFromTime], [MonthFromTime] (0-11) and
    [DateFromTime] (1-31), through [civil_from_days]. *)
Definition YearFromTime (t : Z) : Z := fst (fst (civil_from_days (Day t))).
Definition MonthFromTime (t : Z) : Z := snd (fst (civil_from_days (Day t))) - 1.
Definition DateFromTime (t : Z) : Z := snd (civil_from_days (Day t)).

(** [MakeDay] and [MakeDate] for whole days ([MakeTime] of midnight). *)
Definition MakeDay (y m0 d : Z) : Z := days_from_civil (y + m0 / 12) (m0 mod 12 + 1) 1 + d - 1.
Definition MakeDate (day time : Z) : Z := day * msPerDay + time.

(** The calendar day before [(y, m, d)]. *)
Definition prev_day (y m d : Z) : Z * Z * Z :=
  if 1 <? d then (y, m, d - 1)
  else if 1 <? m then (y, m - 1, days_in_month y (m - 1))
  else (y - 1, 12, 31).

(** ** Checking a property on a range by evaluation *)

Fixpoint check_range (f : Z -> bool) (start : Z) (n : nat) : bool :=
  match n with
  | O => true
  | S n' => f start && check_range f (start + 1) n'
  end.

Lemma check_range_sound (f : Z -> bool) (n : nat) (start : Z) :
  check_range f start n = true ->
  forall k, start <= k < start + Z.of_nat n -> f k = true.
Proof.
  revert start. induction n as [|n IH]; intros start H k Hk; simpl in *; [lia|].
  apply andb_true_iff in H as [H1 H2].
  destruct (Z.eq_dec k start) as [->|Hne]; [exact H1|].
  apply (IH (start + 1)); [exact H2|lia].
Qed.

(** ** Finite facts, checked by evaluation *)

Definition leap_len (lf : bool) : Z := if lf then 366 else 365.

(** The day after the last day of era-year [y]: 366 days after its
    start exactly when the civil year holding its February is leap. *)
Definition year_end (y : Z) : Z := year_start y + leap_len (leap_year (y + 1)).

(** Each era-year starts and ends where [yoe_of_doe] says, the next one
    starts where it ends, and the last one ends with the era. *)
Definition year_ok (y : Z) : bool :=
  (yoe_of_doe (year_start y) =? y) && (yoe_of_doe (year_end y - 1) =? y) &&
  (if y <? 399 then year_start (y + 1) =? year_end y else year_end y =? 146097).

(** Each day of an era-year decodes to a valid month and day that encode
    back to it; only the 366th day needs a leap year. *)
Definition doy_ok (doy : Z) : bool :=
  let '(m, d) := md_of_doy doy in
  (doy_of_md m d =? doy) && valid_md true m d && Bool.eqb (valid_md false m d) (doy <? 365).

(** Each valid month and day, coded by [k] in [0, 372), encodes to a day
    of the era-year that decodes back to it. *)
Definition md_ok (lf : bool) (k : Z) : bool :=
  let m := k / 31 + 1 in
  let d := k mod 31 + 1 in
  negb (valid_md lf m d) ||
  ((0 <=? doy_of_md m d) && (doy_of_md m d <? leap_len lf) &&
   (let '(m', d') := md_of_doy (doy_of_md m d) in (m' =? m) && (d' =? d))).

Lemma year_ok_all : check_range year_ok 0 400 = true.
Proof. vm_compute. reflexivity. Qed.

Lemma doy_ok_all : check_range doy_ok 0 366 = true.
Proof. vm_compute. reflexivity. Qed.

Lemma md_ok_all (lf : bool) : check_range (md_ok lf) 0 372 = true.
Proof. destruct lf; vm_compute; reflexivity. Qed.

(** ** Arithmetic of one era *)

Ltac zdiv := Z.to_euclidean_division_equations; lia.

Lemma year_start_mono (a b : Z) : a <= b -> year_start a <= year_start b.
Proof. unfold year_start. intros. zdiv. Qed.

Lemma yoe_of_doe_mono (a b : Z) : 0 <= a <= b -> yoe_of_doe a <= yoe_of_doe b.
Proof.
  intros Hab. unfold yoe_of_doe. apply Z.div_le_mono; [lia|].
  assert (Hg : forall n, 0 <= n -> forall x, 0 <= x ->
    x - x / 1460 + x / 36524 - x / 146096 <=
    (x + Z.of_nat 0 + n) - (x + n) / 1460 + (x + n) / 36524 - (x + n) / 146096).
  { intros n Hn. pattern n. apply natlike_ind; [intros; simpl; zdiv| |exact Hn].
    intros k Hk IH x Hx. specialize (IH x Hx).
    assert (Hs : (x + k) - (x + k) / 1460 + (x + k) / 36524 - (x + k) / 146096 <=
      (x + k + 1) - (x + k + 1) / 1460 + (x + k + 1) / 36524 - (x + k + 1) / 146096)
      by zdiv.
    replace (x + Z.succ k) with (x + k + 1) by lia. simpl in *. lia. }
  specialize (Hg (b - a) ltac:(lia) a ltac:(lia)).
  replace (a + Z.of_nat 0 + (b - a)) with b in Hg by (simpl; lia).
  replace (a + (b - a)) with b in Hg by lia. exact Hg.
Qed.

Lemma year_fact (y : Z) : 0 <= y < 400 ->
  yoe_of_doe (year_start y) = y /\ yoe_of_doe (year_end y - 1) = y /\
  (y < 399 -> year_start (y + 1) = year_end y) /\ (y = 399 -> year_end y = 146097).
Proof.
  intros Hy. pose proof (check_range_sound _ _ _ year_ok_all y ltac:(simpl; lia)) as H.
  unfold year_ok in H. rewrite !andb_true_iff, !Z.eqb_eq in H.
  destruct H as [[H1 H2] H3]. repeat split; auto; intros Hlt.
  - rewrite (proj2 (Z.ltb_lt y 399) Hlt), Z.eqb_eq in H3. exact H3.
  - rewrite Hlt. reflexivity.
Qed.

(** [yoe_of_doe] finds the era-year containing a day of the era. *)
Lemma yoe_of_doe_spec (doe : Z) : 0 <= doe < 146097 ->
  0 <= yoe_of_doe doe < 400 /\
  year_start (yoe_of_doe doe) <= doe < year_end (yoe_of_doe doe).
Proof.
  intros Hd. set (y := yoe_of_doe doe).
  assert (Hy : 0 <= y < 400).
  { pose proof (yoe_of_doe_mono 0 doe ltac:(lia)).
    pose proof (yoe_of_doe_mono doe 146096 ltac:(lia)).
    change (yoe_of_doe 0) with 0 in *. change (yoe_of_doe 146096) with 399 in *. lia. }
  split; [exact Hy|split].
  - destruct (Z.lt_ge_cases doe (year_start y)) as [Hlt|]; [exfalso|assumption].
    assert (Hy1 : 1 <= y) by (destruct (Z.eq_dec y 0) as [E|]; [rewrite E in Hlt; cbn in Hlt; lia|lia]).
    destruct (year_fact (y - 1) ltac:(lia)) as (_ & Hend & Hnext & _).
    replace (y - 1 + 1) with y in Hnext by lia.
    pose proof (yoe_of_doe_mono doe (year_end (y - 1) - 1) ltac:(rewrite <- Hnext by lia; lia)).
    lia.
  - destruct (Z.lt_ge_cases doe (year_end y)) as [|Hge]; [assumption|exfalso].
    destruct (year_fact y Hy) as (_ & _ & Hnext & Hlast).
    destruct (Z.eq_dec y 399) as [E|Hne]; [rewrite Hlast in Hge by exact E; lia|].
    destruct (year_fact (y + 1) ltac:(lia)) as (Hstart & _ & _ & _).
    rewrite <- Hnext in Hge by lia.
    pose proof (year_start_mono 0 (y + 1) ltac:(lia)).
    pose proof (yoe_of_doe_mono (year_start (y + 1)) doe ltac:(cbn in *; lia)). lia.
Qed.

Lemma doy_fact (doy : Z) : 0 <= doy < 366 ->
  doy_of_md (fst (md_of_doy doy)) (snd (md_of_doy doy)) = doy /\
  valid_md true (fst (md_of_doy doy)) (snd (md_of_doy doy)) = true /\
  valid_md false (fst (md_of_doy doy)) (snd (md_of_doy doy)) = (doy <? 365).
Proof.
  intros Hd. pose proof (check_range_sound _ _ _ doy_ok_all doy ltac:(simpl; lia)) as H.
  unfold doy_ok in H. destruct (md_of_doy doy) as [m d]. simpl.
  rewrite !andb_true_iff, Z.eqb_eq in H. destruct H as [[H1 H2] H3].
  apply Bool.eqb_prop in H3. auto.
Qed.

Lemma month_length_le_31 (lf : bool) (m : Z) : month_length lf m <= 31.
Proof. unfold month_length. repeat case_if; try destruct lf; lia. Qed.

Lemma md_fact (lf : bool) (m d : Z) : valid_md lf m d = true ->
  0 <= doy_of_md m d < leap_len lf /\ md_of_doy (doy_of_md m d) = (m, d).
Proof.
  intros Hv. pose proof (month_length_le_31 lf m) as H31.
  unfold valid_md in Hv. rewrite !andb_true_iff, !Z.leb_le in Hv.
  set (k := (m - 1) * 31 + (d - 1)).
  pose proof (check_range_sound _ _ _ (md_ok_all lf) k ltac:(simpl; unfold k; lia)) as H.
  unfold md_ok in H.
  replace (k / 31 + 1) with m in H by (unfold k; zdiv).
  replace (k mod 31 + 1) with d in H by (unfold k; zdiv).
  assert (Hv' : valid_md lf m d = true)
    by (unfold valid_md; rewrite !andb_true_iff, !Z.leb_le; lia).
  rewrite Hv' in H. cbn [negb orb] in H. destruct (md_of_doy (doy_of_md m d)) as [m' d'].
  rewrite !andb_true_iff, !Z.leb_le, !Z.ltb_lt, !Z.eqb_eq in H.
  destruct H as [[? ?] [-> ->]]. auto.
Qed.

(** Decoding a day of the era gives a valid date of the era that encodes
    back to it. *)
Lemma civil_of_doe_spec (doe : Z) : 0 <= doe < 146097 ->
  forall yoe m d, civil_of_doe doe = (yoe, m, d) ->
  0 <= yoe < 400 /\ valid_md (leap_year (yoe + 1)) m d = true /\ doe_of_civil yoe m d = doe.
Proof.
  intros Hd yoe m d Hc. unfold civil_of_doe in Hc.
  destruct (yoe_of_doe_spec doe Hd) as (Hy & Hlo & Hhi).
  assert (Hlen : doe - year_start (yoe_of_doe doe) < leap_len (leap_year (yoe_of_doe doe + 1)))
    by (unfold year_end in Hhi; lia).
  assert (Hlen' : leap_len (leap_year (yoe_of_doe doe + 1)) <= 366)
    by (unfold leap_len; case_if; lia).
  destruct (doy_fact (doe - year_start (yoe_of_doe doe)) ltac:(lia)) as (H1 & H2 & H3).
  destruct (md_of_doy (doe - year_start (yoe_of_doe doe))) as [m' d'] eqn:E.
  inv Hc. simpl in *. split; [exact Hy|split].
  - destruct (leap_year (yoe_of_doe doe + 1)); [exact H2|].
    rewrite H3. apply Z.ltb_lt. simpl in Hlen. lia.
  - unfold doe_of_civil. lia.
Qed.

(** Encoding a valid date of the era gives a day of the era that decodes
    back to it. *)
Lemma doe_of_civil_spec (yoe m d : Z) : 0 <= yoe < 400 ->
  valid_md (leap_year (yoe + 1)) m d = true ->
  0 <= doe_of_civil yoe m d < 146097 /\ civil_of_doe (doe_of_civil yoe m d) = (yoe, m, d).
Proof.
  intros Hy Hv. destruct (md_fact _ _ _ Hv) as (Hdoy & Hmd).
  destruct (year_fact yoe Hy) as (Hs & He & Hnext & Hlast).
  pose proof (year_start_mono 0 yoe ltac:(lia)) as H0.
  assert (Hend : year_end yoe <= 146097).
  { destruct (Z.eq_dec yoe 399) as [E|]; [rewrite Hlast; lia|].
    rewrite <- Hnext by lia.
    pose proof (year_start_mono (yoe + 1) 399 ltac:(lia)).
    destruct (year_fact 399 ltac:(lia)) as (_ & _ & _ & H399).
    specialize (H399 eq_refl). unfold year_end in H399 |- *.
    assert (0 <= leap_len (leap_year (399 + 1))) by (unfold leap_len; case_if; lia). lia. }
  unfold year_end in *. cbn in H0. unfold doe_of_civil.
  assert (Hyoe : yoe_of_doe (year_start yoe + doy_of_md m d) = yoe).
  { pose proof (yoe_of_doe_mono (year_start yoe) (year_start yoe + doy_of_md m d) ltac:(lia)).
    pose proof (yoe_of_doe_mono (year_start yoe + doy_of_md m d)
                  (year_start yoe + leap_len (leap_year (yoe + 1)) - 1) ltac:(lia)). lia. }
  split; [lia|]. unfold civil_of_doe. rewrite Hyoe.
  replace (year_start yoe + doy_of_md m d - year_start yoe) with (doy_of_md m d) by lia.
  now rewrite Hmd.
Qed.

(** ** Round trips on all day numbers *)

Lemma leap_year_shift (y k : Z) : leap_year (y + k * 400) = leap_year y.
Proof.
  unfold leap_year.
  replace ((y + k * 400) mod 4) with (y mod 4) by zdiv.
  replace ((y + k * 400) mod 100) with (y mod 100) by zdiv.
  replace ((y + k * 400) mod 400) with (y mod 400) by zdiv. reflexivity.
Qed.

Lemma month_length_not_feb (lf lf' : bool) (m : Z) :
  m <> 2 -> month_length lf m = month_length lf' m.
Proof. intros H. unfold month_length. apply Z.eqb_neq in H. now rewrite H. Qed.

(** A date of March-December belongs to the era-year of its civil year,
    a date of January-February to the era-year before. *)
Lemma valid_date_era (yoe k m d : Z) :
  valid_date (yoe + k * 400 + (if m <=? 2 then 1 else 0)) m d =
  valid_md (leap_year (yoe + 1)) m d.
Proof.
  unfold valid_date.
  replace (yoe + k * 400 + (if m <=? 2 then 1 else 0))
    with ((yoe + (if m <=? 2 then 1 else 0)) + k * 400) by lia.
  rewrite leap_year_shift. destruct (m <=? 2) eqn:E; [reflexivity|].
  unfold valid_md. rewrite (month_length_not_feb _ (leap_year (yoe + 1))) by lia.
  reflexivity.
Qed.

(** Round trip: every day number decodes to a valid date that
    encodes back to it. *)
Theorem civil_from_days_days_from_civil (z : Z) :
  let '(y, m, d) := civil_from_days z in
  valid_date y m d = true /\ days_from_civil y m d = z.
Proof.
  unfold civil_from_days.
  pose proof (Z.mod_pos_bound (z + 719468) 146097 ltac:(lia)) as Hb.
  destruct (civil_of_doe ((z + 719468) mod 146097)) as [[yoe m] d] eqn:E.
  destruct (civil_of_doe_spec _ Hb _ _ _ E) as (Hy & Hv & Hdoe).
  rewrite valid_date_era. split; [exact Hv|].
  unfold days_from_civil.
  replace (if m <=? 2 then yoe + (z + 719468) / 146097 * 400 + (if m <=? 2 then 1 else 0) - 1
           else yoe + (z + 719468) / 146097 * 400 + (if m <=? 2 then 1 else 0))
    with (yoe + (z + 719468) / 146097 * 400) by (destruct (m <=? 2); lia).
  replace ((yoe + (z + 719468) / 146097 * 400) / 400) with ((z + 719468) / 146097) by zdiv.
  replace ((yoe + (z + 719468) / 146097 * 400) mod 400) with yoe by zdiv.
  rewrite Hdoe. zdiv.
Qed.

(** Round trip: every valid date encodes to a day number that
    decodes back to it. *)
Theorem days_from_civil_civil_from_days (y m d : Z) :
  valid_date y m d = true -> civil_from_days (days_from_civil y m d) = (y, m, d).
Proof.
  intros Hv. unfold days_from_civil.
  set (y' := if m <=? 2 then y - 1 else y).
  assert (Hy : y = (y' mod 400) + y' / 400 * 400 + (if m <=? 2 then 1 else 0)).
  { pose proof (Z.div_mod y' 400 ltac:(lia)). unfold y' in *. destruct (m <=? 2); lia. }
  rewrite Hy, valid_date_era in Hv.
  pose proof (Z.mod_pos_bound y' 400 ltac:(lia)) as Hb.
  destruct (doe_of_civil_spec _ _ _ Hb Hv) as (Hd & Hc).
  unfold civil_from_days.
  replace (y' / 400 * 146097 + doe_of_civil (y' mod 400) m d - 719468 + 719468)
    with (doe_of_civil (y' mod 400) m d + y' / 400 * 146097) by lia.
  rewrite Z.div_add, (Z.div_small (doe_of_civil _ m d)), Z.mod_add,
    (Z.mod_small (doe_of_civil _ m d)) by lia.
  rewrite Hc. f_equal. f_equal. lia.
Qed.

(** ** Agreement with ECMAScript's definitions *)

Lemma days_from_civil_shift (y k m d : Z) :
  days_from_civil (y + k * 400) m d = days_from_civil y m d + k * 146097.
Proof.
  unfold days_from_civil.
  replace (if m <=? 2 then y + k * 400 - 1 else y + k * 400)
    with ((if m <=? 2 then y - 1 else y) + k * 400) by (destruct (m <=? 2); lia).
  rewrite Z.div_add, Z.mod_add by lia. lia.
Qed.

Lemma DayFromYear_shift (y k : Z) : DayFromYear (y + k * 400) = DayFromYear y + k * 146097.
Proof. unfold DayFromYear. zdiv. Qed.

Lemma days_from_civil_day (y m d : Z) :
  days_from_civil y m d = days_from_civil y m 1 + d - 1.
Proof. unfold days_from_civil, doe_of_civil, doy_of_md. lia. Qed.

(** Reduce a statement periodic in the year to the years 0-399. *)
Lemma year_decomp (y : Z) : y = y mod 400 + y / 400 * 400 /\ 0 <= y mod 400 < 400.
Proof. split; [pose proof (Z.div_mod y 400 ltac:(lia)); lia|apply Z.mod_pos_bound; lia]. Qed.

Lemma DayFromYear_era : check_range (fun y => DayFromYear y =? days_from_civil y 1 1) 0 400 = true.
Proof. vm_compute. reflexivity. Qed.

Lemma month_table_era :
  check_range (fun k => days_from_civil (k / 12) (k mod 12 + 1) 1 =?
                        days_from_civil (k / 12) 1 1 + cum_days (leap_year (k / 12)) (k mod 12 + 1))
    0 4800 = true.
Proof. vm_compute. reflexivity. Qed.

Lemma month_bound_all (lf : bool) :
  check_range (fun m => (0 <=? cum_days lf m) && (cum_days lf m + month_length lf m <=? leap_len lf))
    1 12 = true.
Proof. destruct lf; vm_compute; reflexivity. Qed.

(** Equivalence: the day number of January 1st computed by
    [days_from_civil] is ECMAScript's [DayFromYear]. *)
Theorem DayFromYear_days_from_civil (y : Z) : DayFromYear y = days_from_civil y 1 1.
Proof.
  destruct (year_decomp y) as [Hy Hb]. rewrite Hy, DayFromYear_shift, days_from_civil_shift.
  pose proof (check_range_sound _ _ _ DayFromYear_era (y mod 400) ltac:(simpl; lia)) as H.
  apply Z.eqb_eq in H. lia.
Qed.

(** The day number of a date is the day number of its year plus its day
    within the year given by ECMAScript's month table. *)
Lemma days_from_civil_month (y m d : Z) : 1 <= m <= 12 ->
  days_from_civil y m d = DayFromYear y + cum_days (leap_year y) m + d - 1.
Proof.
  intros Hm. rewrite days_from_civil_day, DayFromYear_days_from_civil.
  destruct (year_decomp y) as [Hy Hb].
  rewrite Hy, !days_from_civil_shift, leap_year_shift.
  pose proof (check_range_sound _ _ _ month_table_era (y mod 400 * 12 + (m - 1))
                ltac:(simpl; lia)) as H. cbv beta in H.
  replace ((y mod 400 * 12 + (m - 1)) / 12) with (y mod 400) in H by zdiv.
  replace ((y mod 400 * 12 + (m - 1)) mod 12 + 1) with m in H by zdiv.
  apply Z.eqb_eq in H. lia.
Qed.

Lemma DayFromYear_succ (y : Z) : DayFromYear (y + 1) = DayFromYear y + leap_len (leap_year y).
Proof.
  unfold DayFromYear.
  assert (H4 : (y + -492 * 4) / 4 - (y + -492 * 4 - 1) / 4 = if y mod 4 =? 0 then 1 else 0)
    by (destruct (Z.eqb_spec (y mod 4) 0); zdiv).
  assert (H100 : (y + -19 * 100) / 100 - (y + -19 * 100 - 1) / 100 =
                 if y mod 100 =? 0 then 1 else 0)
    by (destruct (Z.eqb_spec (y mod 100) 0); zdiv).
  assert (H400 : (y + -4 * 400) / 400 - (y + -4 * 400 - 1) / 400 =
                 if y mod 400 =? 0 then 1 else 0)
    by (destruct (Z.eqb_spec (y mod 400) 0); zdiv).
  replace (y + 1 - 1969) with (y + -492 * 4) by lia.
  replace (y + 1 - 1901) with (y + -19 * 100) by lia.
  replace (y + 1 - 1601) with (y + -4 * 400) by lia.
  replace (y - 1969) with (y + -492 * 4 - 1) by lia.
  replace (y - 1901) with (y + -19 * 100 - 1) by lia.
  replace (y - 1601) with (y + -4 * 400 - 1) by lia.
  assert (y mod 100 = 0 -> y mod 4 = 0) by zdiv.
  assert (y mod 400 = 0 -> y mod 100 = 0) by zdiv.
  unfold leap_len, leap_year.
  destruct (Z.eqb_spec (y mod 4) 0), (Z.eqb_spec (y mod 100) 0), (Z.eqb_spec (y mod 400) 0);
    cbn [andb orb negb] in *; lia.
Qed.

Lemma day_within_year_bound (lf : bool) (m d : Z) : valid_md lf m d = true ->
  0 <= cum_days lf m + d - 1 < leap_len lf.
Proof.
  unfold valid_md. rewrite !andb_true_iff, !Z.leb_le. intros Hv.
  pose proof (check_range_sound _ _ _ (month_bound_all lf) m ltac:(simpl; lia)) as H.
  cbv beta in H. rewrite andb_true_iff, !Z.leb_le in H. lia.
Qed.

(** ECMAScript's [YearFromTime t] is the year [y] with
    [DayFromYear y <= Day t < DayFromYear (y + 1)]; the month and date
    are those of ECMAScript's month table. *)
Theorem YearFromTime_spec (t : Z) :
  DayFromYear (YearFromTime t) <= Day t < DayFromYear (YearFromTime t + 1) /\
  valid_date (YearFromTime t) (MonthFromTime t + 1) (DateFromTime t) = true /\
  Day t = DayFromYear (YearFromTime t)
          + cum_days (leap_year (YearFromTime t)) (MonthFromTime t + 1) + DateFromTime t - 1.
Proof.
  unfold YearFromTime, MonthFromTime, DateFromTime.
  pose proof (civil_from_days_days_from_civil (Day t)) as H.
  destruct (civil_from_days (Day t)) as [[y m] d]. simpl. destruct H as [Hv Hz].
  replace (m - 1 + 1) with m by lia.
  assert (Hm : 1 <= m <= 12)
    by (unfold valid_date, valid_md in Hv; rewrite !andb_true_iff, !Z.leb_le in Hv; lia).
  rewrite days_from_civil_month in Hz by exact Hm.
  pose proof (day_within_year_bound _ _ _ Hv). rewrite DayFromYear_succ.
  split; [lia|split; [exact Hv|lia]].
Qed.

(** ** The day before *)

Lemma cum_days_succ (lf : bool) (m : Z) : 2 <= m <= 12 ->
  cum_days lf m = cum_days lf (m - 1) + month_length lf (m - 1).
Proof.
  intros Hm.
  assert (m = 2 \/ m = 3 \/ m = 4 \/ m = 5 \/ m = 6 \/ m = 7 \/ m = 8 \/ m = 9 \/ m = 10 \/ m = 11 \/ m = 12)
    as Hc by lia.
  destruct lf; repeat destruct Hc as [->|Hc]; try reflexivity; subst; reflexivity.
Qed.

Lemma month_length_ge_28 (lf : bool) (m : Z) : 28 <= month_length lf m.
Proof. unfold month_length. destruct (m =? 2), lf, ((m =? 4) || (m =? 6) || (m =? 9) || (m =? 11)); lia. Qed.

(** [prev_day] is a valid date, one day number before. *)
Theorem prev_day_spec (y m d : Z) : valid_date y m d = true ->
  let '(y', m', d') := prev_day y m d in
  valid_date y' m' d' = true /\ days_from_civil y' m' d' = days_from_civil y m d - 1.
Proof.
  intros Hv. pose proof Hv as Hr. unfold valid_date, valid_md in Hr. rewrite !andb_true_iff, !Z.leb_le in Hr.
  unfold prev_day. destruct (Z.ltb_spec 1 d).
  - split; [unfold valid_date, valid_md; rewrite !andb_true_iff, !Z.leb_le; lia|].
    rewrite (days_from_civil_day y m (d - 1)), (days_from_civil_day y m d). lia.
  - destruct (Z.ltb_spec 1 m).
    + pose proof (month_length_ge_28 (leap_year y) (m - 1)). unfold days_in_month.
      split; [unfold valid_date, valid_md; rewrite !andb_true_iff, !Z.leb_le; lia|].
      rewrite !days_from_civil_month by lia. rewrite (cum_days_succ _ m) by lia. lia.
    + assert (m = 1 /\ d = 1) as [-> ->] by lia.
      split; [unfold valid_date, valid_md, month_length; destruct (leap_year (y - 1)); reflexivity|].
      rewrite !days_from_civil_month by lia.
      pose proof (DayFromYear_succ (y - 1)) as Hs. replace (y - 1 + 1) with y in Hs by lia.
      unfold leap_len in Hs.
      assert (H12 : forall lf, cum_days lf 12 = 334 + (if lf then 1 else 0)) by (destruct lf; reflexivity).
      rewrite H12. destruct (leap_year (y - 1)), (leap_year y); cbn in *; lia.
Qed.

Lemma prev_day_year (y m d : Z) : let '(y', _, _) := prev_day y m d in y - 1 <= y' <= y.
Proof. unfold prev_day. destruct (1 <? d), (1 <? m); lia. Qed.

(** The day number [D] at a negative offset of less than a day falls on
    day [D - 1]. *)
Lemma Day_before (D tz : Z) : - msPerDay < tz < 0 -> Day (D * msPerDay + tz) = D - 1.
Proof.
  intros Htz. unfold Day. symmetry. apply (Z.div_unique _ _ _ (tz + msPerDay)); unfold msPerDay in *; lia.
Qed.

(** The year of the day before: the year before exactly on January 1st. *)
Lemma prev_day_fst (y m d : Z) : 1 <= m -> 1 <= d ->
  fst (fst (prev_day y m d)) = if (m =? 1) && (d =? 1) then y - 1 else y.
Proof.
  intros Hm Hd. unfold prev_day.
  destruct (Z.ltb_spec 1 d), (Z.ltb_spec 1 m), (Z.eqb_spec m 1), (Z.eqb_spec d 1); cbn; lia.
Qed.
