(* ===== verification/JsDate.v ===== *)
(** * JsDate: [new Date(..)] and the local-calendar getters

    [src/.eleventy.js] reads every date as [new Date(x)] and then
    [getFullYear()] (lines 26, 87, 95, 126), [getMonth()] (line 88),
    [getDate()] (lines 89, 100), or subtracts two dates (lines 16, 35,
    56).  This file models:
    - a time value (milliseconds since 1970-01-01 UTC, or NaN) as
      [option Z] and [TimeClip];
    - the host: the local time zone offset [local_tza] (ECMAScript's
      [LocalTZA(t, true)]), the engine's fallback parser for strings that
      are not in the date-only ISO format, and the clock, as the class
      [JsHost];
    - [new Date(v)] for the values a content item's front matter can hold;
    - ECMAScript's date-only ISO format [YYYY], [YYYY-MM], [YYYY-MM-DD],
      which is read as UTC midnight, a day past the month's end carried
      into the next month ("2024-02-30" is March 1st, as in V8);
    - the getters, on [LocalTime t = t + LocalTZA t];
    - [Number::toString] on the integers and NaN the getters return. *)

From Stdlib Require Import Ascii DecimalString.
From S2P Require Import Prelude Calendar.
Open Scope Z_scope.

(** ** Time values *)

(** A time value; [None] is NaN. *)
Definition time_value := option Z.

Definition maxTime : Z := 8640000000000000.

(** [TimeClip] on an integral number of milliseconds. *)
Definition TimeClip (t : Z) : time_value :=
  if Z.abs t <=? maxTime then Some t else None.

(** ** The host *)

Class JsHost := {
  (** [LocalTZA(t, true)]: the offset, in ms, of local time from UTC at
      the UTC instant [t]. *)
  local_tza : Z -> Z;
  (** The engine's parser for strings outside the ISO format. *)
  fallback_parse : string -> time_value;
  (** The longest string the engine builds (V8: 2^29 - 24 code units);
      a longer one throws a [RangeError]. *)
  max_string_length : Z;
  (** [Date.now()]. *)
  host_now : Z
}.

(** A host in UTC whose fallback parser rejects every string. *)
#[export] Instance utc_host : JsHost :=
  {| local_tza := fun _ => 0; fallback_parse := fun _ => None; max_string_length := 536870888;
     host_now := 1735689600000 |}.

(** A host five hours west of UTC (US Eastern standard time). *)
Definition eastern_host : JsHost :=
  {| local_tza := fun _ => -18000000; fallback_parse := fun _ => None;
     max_string_length := 536870888; host_now := 1735689600000 |}.

Section WithHost.
Context `{H : JsHost}.

Definition LocalTime (t : Z) : Z := t + local_tza t.

(** ** The values a [date] field can hold

    js-yaml turns an unquoted YAML date ([date: 2024-01-05]) into a
    [Date] at UTC midnight; a quoted one stays a string; an empty field
    is [null]; a missing one is [undefined]. *)
Inductive date_input :=
| DateObject (tv : time_value)
| DateString (s : string)
| DateNumber (ms : Z)
| DateNull
| DateUndefined.

(** ** ECMAScript's date-only string format *)

Definition digit (c : ascii) : option Z :=
  let n := Z.of_nat (nat_of_ascii c) in
  if (48 <=? n) && (n <=? 57) then Some (n - 48) else None.

(** Reads exactly [n] decimal digits at the front of [s]. *)
Fixpoint fixed_digits (n : nat) (acc : Z) (s : string) : option (Z * string) :=
  match n, s with
  | O, _ => Some (acc, s)
  | S n', String c s' =>
      match digit c with
      | Some v => fixed_digits n' (acc * 10 + v) s'
      | None => None
      end
  | S _, EmptyString => None
  end.

Inductive parse_outcome :=
| Conforming (tv : time_value)
| NotConforming.

(** A date-only form is UTC midnight (ECMA-262 21.4.1.32): [MM] is 01 to
    12 and [DD] 01 to 31, whatever the month, and [MakeDay] carries a day
    past the month's end into the next month ("2024-02-30" is March 1st,
    as V8 does).  A month or day out of these bounds makes the string not
    an instance of the format, and [Date.parse] falls back to the
    engine's own parser. *)
Definition make_utc_date (y m d : Z) : parse_outcome :=
  if (1 <=? m) && (m <=? 12) && (1 <=? d) && (d <=? 31)
  then Conforming (TimeClip (MakeDate (MakeDay y (m - 1) d) 0))
  else NotConforming.

Definition parse_date_only (s : string) : parse_outcome :=
  match fixed_digits 4 0 s with
  | Some (y, EmptyString) => make_utc_date y 1 1
  | Some (y, String "-" r) =>
      match fixed_digits 2 0 r with
      | Some (m, EmptyString) => make_utc_date y m 1
      | Some (m, String "-" r') =>
          match fixed_digits 2 0 r' with
          | Some (d, EmptyString) => make_utc_date y m d
          | _ => NotConforming
          end
      | _ => NotConforming
      end
  | _ => NotConforming
  end.

(** [Date.parse]: the ISO date-only forms, else the engine's parser. *)
Definition date_parse (s : string) : time_value :=
  match parse_date_only s with
  | Conforming tv => tv
  | NotConforming => fallback_parse s
  end.

(** [new Date(v)] with one argument (ECMA-262 21.4.2.1): a [Date] is
    copied, a string parsed, anything else converted by [ToNumber]
    ([null] is 0, [undefined] is NaN) and clipped. *)
Definition new_Date (v : date_input) : time_value :=
  match v with
  | DateObject tv => tv
  | DateString s => match date_parse s with Some t => TimeClip t | None => None end
  | DateNumber ms => TimeClip ms
  | DateNull => TimeClip 0
  | DateUndefined => None
  end.

(** ** Getters (ECMA-262 21.4.4): NaN gives NaN *)

Definition getFullYear (tv : time_value) : option Z :=
  option_map (fun t => YearFromTime (LocalTime t)) tv.

(** [getMonth()] is 0-11. *)
Definition Date_getMonth (tv : time_value) : option Z :=
  option_map (fun t => MonthFromTime (LocalTime t)) tv.

Definition getDate (tv : time_value) : option Z :=
  option_map (fun t => DateFromTime (LocalTime t)) tv.
End WithHost.

(** ** Numbers as strings *)

(** [Number::toString] of an integer-valued number or NaN; the decimal
    form is exact below 10^21, far above any year a time value has. *)
Definition number_to_string (n : option Z) : string :=
  match n with
  | Some z => NilZero.string_of_int (Z.to_int z)
  | None => "NaN"%string
  end.

(** ** Lemmas *)

Lemma TimeClip_id (t : Z) : Z.abs t <= maxTime -> TimeClip t = Some t.
Proof. intros H. unfold TimeClip. now rewrite (proj2 (Z.leb_le _ _) H). Qed.
