(* ===== verification/JsObject.v ===== *)
(** * JsObject: the plain objects [byYear] and [byPlace]

    [visitsByYear] and [visitsByPlace] ([src/.eleventy.js] lines 23-38 and
    44-59) build a plain object [{}] with

      [if (!byKey[k]) { byKey[k] = []; } byKey[k].push(visit);]

    then sort the array of every key of [Object.keys(byKey)].  This file
    models:
    - an ordinary object's own properties in creation order ([props]);
    - property lookup through [Object.prototype], whose inherited names
      ([constructor], [toString], [__proto__], ...) are truthy values
      without a [push] method: reading [byKey["constructor"].push] and
      calling it throws a [TypeError];
    - the grouping step [group_push] and the loop [group_by];
    - [Object.keys]: array-index keys in ascending numeric order, then the
      other string keys in creation order (ECMA-262
      OrdinaryOwnPropertyKeys);
    - the loop [Object.keys(o).forEach(k => o[k].sort(cmp))]. *)

From Stdlib Require Import Ascii.
From S2P Require Import Prelude JsSort.

(** The own properties of an ordinary object, in creation order. *)
Definition props (V : Type) := list (string * V).

(** The properties of [Object.prototype] (ECMA-262 20.1.3 and Annex B). *)
Definition object_prototype_names : list string :=
  ["constructor"; "hasOwnProperty"; "isPrototypeOf"; "propertyIsEnumerable";
   "toLocaleString"; "toString"; "valueOf"; "__proto__";
   "__defineGetter__"; "__defineSetter__"; "__lookupGetter__"; "__lookupSetter__"]%string.

Definition inherited (k : string) : bool := existsb (String.eqb k) object_prototype_names.

Section Props.
Context {V : Type}.

Fixpoint own_get (k : string) (o : props V) : option V :=
  match o with
  | [] => None
  | (k', v) :: o' => if String.eqb k k' then Some v else own_get k o'
  end.

(** [o[k] = v]: an existing own property keeps its place, a new one is
    created last. *)
Fixpoint own_set (k : string) (v : V) (o : props V) : props V :=
  match o with
  | [] => [(k, v)]
  | (k', v') :: o' => if String.eqb k k' then (k', v) :: o' else (k', v') :: own_set k v o'
  end.

(** The result of reading [o[k]]. *)
Inductive lookup :=
| Own (v : V)
| Inherited
| Missing.

Definition obj_get (k : string) (o : props V) : lookup :=
  match own_get k o with
  | Some v => Own v
  | None => if inherited k then Inherited else Missing
  end.
End Props.

Arguments lookup V : clear implicits.

Section Grouping.
Context {A : Type}.

(** [if (!o[k]) { o[k] = []; } o[k].push(x);]  An array is truthy; an
    inherited member is truthy and has no [push]. *)
Definition group_push (k : string) (x : A) (o : props (list A)) : js_result (props (list A)) :=
  match obj_get k o with
  | Own arr => Ok (own_set k (arr ++ [x]) o)
  | Inherited => Throw (TypeError "o[k].push is not a function")
  | Missing => Ok (own_set k [x] o)
  end.

(** [xs.forEach(x => { ...group_push (key x) x... })] *)
Fixpoint group_by (key : A -> string) (xs : list A) (o : props (list A))
  : js_result (props (list A)) :=
  match xs with
  | [] => Ok o
  | x :: xs' => js_bind (group_push (key x) x o) (group_by key xs')
  end.
End Grouping.

(** ** [Object.keys] *)

Definition digit_value (c : ascii) : option Z :=
  let n := Z.of_nat (nat_of_ascii c) in
  if (48 <=? n)%Z && (n <=? 57)%Z then Some (n - 48)%Z else None.

Fixpoint decimal_value (acc : Z) (s : string) : option Z :=
  match s with
  | EmptyString => Some acc
  | String c s' =>
      match digit_value c with
      | Some d => decimal_value (acc * 10 + d)%Z s'
      | None => None
      end
  end.

(** An array index: the canonical decimal form of an integer below
    [2^32 - 1] ("0", or digits without a leading zero). *)
Definition array_index (s : string) : option Z :=
  match s with
  | String "0" EmptyString => Some 0%Z
  | String "0" _ => None
  | EmptyString => None
  | _ => match decimal_value 0 s with
         | Some n => if (n <? 4294967295)%Z then Some n else None
         | None => None
         end
  end.

Definition is_array_index (s : string) : bool :=
  match array_index s with Some _ => true | None => false end.

Definition index_compare (a b : string) : comparison :=
  match array_index a, array_index b with
  | Some x, Some y => Z.compare x y
  | _, _ => Eq
  end.

(** [Object.keys(o)]. *)
Definition own_keys {V} (o : props V) : list string :=
  let ks := map fst o in
  sort index_compare (filter is_array_index ks) ++ filter (fun k => negb (is_array_index k)) ks.

(** [Object.keys(o).forEach(k => { o[k].sort(cmp); })] *)
Definition sort_each {A} (cmp : A -> A -> comparison) (o : props (list A)) : props (list A) :=
  fold_left (fun o' k =>
               match own_get k o' with
               | Some arr => own_set k (sort cmp arr) o'
               | None => o'
               end) (own_keys o) o.

(** ** Lemmas *)

Section PropsFacts.
Context {V : Type}.

Lemma own_get_set_eq (k : string) (v : V) (o : props V) : own_get k (own_set k v o) = Some v.
Proof.
  induction o as [|[k' v'] o IH]; simpl; [now rewrite String.eqb_refl|].
  destruct (String.eqb_spec k k'); simpl; [subst; now rewrite String.eqb_refl|].
  apply String.eqb_neq in n. now rewrite n.
Qed.

Lemma own_get_set_ne (k j : string) (v : V) (o : props V) :
  k <> j -> own_get j (own_set k v o) = own_get j o.
Proof.
  intros Hne. induction o as [|[k' v'] o IH]; simpl.
  - apply String.eqb_neq in Hne. rewrite String.eqb_sym, Hne. reflexivity.
  - destruct (String.eqb_spec k k'); simpl; [subst|].
    + apply String.eqb_neq in Hne. rewrite String.eqb_sym, Hne. reflexivity.
    + now rewrite IH.
Qed.

Lemma own_get_None_keys (k : string) (o : props V) : own_get k o = None <-> ~ In k (map fst o).
Proof.
  induction o as [|[k' v'] o IH]; simpl; [tauto|].
  destruct (String.eqb_spec k k'); [subst; split; [discriminate|tauto]|].
  rewrite IH. intuition congruence.
Qed.

Lemma own_get_Some_in (k : string) (v : V) (o : props V) :
  own_get k o = Some v -> In k (map fst o).
Proof.
  intros H. destruct (in_dec string_dec k (map fst o)) as [|Hn]; [assumption|].
  apply own_get_None_keys in Hn. congruence.
Qed.

(** Setting an own property keeps the key list when the key exists and
    appends the key otherwise. *)
Lemma own_set_keys (k : string) (v : V) (o : props V) :
  map fst (own_set k v o) = if existsb (String.eqb k) (map fst o) then map fst o
                            else map fst o ++ [k].
Proof.
  induction o as [|[k' v'] o IH]; simpl; [reflexivity|].
  destruct (String.eqb_spec k k'); simpl; [now subst|]. rewrite IH.
  destruct (existsb (String.eqb k) (map fst o)); reflexivity.
Qed.

Lemma own_set_NoDup (k : string) (v : V) (o : props V) :
  NoDup (map fst o) -> NoDup (map fst (own_set k v o)).
Proof.
  intros Hnd. rewrite own_set_keys.
  destruct (existsb (String.eqb k) (map fst o)) eqn:E; [exact Hnd|].
  apply NoDup_app; [exact Hnd|repeat constructor; simpl; tauto|].
  intros x Hx [<-|[]].
  assert (existsb (String.eqb k) (map fst o) = true)
    by (apply existsb_exists; exists k; split; [exact Hx|apply String.eqb_refl]).
  congruence.
Qed.
End PropsFacts.

Section GroupFacts.
Context {A : Type} (key : A -> string).

Lemma own_set_new {V} (k : string) (v : V) (o : props V) :
  own_get k o = None -> own_set k v o = o ++ [(k, v)].
Proof.
  induction o as [|[k' v'] o IH]; simpl; [reflexivity|].
  destruct (String.eqb k k'); [discriminate|]. intros H. now rewrite IH.
Qed.

Lemma own_set_push_perm (k : string) (arr : list A) (x : A) (o : props (list A)) :
  own_get k o = Some arr ->
  Permutation (List.concat (map snd (own_set k (arr ++ [x]) o))) (List.concat (map snd o) ++ [x]).
Proof.
  induction o as [|[k' v'] o IH]; simpl; [discriminate|].
  destruct (String.eqb k k'); intros H.
  - inv H. simpl. rewrite <- !app_assoc. apply Permutation_app_head, Permutation_app_comm.
  - simpl. rewrite <- app_assoc. apply Permutation_app_head, IH, H.
Qed.

(** What [group_by] leaves under a key: the old group extended by the
    new elements of that key, in their order. *)
Definition merge_group (old : option (list A)) (l : list A) : option (list A) :=
  match old, l with
  | None, [] => None
  | None, _ => Some l
  | Some a, _ => Some (a ++ l)
  end.

Definition has_key (k : string) (x : A) : bool := String.eqb (key x) k.

Definition no_inherited_keys {V} (o : props V) : Prop :=
  forall k, In k (map fst o) -> inherited k = false.

Lemma group_push_ok (x : A) (o : props (list A)) :
  inherited (key x) = false -> no_inherited_keys o ->
  exists o', group_push (key x) x o = Ok o' /\ no_inherited_keys o' /\
    (forall k, own_get k o' = merge_group (own_get k o) (filter (has_key k) [x])) /\
    (NoDup (map fst o) -> NoDup (map fst o')) /\
    Permutation (List.concat (map snd o')) (List.concat (map snd o) ++ [x]).
Proof.
  intros Hx Ho. unfold group_push, obj_get.
  destruct (own_get (key x) o) as [arr|] eqn:E; [|rewrite Hx];
    (eexists; split; [reflexivity|]).
  all: split; [intros k Hk; rewrite own_set_keys in Hk;
               destruct existsb; [|apply in_app_or in Hk as [Hk|[<-|[]]]]; auto|].
  all: split; [intros k; unfold has_key; simpl;
               destruct (String.eqb_spec (key x) k) as [<-|Hne];
               [rewrite own_get_set_eq, E; reflexivity
               |rewrite own_get_set_ne by exact Hne;
                destruct (own_get k o); simpl; rewrite ?app_nil_r; reflexivity]|].
  all: split; [apply own_set_NoDup|].
  - now apply own_set_push_perm.
  - rewrite own_set_new by exact E. rewrite map_app, List.concat_app. simpl. now rewrite ?app_nil_r.
Qed.

Lemma merge_group_app (old : option (list A)) (l1 l2 : list A) :
  merge_group (merge_group old l1) l2 = merge_group old (l1 ++ l2).
Proof. destruct old, l1, l2; simpl; rewrite ?app_nil_r, <- ?app_assoc; reflexivity. Qed.

(** Grouping without an inherited key succeeds; each key holds the
    elements with that key, in input order; no element is lost or
    duplicated; keys stay distinct. *)
Lemma group_by_ok (xs : list A) (o : props (list A)) :
  (forall x, In x xs -> inherited (key x) = false) -> no_inherited_keys o ->
  exists o', group_by key xs o = Ok o' /\ no_inherited_keys o' /\
    (forall k, own_get k o' = merge_group (own_get k o) (filter (has_key k) xs)) /\
    (NoDup (map fst o) -> NoDup (map fst o')) /\
    Permutation (List.concat (map snd o')) (List.concat (map snd o) ++ xs).
Proof.
  revert o. induction xs as [|x xs IH]; intros o Hxs Ho.
  - exists o. simpl. repeat split; auto; [intros k; destruct (own_get k o); simpl; rewrite ?app_nil_r; reflexivity|now rewrite app_nil_r].
  - destruct (group_push_ok x o (Hxs x (or_introl eq_refl)) Ho) as (o1 & E1 & Ho1 & Hg1 & Hn1 & Hp1).
    destruct (IH o1 (fun y Hy => Hxs y (or_intror Hy)) Ho1) as (o2 & E2 & Ho2 & Hg2 & Hn2 & Hp2).
    exists o2. simpl. rewrite E1. simpl. repeat split; auto.
    + intros k. rewrite Hg2, Hg1, merge_group_app. simpl. now destruct (has_key k x).
    + rewrite Hp2. change (x :: xs) with ([x] ++ xs). rewrite app_assoc.
      now apply Permutation_app_tail.
Qed.

(** The grouping loop throws exactly when some element's key is a
    member of [Object.prototype]. *)
Lemma group_by_throws (xs : list A) (o : props (list A)) :
  no_inherited_keys o ->
  (exists e, group_by key xs o = Throw e) <-> exists x, In x xs /\ inherited (key x) = true.
Proof.
  revert o. induction xs as [|x xs IH]; intros o Ho; simpl.
  - split; [intros [e H]; discriminate|intros (x & [] & _)].
  - destruct (inherited (key x)) eqn:Hx.
    + unfold group_push, obj_get.
      destruct (own_get (key x) o) eqn:E.
      * exfalso. apply own_get_Some_in, Ho in E. congruence.
      * rewrite Hx. simpl. split; [intros _; eauto|intros _; eexists; reflexivity].
    + destruct (group_push_ok x o Hx Ho) as (o1 & E1 & Ho1 & _).
      rewrite E1. simpl. rewrite (IH o1 Ho1).
      split; intros (y & Hy & Hi); [eauto|destruct Hy as [<-|Hy]; [congruence|eauto]].
Qed.
End GroupFacts.

Section SortEachFacts.
Context {A : Type} (cmp : A -> A -> comparison).

Lemma own_keys_perm {V} (o : props V) : Permutation (own_keys o) (map fst o).
Proof.
  unfold own_keys. symmetry.
  eapply Permutation_trans; [apply (Permutation_filter_split is_array_index)|].
  apply Permutation_app_tail, sort_perm.
Qed.

Definition sort_step (o : props (list A)) (k : string) : props (list A) :=
  match own_get k o with
  | Some arr => own_set k (sort cmp arr) o
  | None => o
  end.

Definition sort_if (p : string -> bool) (kv : string * list A) : string * list A :=
  if p (fst kv) then (fst kv, sort cmp (snd kv)) else kv.

Lemma sort_step_map (k : string) (o : props (list A)) :
  NoDup (map fst o) -> sort_step o k = map (sort_if (String.eqb k)) o.
Proof.
  unfold sort_step. induction o as [|[k' v] o IH]; intros Hnd; simpl; [reflexivity|].
  inv Hnd. unfold sort_if at 1. simpl.
  assert (Hrest : ~ In k (map fst o) -> map (sort_if (String.eqb k)) o = o).
  { intros Hk. clear -Hk. induction o as [|[k'' w] o IHo]; simpl; [reflexivity|].
    unfold sort_if at 1. simpl. destruct (String.eqb_spec k k''); [subst; simpl in Hk; tauto|].
    simpl in Hk. rewrite IHo; tauto. }
  destruct (String.eqb_spec k k') as [<-|Hne].
  - rewrite Hrest by exact H1. reflexivity.
  - rewrite <- IH by exact H2. now destruct (own_get k o).
Qed.

Lemma sort_if_keys (p : string -> bool) (o : props (list A)) :
  map fst (map (sort_if p) o) = map fst o.
Proof. induction o as [|[k v] o IH]; simpl; [reflexivity|]. unfold sort_if at 1. simpl.
  destruct (p k); simpl; now rewrite IH. Qed.

Lemma fold_sort_step (ks : list string) (o : props (list A)) :
  NoDup ks -> NoDup (map fst o) ->
  fold_left sort_step ks o = map (sort_if (fun k => existsb (String.eqb k) ks)) o.
Proof.
  revert o. induction ks as [|k ks IH]; intros o Hks Hnd; simpl.
  - induction o as [|[k v] o IHo]; simpl; [reflexivity|]. inv Hnd. now rewrite <- IHo.
  - inv Hks. rewrite sort_step_map by exact Hnd.
    rewrite IH by (rewrite ?sort_if_keys; assumption).
    rewrite map_map. apply map_ext. intros [k' v]. unfold sort_if. simpl.
    destruct (String.eqb_spec k' k) as [->|Hne]; simpl.
    + rewrite String.eqb_refl. simpl.
      destruct (existsb (String.eqb k) ks) eqn:E; [|reflexivity].
      exfalso. apply existsb_exists in E as (j & Hj & Ej). apply String.eqb_eq in Ej.
      subst. contradiction.
    + rewrite (String.eqb_sym k k'). apply String.eqb_neq in Hne. rewrite Hne. reflexivity.
Qed.

(** The loop over [Object.keys] sorts every group once. *)
Lemma sort_each_map (o : props (list A)) :
  NoDup (map fst o) -> sort_each cmp o = map (fun kv => (fst kv, sort cmp (snd kv))) o.
Proof.
  intros Hnd. unfold sort_each. fold (sort_step).
  rewrite fold_sort_step by (try (eapply Permutation_NoDup; [symmetry; apply own_keys_perm|]); assumption).
  apply map_ext_in. intros [k v] Hin. unfold sort_if. simpl.
  replace (existsb (String.eqb k) (own_keys o)) with true; [reflexivity|].
  symmetry. apply existsb_exists. exists k. split; [|apply String.eqb_refl].
  eapply Permutation_in; [symmetry; apply own_keys_perm|]. apply in_map_iff. now exists (k, v).
Qed.
End SortEachFacts.

Lemma own_get_map_values {V W} (f : V -> W) (k : string) (o : props V) :
  own_get k (map (fun kv => (fst kv, f (snd kv))) o) = option_map f (own_get k o).
Proof.
  induction o as [|[k' v] o IH]; simpl; [reflexivity|]. now destruct (String.eqb k k').
Qed.

(** The names of [Object.prototype] start with a lower-case letter or an
    underscore (character codes from 95 up). *)
Lemma inherited_first_char (s : string) :
  inherited s = true -> exists c r, s = String c r /\ (95 <= nat_of_ascii c)%nat.
Proof.
  unfold inherited. intros H. apply existsb_exists in H as (n & Hn & E).
  apply String.eqb_eq in E. subst. simpl in Hn.
  repeat destruct Hn as [<-|Hn]; try (eexists _, _; split; [reflexivity|apply Nat.leb_le; reflexivity]);
    contradiction.
Qed.

(** A property added last under a name the object lacks: the other names
    keep their values, and a name that is not an array index comes last in
    [Object.keys]. *)
Lemma own_get_app_new {V} (k k' : string) (v : V) (o : props V) :
  own_get k' (o ++ [(k, v)]) =
  match own_get k' o with Some x => Some x | None => if String.eqb k' k then Some v else None end.
Proof.
  induction o as [|[k0 v0] o IH]; simpl; [reflexivity|]. now destruct (String.eqb k' k0).
Qed.

Lemma own_keys_app_plain {V} (k : string) (v : V) (o : props V) :
  is_array_index k = false -> own_keys (o ++ [(k, v)]) = own_keys o ++ [k].
Proof.
  intros Hk. unfold own_keys. rewrite map_app, !filter_app. simpl. rewrite Hk. simpl.
  rewrite app_nil_r, app_assoc. reflexivity.
Qed.
