(* ===== verification/Content.v ===== *)
(** * Content: the Record Source as the code sees it

    Eleventy hands the configuration of [src/.eleventy.js] a
    [collectionApi]; [collectionApi.getFilteredByGlob(glob)] (lines 8,
    15, 22, 43) returns the content items whose input path matches the
    glob, in Eleventy's own order (by date, then input path), which the
    development takes as given.  An item exposes [item.data], the front
    matter of its Markdown file.  This file models:
    - the JavaScript values a front-matter field can hold ([js_value]),
      numbers being binary64 ([spec_float] of the Standard Library, with
      precision 53 and maximal exponent 1024);
    - an item and the fields the code reads: [title], [slug], [date],
      [place], [ratings], [location.city];
    - [getFilteredByGlob] for globs of the form [dir/*.md]. *)

From Stdlib Require Import Ascii SpecFloat.
From S2P Require Import Prelude JsDate.

(** ** JavaScript values *)

(** A JavaScript number: IEEE 754 binary64. *)
Definition js_number := spec_float.
Definition prec : Z := 53.
Definition emax : Z := 1024.

#[local] Set Warnings "-register-all".

(** The values YAML front matter produces. *)
Inductive js_value :=
| JUndefined
| JNull
| JBool (b : bool)
| JNumber (n : js_number)
| JString (s : string)
| JArray (elems : list js_value)
| JObject (fields : list (string * js_value)).

(** ** Content items *)

Record place_location := { city : option string }.

(** The front matter fields read by the code.  A place has a [title]
    (the Record Source contract, spec section 6), a [slug] and an
    optional [location]; a visit has a [date], a [place] slug and
    [ratings]. *)
Record item_data := {
  title : string;
  slug : option string;
  date : date_input;
  place : option string;
  ratings : js_value;
  location : option place_location
}.

Record item := {
  inputPath : string;
  data : item_data
}.

(** The collection API: every item, in Eleventy's order. *)
Record collection_api := { all_sorted : list item }.

(** ** Glob matching *)

Fixpoint string_has (c : ascii) (s : string) : bool :=
  match s with
  | EmptyString => false
  | String c' s' => Ascii.eqb c c' || string_has c s'
  end.

Definition ends_with (suffix s : string) : bool :=
  let n := String.length s in
  let m := String.length suffix in
  (m <=? n)%nat && String.eqb (substring (n - m) m s) suffix.

(** [dir/*.md] against an input path [./dir/name]: [*] matches a name
    without [/] that does not start with a dot. *)
Definition glob_dir_md (dir path : string) : bool :=
  let pre := ("./" ++ dir ++ "/")%string in
  if String.prefix pre path then
    let name := substring (String.length pre) (String.length path - String.length pre) path in
    negb (String.prefix "." name) && negb (string_has "/" name) && ends_with ".md" name
  else false.

(** [collectionApi.getFilteredByGlob(dir + "/*.md")] *)
Definition getFilteredByGlob (api : collection_api) (dir : string) : list item :=
  filter (fun it => glob_dir_md dir (inputPath it)) (all_sorted api).
