(* ===== verification/JsNumber.v ===== *)
(** * JsNumber: [ToNumber] on strings and the [b - a] comparator

    [years.js] keeps a file-name prefix when [!isNaN(year)] (line 16) and
    both it and the [getYears] filter ([src/.eleventy.js] line 121) sort
    strings with [(a, b) => b - a], which converts both strings to
    numbers.  This file models ECMAScript's [StringToNumber] (ECMA-262
    7.1.4.1.1) on ASCII strings:
    - leading and trailing white space and line terminators are removed
      and the empty string is 0;
    - [0x], [0o], [0b] integers (no sign);
    - decimal literals with an optional sign, a fraction and an exponent,
      and [Infinity];
    - anything else is NaN.
    Values are exact rationals ([Q]) or infinities: the decimal strings met
    here have a few digits, and rounding them to binary64 is monotone and
    keeps apart the ones that differ, so they compare as their exact values
    do. *)

From Stdlib Require Import Ascii QArith.
From S2P Require Import Prelude JsSort.
Local Open Scope Z_scope.

(** A number as [ToNumber] produces it; NaN is [None]. *)
Inductive num :=
| Fin (q : Q)
| Inf (negative : bool).

Definition ascii_code (c : ascii) : Z := Z.of_nat (nat_of_ascii c).

(** [StrWhiteSpaceChar] in ASCII: tab, line feed, vertical tab, form feed,
    carriage return, space. *)
Definition is_space (c : ascii) : bool :=
  let n := ascii_code c in ((9 <=? n) && (n <=? 13)) || (n =? 32).

Fixpoint trim_start (s : string) : string :=
  match s with
  | String c s' => if is_space c then trim_start s' else s
  | EmptyString => EmptyString
  end.

Definition trim (s : string) : string :=
  string_of_list_ascii (rev (list_ascii_of_string
    (trim_start (string_of_list_ascii (rev (list_ascii_of_string (trim_start s))))))).

(** The value of a digit in base [b] (2, 8, 10 or 16), letters in either
    case. *)
Definition digit_in (b : Z) (c : ascii) : option Z :=
  let n := ascii_code c in
  let v := if (48 <=? n) && (n <=? 57) then n - 48
           else if (97 <=? n) && (n <=? 102) then n - 87
           else if (65 <=? n) && (n <=? 70) then n - 55
           else 99 in
  if v <? b then Some v else None.

(** Reads the longest run of base-[b] digits: its value and length. *)
Fixpoint digits (b acc : Z) (len : nat) (s : string) : Z * nat * string :=
  match s with
  | String c s' =>
      match digit_in b c with
      | Some v => digits b (acc * b + v) (S len) s'
      | None => (acc, len, s)
      end
  | EmptyString => (acc, len, s)
  end.

Definition pow10 (e : Z) : Q := if 0 <=? e then inject_Z (10 ^ e) else 1 # Z.to_pos (10 ^ (- e)).

(** [ExponentPart] after [e] or [E]: an optional sign and digits. *)
Definition exponent (s : string) : option (Z * string) :=
  match s with
  | String c r =>
      if (c =? "e")%char || (c =? "E")%char then
        let '(sign, r') := match r with
                           | String "+" r' => (1, r')
                           | String "-" r' => (-1, r')
                           | _ => (1, r)
                           end in
        let '(v, n, rest) := digits 10 0 0 r' in
        if (n =? 0)%nat then None else Some (sign * v, rest)
      else None
  | EmptyString => None
  end.

(** [StrUnsignedDecimalLiteral]: the value and what follows it. *)
Definition unsigned_decimal (s : string) : option (num * string) :=
  if String.prefix "Infinity" s then Some (Inf false, substring 8 (String.length s - 8) s)
  else
    let '(ip, n1, r1) := digits 10 0 0 s in
    let '(fp, n2, r2) := match r1 with
                         | String "." r => digits 10 0 0 r
                         | _ => (0, 0%nat, r1)
                         end in
    if (n1 =? 0)%nat && (n2 =? 0)%nat then None
    else
      let mant := (inject_Z ip + inject_Z fp * pow10 (- Z.of_nat n2))%Q in
      match exponent r2 with
      | Some (e, rest) => Some (Fin (mant * pow10 e)%Q, rest)
      | None => Some (Fin mant, r2)
      end.

Definition neg_num (x : num) : num :=
  match x with Fin q => Fin (- q)%Q | Inf b => Inf (negb b) end.

(** [StrNumericLiteral] filling the whole (trimmed) string. *)
Definition numeric_literal (s : string) : option num :=
  let radix b r :=
    let '(v, n, rest) := digits b 0 0 r in
    if (n =? 0)%nat then None
    else match rest with EmptyString => Some (Fin (inject_Z v)) | _ => None end in
  match s with
  | String "0" (String c r) =>
      if (c =? "x")%char || (c =? "X")%char then radix 16 r
      else if (c =? "o")%char || (c =? "O")%char then radix 8 r
      else if (c =? "b")%char || (c =? "B")%char then radix 2 r
      else match unsigned_decimal s with Some (v, EmptyString) => Some v | _ => None end
  | String "+" r => match unsigned_decimal r with Some (v, EmptyString) => Some v | _ => None end
  | String "-" r =>
      match unsigned_decimal r with Some (v, EmptyString) => Some (neg_num v) | _ => None end
  | _ => match unsigned_decimal s with Some (v, EmptyString) => Some v | _ => None end
  end.

(** [StringToNumber]. *)
Definition string_to_number (s : string) : option num :=
  match trim s with
  | EmptyString => Some (Fin 0)
  | t => numeric_literal t
  end.

(** [isNaN(s)] on a string. *)
Definition isNaN_string (s : string) : bool :=
  match string_to_number s with None => true | Some _ => false end.

(** The sign of [x - y]; NaN when either is NaN or both are the same
    infinity. *)
Definition num_sub_sign (x y : option num) : cmp_result :=
  match x, y with
  | Some (Fin a), Some (Fin b) => CmpNum (Qcompare a b)
  | Some (Inf nx), Some (Inf ny) =>
      if Bool.eqb nx ny then CmpNaN else CmpNum (if nx then Lt else Gt)
  | Some (Inf nx), Some (Fin _) => CmpNum (if nx then Lt else Gt)
  | Some (Fin _), Some (Inf ny) => CmpNum (if ny then Gt else Lt)
  | _, _ => CmpNaN
  end.

(** [(a, b) => b - a] on strings. *)
Definition desc_numeric (a b : string) : comparison :=
  cmp_sign (num_sub_sign (string_to_number b) (string_to_number a)).

(** ** Ordering numbers *)

(** The order of the extended reals: [-Infinity], the finite numbers,
    [+Infinity]. *)
Definition num_compare (x y : num) : comparison :=
  match x, y with
  | Fin a, Fin b => Qcompare a b
  | Inf nx, Inf ny => if Bool.eqb nx ny then Eq else if nx then Lt else Gt
  | Inf nx, Fin _ => if nx then Lt else Gt
  | Fin _, Inf ny => if ny then Gt else Lt
  end.

#[export] Instance Consistent_num_compare : Consistent num_compare.
Proof.
  split.
  - intros [a|[]] [b|[]]; simpl; try reflexivity. symmetry. apply Qcompare_antisym.
  - intros [a|[]] [b|[]] [c|[]]; simpl; try congruence.
    rewrite <- !Qle_alt. apply Qle_trans.
Qed.

(** On numbers that are not NaN, [(a, b) => b - a] orders by value,
    largest first. *)
Lemma desc_numeric_value (a b : string) (x y : num) :
  string_to_number a = Some x -> string_to_number b = Some y ->
  desc_numeric a b = num_compare y x.
Proof.
  intros Ha Hb. unfold desc_numeric. rewrite Ha, Hb.
  destruct x as [p|[]], y as [q|[]]; reflexivity.
Qed.

(** [b] is not greater than [a] as a number. *)
Definition not_above (a b : string) : Prop :=
  match string_to_number a, string_to_number b with
  | Some x, Some y => num_compare y x <> Gt
  | _, _ => False
  end.

(** The index order: largest number first, NaN last. *)
Definition desc_total (a b : string) : comparison :=
  option_compare num_compare (string_to_number b) (string_to_number a).

#[export] Instance desc_total_consistent : Consistent desc_total.
Proof.
  apply (Consistent_flip (fun x y => option_compare num_compare (string_to_number x) (string_to_number y))).
  apply Consistent_on, Consistent_option, Consistent_num_compare.
Qed.

(** Sorting strings none of which is NaN with [(a, b) => b - a] orders
    them by value, largest first. *)
Lemma sort_desc_numeric_sorted (l : list string) :
  (forall y, In y l -> isNaN_string y = false) -> StronglySorted not_above (sort desc_numeric l).
Proof.
  intros Hnum.
  assert (Hval : forall y, In y l -> exists v, string_to_number y = Some v).
  { intros y Hy. specialize (Hnum y Hy). unfold isNaN_string in Hnum.
    destruct (string_to_number y); [eauto|discriminate]. }
  replace (sort desc_numeric l) with (sort desc_total l).
  2:{ symmetry. apply sort_ext_in. intros a b Ha Hb.
      destruct (Hval a Ha) as [x Hx], (Hval b Hb) as [y Hy].
      rewrite (desc_numeric_value a b x y Hx Hy). unfold desc_total. now rewrite Hx, Hy. }
  eapply StronglySorted_impl_in;
    [|apply Sorted_StronglySorted; [apply (le_trans_rel desc_total)|apply (sort_sorted desc_total)]].
  intros a b Ha Hb. apply (Permutation_in _ (Permutation_sym (sort_perm _ _))) in Ha, Hb.
  destruct (Hval a Ha) as [x Hx], (Hval b Hb) as [y Hy].
  unfold le, desc_total, not_above. rewrite Hx, Hy. simpl. tauto.
Qed.
