(* ===== verification/Collections.v ===== *)
(** * Collections: the Collection Builder of [src/.eleventy.js]

    Lines 6-60 register four collections:
    - [places]: the items of [src/places/*.md] sorted by
      [a.data.title.localeCompare(b.data.title)];
    - [visits]: the items of [src/visits/*.md] sorted by
      [new Date(b.data.date) - new Date(a.data.date)] (latest first);
    - [visitsByYear]: the visits grouped in a plain object under
      [new Date(visit.data.date).getFullYear()], each group then sorted
      latest first;
    - [visitsByPlace]: the visits grouped under [visit.data.place], each
      group sorted latest first.
    [localeCompare] is a host-defined consistent comparator: the class
    [Collator] states it, with the code-unit order as an instance.  The
    time zone comes from [JsHost].  The theorems: [visits] and [places]
    are the unique stable sorts by their comparators (for [visits], when
    every date is valid); the grouped collections partition the visits;
    [visitsByPlace] throws exactly on a place named after a member of
    [Object.prototype]; a visit without a valid date makes the
    comparator of [visits] inconsistent. *)

From Stdlib Require Import Ascii.
From S2P Require Import Prelude JsSort JsDate JsObject Content.
Local Open Scope string_scope.

(** ** The collator behind [String.prototype.localeCompare] *)

Class Collator := {
  locale_compare : string -> string -> comparison;
  locale_compare_consistent :: Consistent locale_compare
}.

Section Collections.
Context `{Hh : JsHost} `{Hc : Collator}.

(** [(a, b) => a.data.title.localeCompare(b.data.title)] *)
Definition title_compare (a b : item) : comparison :=
  cmp_sign (CmpNum (locale_compare (title (data a)) (title (data b)))).

(** The [places] collection (lines 7-11). *)
Definition places (api : collection_api) : list item :=
  sort title_compare (getFilteredByGlob api "src/places").

Definition visit_time (it : item) : time_value := new_Date (date (data it)).

(** [new Date(b.data.date) - new Date(a.data.date)]: two integral time
    values below 8.64e15 in magnitude subtract with the sign of their
    exact difference (rounding to nearest keeps the sign and zero);
    NaN if either date is invalid. *)
Definition time_diff (tb ta : time_value) : cmp_result :=
  match tb, ta with
  | Some b, Some a => CmpNum (Z.compare b a)
  | _, _ => CmpNaN
  end.

(** [(a, b) => new Date(b.data.date) - new Date(a.data.date)] *)
Definition date_desc (a b : item) : comparison :=
  cmp_sign (time_diff (visit_time b) (visit_time a)).

(** The [visits] collection (lines 14-18). *)
Definition visits (api : collection_api) : list item :=
  sort date_desc (getFilteredByGlob api "src/visits").

(** The property key [byYear[year]] for
    [year = new Date(visit.data.date).getFullYear()]. *)
Definition year_key (it : item) : string := number_to_string (getFullYear (visit_time it)).

(** The [visitsByYear] collection (lines 21-39). *)
Definition visitsByYear (api : collection_api) : js_result (props (list item)) :=
  js_bind (group_by year_key (getFilteredByGlob api "src/visits") [])
          (fun byYear => Ok (sort_each date_desc byYear)).

(** The property key [byPlace[place]] for [place = visit.data.place];
    a missing [place] is [undefined], whose key is "undefined". *)
Definition place_key (it : item) : string :=
  match place (data it) with
  | Some p => p
  | None => "undefined"
  end.

(** The [visitsByPlace] collection (lines 42-60). *)
Definition visitsByPlace (api : collection_api) : js_result (props (list item)) :=
  js_bind (group_by place_key (getFilteredByGlob api "src/visits") [])
          (fun byPlace => Ok (sort_each date_desc byPlace)).
End Collections.

(** ** Properties *)

Section CollectionFacts.
Context `{Hh : JsHost} `{Hc : Collator}.

Definition visit_items (api : collection_api) : list item := getFilteredByGlob api "src/visits".
Definition place_items (api : collection_api) : list item := getFilteredByGlob api "src/places".

(** The date order extended to invalid dates, which it puts last; it is
    consistent and agrees with [date_desc] on valid dates. *)
Definition date_desc_total (a b : item) : comparison :=
  option_compare Z.compare (visit_time b) (visit_time a).

#[local] Instance date_desc_total_consistent : Consistent date_desc_total.
Proof.
  apply (Consistent_flip (fun x y => option_compare Z.compare (visit_time x) (visit_time y))).
  apply Consistent_on, Consistent_option, Consistent_Z_compare.
Qed.

#[local] Instance title_compare_consistent : Consistent title_compare.
Proof. exact (Consistent_on (fun it => title (data it)) locale_compare _). Qed.

Definition valid_dates (l : list item) : Prop := forall it, In it l -> visit_time it <> None.

(** [a] is not earlier than [b]. *)
Definition later_or_same (a b : item) : Prop :=
  match visit_time a, visit_time b with
  | Some ta, Some tb => (tb <= ta)%Z
  | _, _ => False
  end.

Lemma visits_total (api : collection_api) :
  valid_dates (visit_items api) -> visits api = sort date_desc_total (visit_items api).
Proof.
  intros Hv. apply sort_ext_in. intros a b Ha Hb. unfold date_desc, date_desc_total, time_diff.
  destruct (visit_time a) eqn:Ea; [|now apply Hv in Ea].
  destruct (visit_time b) eqn:Eb; [|now apply Hv in Eb]. reflexivity.
Qed.

(** Sorting valid-dated items with the code's comparator orders them
    latest first and loses or duplicates none. *)
Lemma date_sort_spec (l : list item) :
  valid_dates l -> Permutation l (sort date_desc l) /\ StronglySorted later_or_same (sort date_desc l).
Proof.
  intros Hv.
  replace (sort date_desc l) with (sort date_desc_total l).
  2:{ symmetry. apply sort_ext_in. intros a b Ha Hb. unfold date_desc, date_desc_total, time_diff.
      destruct (visit_time a) eqn:Ea; [|now apply Hv in Ea].
      destruct (visit_time b) eqn:Eb; [|now apply Hv in Eb]. reflexivity. }
  split; [apply sort_perm|].
  eapply StronglySorted_impl_in;
    [|apply Sorted_StronglySorted;
      [apply (le_trans_rel date_desc_total)|apply (sort_sorted date_desc_total)]].
  intros x y Hx Hy. apply (Permutation_in _ (Permutation_sym (sort_perm _ _))) in Hx, Hy.
  unfold le, date_desc_total, later_or_same.
  destruct (visit_time x) eqn:Ex; [|now apply Hv in Ex].
  destruct (visit_time y) eqn:Ey; [|now apply Hv in Ey].
  simpl. rewrite Z.compare_le_iff. lia.
Qed.

(** [C1] With valid dates, the [visits] collection holds exactly the
    visit items (none lost, none duplicated), latest first. *)
Theorem visits_sorted (api : collection_api) :
  valid_dates (visit_items api) ->
  Permutation (visit_items api) (visits api) /\ StronglySorted later_or_same (visits api).
Proof. apply date_sort_spec. Qed.

(** [C2] With valid dates, [visits] is the one stable sort of the visit
    items latest first: whatever stable algorithm the engine runs, it
    returns this list. *)
Theorem visits_unique (api : collection_api) :
  valid_dates (visit_items api) ->
  forall out, stable_sorted date_desc_total (visit_items api) out <-> out = visits api.
Proof.
  intros Hv out. rewrite visits_total by exact Hv. split.
  - intros H. eapply (stable_sorted_unique date_desc_total); [exact H|].
    apply (sort_stable_sorted date_desc_total).
  - intros ->. apply (sort_stable_sorted date_desc_total).
Qed.

(** The order the spec asks of [places]: ascending by title under the
    host's collation, defined from the collator alone. *)
Definition title_asc (a b : item) : comparison := locale_compare (title (data a)) (title (data b)).

(** [C3] [places] is the one stable sort of the place items ascending by
    title under the host's collator: whatever stable algorithm the engine
    runs, it returns this list. *)
Theorem places_unique (api : collection_api) :
  forall out, stable_sorted title_asc (place_items api) out <-> out = places api.
Proof.
  assert (Hs : places api = sort title_asc (place_items api)) by (apply sort_ext_in; reflexivity).
  intros out. rewrite Hs. split.
  - intros H. eapply (stable_sorted_unique title_asc); [exact H|].
    apply (sort_stable_sorted title_asc).
  - intros ->. apply (sort_stable_sorted title_asc).
Qed.

(** ** The grouped collections *)

Lemma number_to_string_first (n : option Z) :
  exists c r, number_to_string n = String c r /\ (nat_of_ascii c < 95)%nat.
Proof.
  destruct n as [z|]; unfold number_to_string; [destruct (Z.to_int z) as [u|u]; destruct u|];
    simpl; eexists _, _; (split; [reflexivity|apply Nat.ltb_lt; reflexivity]).
Qed.

(** A year key is a number's decimal form or "NaN", never a member of
    [Object.prototype]. *)
Lemma year_key_not_inherited (it : item) : inherited (year_key it) = false.
Proof.
  destruct (inherited (year_key it)) eqn:E; [exfalso|reflexivity].
  apply inherited_first_char in E as (c & r & E & Hlo).
  destruct (number_to_string_first (getFullYear (visit_time it))) as (c' & r' & E' & Hc').
  unfold year_key in E. rewrite E' in E. inv E. lia.
Qed.

Lemma concat_sort_values_perm (o : props (list item)) :
  Permutation (List.concat (map snd (map (fun kv => (fst kv, sort date_desc (snd kv))) o)))
              (List.concat (map snd o)).
Proof.
  induction o as [|[k v] o IH]; simpl; [reflexivity|].
  apply Permutation_app; [symmetry; apply sort_perm|exact IH].
Qed.

(** The non-empty group of the elements with a given key. *)
Definition group_of (key : item -> string) (k : string) (xs : list item) : option (list item) :=
  merge_group None (filter (has_key key k) xs).

(** Grouping by a key no element shares with [Object.prototype] and
    sorting every group: the shape of [visitsByYear] and [visitsByPlace]. *)
Lemma grouped_spec (key : item -> string) (xs : list item) :
  (forall x, In x xs -> inherited (key x) = false) ->
  exists o, js_bind (group_by key xs []) (fun o => Ok (sort_each date_desc o)) = Ok o /\
    NoDup (map fst o) /\ Permutation (List.concat (map snd o)) xs /\
    forall k, own_get k o = option_map (sort date_desc) (group_of key k xs).
Proof.
  intros Hk.
  destruct (group_by_ok key xs [] Hk (fun k H => match H with end)) as (o & E & _ & Hg & Hnd & Hp).
  specialize (Hnd (NoDup_nil _)).
  exists (map (fun kv => (fst kv, sort date_desc (snd kv))) o).
  rewrite E. simpl. rewrite sort_each_map by exact Hnd. split; [reflexivity|split; [|split]].
  - rewrite map_map. exact Hnd.
  - rewrite concat_sort_values_perm, Hp. reflexivity.
  - intros k. rewrite own_get_map_values, Hg. reflexivity.
Qed.

(** [C4] [visitsByYear] never throws; its keys are distinct; together
    its groups hold exactly the visit items; the group of a year holds
    the visits of that year in input order, sorted latest first. *)
Theorem visitsByYear_groups (api : collection_api) :
  exists o, visitsByYear api = Ok o /\ NoDup (map fst o) /\
    Permutation (List.concat (map snd o)) (visit_items api) /\
    forall k, own_get k o = option_map (sort date_desc) (group_of year_key k (visit_items api)).
Proof. apply grouped_spec. intros x _. apply year_key_not_inherited. Qed.

(** [C5] Without a place named after a member of [Object.prototype],
    [visitsByPlace] succeeds and groups the visits by place the same way. *)
Theorem visitsByPlace_groups (api : collection_api) :
  (forall it, In it (visit_items api) -> inherited (place_key it) = false) ->
  exists o, visitsByPlace api = Ok o /\ NoDup (map fst o) /\
    Permutation (List.concat (map snd o)) (visit_items api) /\
    forall k, own_get k o = option_map (sort date_desc) (group_of place_key k (visit_items api)).
Proof. apply grouped_spec. Qed.

(** [C6] [visitsByPlace] throws exactly when a visit's place is the name
    of a member of [Object.prototype], such as "constructor" or
    "toString": [byPlace[place]] is then an inherited function, not
    falsy, and has no [push]. *)
Theorem visitsByPlace_throws (api : collection_api) :
  (exists e, visitsByPlace api = Throw e) <->
  exists it, In it (visit_items api) /\ inherited (place_key it) = true.
Proof.
  rewrite <- (group_by_throws place_key (visit_items api) [] (fun k H => match H with end)).
  unfold visitsByPlace, visit_items.
  destruct (group_by place_key (getFilteredByGlob api "src/visits") []) as [o|err]; simpl;
    split; intros [e' He]; try discriminate; eauto.
Qed.
End CollectionFacts.

(** ** A collator: code-unit order *)

#[export] Instance Consistent_ascii_compare : Consistent Ascii.compare.
Proof.
  split.
  - intros a b. apply Ascii.compare_antisym.
  - intros a b c. unfold Ascii.compare. rewrite !N.compare_le_iff. lia.
Qed.

Lemma string_compare_le_trans (s1 s2 s3 : string) :
  String.compare s1 s2 <> Gt -> String.compare s2 s3 <> Gt -> String.compare s1 s3 <> Gt.
Proof.
  revert s2 s3. induction s1 as [|a s1 IH]; intros [|b s2] [|c s3]; simpl; try congruence.
  destruct (Ascii.compare a b) eqn:E1, (Ascii.compare b c) eqn:E2; try congruence; intros H1 H2.
  - assert (Ascii.compare a c = Eq) as ->; [|now apply (IH s2)].
    apply Ascii.compare_eq_iff in E1, E2. subst. apply (cmp_refl Ascii.compare).
  - rewrite (cmp_le_lt_trans Ascii.compare a b c) by (congruence || assumption). discriminate.
  - rewrite (cmp_lt_le_trans Ascii.compare a b c) by (congruence || assumption). discriminate.
  - rewrite (cmp_lt_le_trans Ascii.compare a b c) by (congruence || assumption). discriminate.
Qed.

(** [localeCompare] without locale data: the order of code units. *)
#[export] Instance code_unit_collator : Collator.
Proof.
  refine {| locale_compare := String.compare |}. split.
  - intros x y. apply String.compare_antisym.
  - apply string_compare_le_trans.
Defined.

(** ** Sample content, witnesses and consequences *)

Definition mk_place (file name slug' : string) (c : option string) : item :=
  {| inputPath := "./src/places/" ++ file;
     data := {| title := name; slug := Some slug'; date := DateUndefined; place := None;
                ratings := JUndefined; location := Some {| city := c |} |} |}.

Definition mk_visit (file : string) (d : date_input) (pl : string) : item :=
  {| inputPath := "./src/visits/" ++ file;
     data := {| title := ""; slug := None; date := d; place := Some pl;
                ratings := JUndefined; location := None |} |}.

Definition sample_api : collection_api :=
  {| all_sorted :=
       [mk_visit "2023-05-01-louvre.md" (DateString "2023-05-01") "louvre";
        mk_place "louvre.md" "Louvre" "louvre" (Some "Paris");
        mk_visit "2024-12-31-flore.md" (DateString "2024-12-31") "flore";
        mk_place "flore.md" "Cafe de Flore" "flore" (Some "Paris");
        mk_visit "2024-01-01-louvre.md" (DateString "2024-01-01") "louvre";
        {| inputPath := "./src/index.md"; data := data (mk_place "index.md" "Index" "index" None) |}] |}.

Definition has_valid_date `{JsHost} (it : item) : bool :=
  match visit_time it with Some _ => true | None => false end.

Lemma valid_dates_check `{JsHost} (l : list item) :
  forallb has_valid_date l = true -> valid_dates l.
Proof.
  intros Hf it Hin E. rewrite forallb_forall in Hf. specialize (Hf it Hin).
  unfold has_valid_date in Hf. now rewrite E in Hf.
Qed.

Example visits_sample :
  map inputPath (visits sample_api) =
  ["./src/visits/2024-12-31-flore.md"; "./src/visits/2024-01-01-louvre.md";
   "./src/visits/2023-05-01-louvre.md"].
Proof. vm_compute. reflexivity. Qed.

Example places_sample : map inputPath (places sample_api) = ["./src/places/flore.md"; "./src/places/louvre.md"].
Proof. vm_compute. reflexivity. Qed.

Lemma visits_sorted_witness :
  valid_dates (visit_items sample_api) /\
  Permutation (visit_items sample_api) (visits sample_api) /\
  StronglySorted later_or_same (visits sample_api).
Proof.
  assert (Hv : valid_dates (visit_items sample_api)) by (apply valid_dates_check; vm_compute; reflexivity).
  split; [exact Hv|]. apply visits_sorted. exact Hv.
Defined.

Lemma visits_unique_witness :
  valid_dates (visit_items sample_api) /\
  (stable_sorted date_desc_total (visit_items sample_api) (visits sample_api) <->
   visits sample_api = visits sample_api).
Proof.
  assert (Hv : valid_dates (visit_items sample_api)) by (apply valid_dates_check; vm_compute; reflexivity).
  split; [exact Hv|]. apply visits_unique. exact Hv.
Defined.

Lemma visitsByPlace_groups_witness :
  (forall it, In it (visit_items sample_api) -> inherited (place_key it) = false) /\
  exists o, visitsByPlace sample_api = Ok o /\ NoDup (map fst o) /\
    Permutation (List.concat (map snd o)) (visit_items sample_api) /\
    forall k, own_get k o = option_map (sort date_desc) (group_of place_key k (visit_items sample_api)).
Proof.
  assert (Hk : forall it, In it (visit_items sample_api) -> inherited (place_key it) = false).
  { intros it Hin. vm_compute in Hin. repeat destruct Hin as [<-|Hin]; try contradiction;
      vm_compute; reflexivity. }
  split; [exact Hk|]. apply visitsByPlace_groups. exact Hk.
Defined.

(** [C7] A visit without a valid date breaks the consistency ECMAScript
    requires of a sort comparator (ECMA-262 23.1.3.30.1): against it
    [a - b] is NaN, taken as 0, so it is "equal" to any two visits with
    distinct valid dates, which are not equal to each other; hence
    [date_desc] is not a consistent comparator and the order of [visits]
    is left to the engine, with no error, where the spec requires an
    [InvalidDateError]. *)
Theorem date_desc_inconsistent `{Hh : JsHost} (a u b : item) :
  visit_time u = None -> visit_time a <> None -> visit_time b <> None -> visit_time a <> visit_time b ->
  date_desc a u = Eq /\ date_desc u b = Eq /\ date_desc a b <> Eq /\ ~ Consistent date_desc.
Proof.
  intros Hu Ha Hb Hab. unfold date_desc, time_diff. rewrite Hu.
  destruct (visit_time a) as [ta|] eqn:Ea; [|congruence].
  destruct (visit_time b) as [tb|] eqn:Eb; [|congruence]. cbn [cmp_sign].
  assert (Hne : tb <> ta) by congruence.
  refine (conj eq_refl (conj eq_refl (conj _ _))).
  - rewrite Z.compare_eq_iff. exact Hne.
  - intros Hc.
    assert (H1 : date_desc a b <> Gt) by
      (apply (cmp_le_trans date_desc a u b); unfold date_desc, time_diff; rewrite Hu, ?Ea, ?Eb; discriminate).
    assert (H2 : date_desc b a <> Gt) by
      (apply (cmp_le_trans date_desc b u a); unfold date_desc, time_diff; rewrite Hu, ?Ea, ?Eb; discriminate).
    unfold date_desc, time_diff in H1, H2. rewrite Ea, Eb in H1, H2. cbn [cmp_sign] in H1, H2.
    rewrite Z.compare_antisym in H2.
    destruct (Z.compare tb ta) eqn:E; [apply Z.compare_eq_iff in E; contradiction|contradiction|contradiction].
Qed.


(** A visit to a place whose slug is "constructor" makes
    [visitsByPlace] throw a [TypeError], which stops the build. *)
Theorem visitsByPlace_constructor_throws :
  exists e, visitsByPlace {| all_sorted := [mk_visit "2024-01-05-x.md" (DateString "2024-01-05") "constructor"] |}
            = Throw e.
Proof. eexists. vm_compute. reflexivity. Qed.

Lemma date_desc_inconsistent_witness :
  let a := mk_visit "2024-03-01-a.md" (DateString "2024-03-01") "a" in
  let u := mk_visit "draft-b.md" DateUndefined "b" in
  let b := mk_visit "2025-03-01-c.md" (DateString "2025-03-01") "c" in
  (visit_time (Hh := utc_host) u = None /\ visit_time (Hh := utc_host) a <> None /\
   visit_time (Hh := utc_host) b <> None /\ visit_time (Hh := utc_host) a <> visit_time (Hh := utc_host) b) /\
  (date_desc (Hh := utc_host) a u = Eq /\ date_desc (Hh := utc_host) u b = Eq /\
   date_desc (Hh := utc_host) a b <> Eq /\ ~ Consistent (date_desc (Hh := utc_host))).
Proof.
  intros a u b.
  assert (Hu : visit_time (Hh := utc_host) u = None) by reflexivity.
  assert (Ha : visit_time (Hh := utc_host) a <> None) by (vm_compute; congruence).
  assert (Hb : visit_time (Hh := utc_host) b <> None) by (vm_compute; congruence).
  assert (Hab : visit_time (Hh := utc_host) a <> visit_time (Hh := utc_host) b) by (vm_compute; congruence).
  split; [tauto|]. exact (date_desc_inconsistent (Hh := utc_host) a u b Hu Ha Hb Hab).
Defined.
