(* ===== verification/YearIndex.v ===== *)
(** * YearIndex: the global data file [src/src/_data/years.js]

    The function exported by [years.js] lists the visit directory
    ([fs.existsSync], [fs.readdirSync], taken as inputs here), keeps the
    names ending in [.md], takes their first four characters
    ([file.substring(0, 4)]) and adds them to a [Set] unless
    [isNaN(year)]; it returns [Array.from(years)] sorted with
    [(a, b) => b - a].  The Set keeps first insertion order. *)

From S2P Require Import Prelude JsSort JsNumber Content.
Local Open Scope string_scope.

(** What the file system answers for [src/visits]. *)
Record visits_dir := {
  dir_exists : bool;
  dir_entries : list string
}.

(** The body of [files.forEach(file => ...)] (lines 12-20). *)
Definition years_step (years : list string) (file : string) : list string :=
  if ends_with ".md" file then
    let year := substring 0 4 file in
    if negb (isNaN_string year) then set_add year years else years
  else years.

(** The exported function (lines 4-25). *)
Definition years (fs : visits_dir) : list string :=
  let ys := if dir_exists fs then fold_left years_step (dir_entries fs) [] else [] in
  sort desc_numeric ys.

(** ** Properties *)

(** A file name the loop keeps: a Markdown file whose first four
    characters are not NaN for [isNaN]. *)
Definition accepted (file : string) : bool :=
  ends_with ".md" file && negb (isNaN_string (substring 0 4 file)).

(** The prefix the loop adds for a file name, if any. *)
Definition year_of (file : string) : option string :=
  if accepted file then Some (substring 0 4 file) else None.

Lemma years_step_year_of (acc : list string) (file : string) :
  years_step acc file = match year_of file with Some y => set_add y acc | None => acc end.
Proof.
  unfold years_step, year_of, accepted.
  destruct (ends_with ".md" file), (isNaN_string (substring 0 4 file)); reflexivity.
Qed.

(** The loop keeps each accepted prefix once, and nothing else. *)
Lemma fold_years_spec (files acc : list string) :
  NoDup acc ->
  NoDup (fold_left years_step files acc) /\
  forall y, In y (fold_left years_step files acc) <->
            In y acc \/ exists f, In f files /\ accepted f = true /\ y = substring 0 4 f.
Proof.
  intros Hnd.
  rewrite (fold_left_ext_fun _ _ _ _ years_step_year_of).
  destruct (fold_set_add_spec year_of files acc Hnd) as [Hn Hm]. split; [exact Hn|].
  intros y. rewrite Hm. unfold year_of. split; intros [H|(f & Hf & E)]; auto; right; exists f.
  - destruct (accepted f); [injection E as <-; auto|discriminate].
  - destruct E as [-> ->]. auto.
Qed.

(** [C9] The year index has no duplicates, and a string is in it exactly
    when the directory exists and some Markdown file name in it starts
    with that string, four characters long and not NaN for [isNaN]. *)
Theorem years_members (fs : visits_dir) :
  NoDup (years fs) /\
  forall y, In y (years fs) <->
            dir_exists fs = true /\
            exists f, In f (dir_entries fs) /\ accepted f = true /\ y = substring 0 4 f.
Proof.
  unfold years. destruct (dir_exists fs).
  - destruct (fold_years_spec (dir_entries fs) [] (NoDup_nil _)) as [Hn Hm].
    split; [eapply Permutation_NoDup; [apply sort_perm|exact Hn]|].
    intros y. split.
    + intros Hy. apply (Permutation_in _ (Permutation_sym (sort_perm _ _))), Hm in Hy.
      destruct Hy as [[]|H]. auto.
    + intros [_ H]. apply (Permutation_in _ (sort_perm _ _)), Hm. auto.
  - split; [constructor|]. intros y. simpl. split; [tauto|intros [H _]; discriminate].
Qed.

(** [C10] The year index is sorted by numeric value, largest first. *)
Theorem years_sorted (fs : visits_dir) : StronglySorted not_above (years fs).
Proof.
  unfold years. apply sort_desc_numeric_sorted.
  intros y Hy. destruct (dir_exists fs); [|contradiction].
  apply (proj2 (fold_years_spec (dir_entries fs) [] (NoDup_nil _)) y) in Hy.
  destruct Hy as [[]|(f & _ & Ha & ->)]. unfold accepted in Ha.
  apply andb_true_iff in Ha as [_ Ha]. now apply negb_true_iff in Ha.
Qed.


Lemma accepted_length (file : string) :
  accepted file = true -> String.length (substring 0 4 file) = 4.
Proof.
  unfold accepted, ends_with. intros H.
  apply andb_true_iff in H as [H Hn]. apply andb_true_iff in H as [Hl He].
  destruct file as [|a [|b [|c [|d f]]]]; simpl in Hl; try discriminate; [|now destruct f].
  apply String.eqb_eq in He. simpl in He. inversion He; subst. vm_compute in Hn. discriminate.
Qed.

(** [C11] Every entry of the year index is a string of exactly four
    characters: a Markdown name of three characters is [.md] itself, whose
    prefix [.md] is NaN, so [substring(0, 4)] never returns a shorter
    string.  The four characters need not be digits: [isNaN] accepts a
    hexadecimal prefix, a blank-padded number and four blanks. *)
Theorem years_four_chars :
  (forall fs : visits_dir, Forall (fun y => String.length y = 4) (years fs)) /\
  years {| dir_exists := true; dir_entries := ["2024-01-05-a.md"; "0x1f-b.md"; "  12-c.md"; "    .md"] |}
  = ["2024"; "0x1f"; "  12"; "    "].
Proof.
  split; [|vm_compute; reflexivity]. intros fs.
  apply Forall_forall. intros y Hy. unfold years in Hy.
  apply (Permutation_in _ (Permutation_sym (sort_perm _ _))) in Hy.
  destruct (dir_exists fs); [|contradiction].
  apply (proj2 (fold_years_spec (dir_entries fs) [] (NoDup_nil _)) y) in Hy.
  destruct Hy as [[]|(f & _ & Ha & ->)]. now apply accepted_length.
Qed.

