(* ===== verification/Filters.v ===== *)
(** * Filters: the Derived-Value Functions of [src/.eleventy.js]

    Lines 62-127 register the filters the templates call per record:
    - [getPlace(places, slug)]: the first place whose slug is [===] the
      argument;
    - [averageRating(ratings)]: the binary64 mean of the numbers among
      [Object.values(ratings)], 0 when there are none;
    - [formatDate], [dateSlug], [getYear], [getDay], [getMonth]: fields of
      [new Date(date)] in the host's local calendar, the long and short
      forms of the en-US locale;
    - [uniqueCities(places)]: the truthy [location.city] values, each once,
      in first-seen order;
    - [getYears(visitsByYear)]: [Object.keys] sorted with [(a, b) => b - a];
    - [currentYear()]: the year of the host's clock.
    The shortcode [stars] has its own file, [Stars].  Arithmetic on
    JavaScript numbers is binary64 ([SFadd], [SFdiv] of the Standard
    Library's [SpecFloat]).
    The theorems give each filter's behaviour: the mean ignoring
    non-numbers, [uniqueCities] and [getPlace] in general, the round trip
    of [dateSlug] on ISO dates for a host in UTC (through the printer
    [iso_date] and the parser of [JsDate]), the shift of every ISO date
    to the day before ([prev_day] of [Calendar]) on every host behind UTC
    by less than a day, and the printing of every NaN date. *)

From Stdlib Require Import Ascii SpecFloat QArith Qround.
From S2P Require Import Prelude JsSort Calendar JsDate JsObject Content JsNumber.
Local Open Scope string_scope.
#[local] Set Warnings "-abstract-large-number".

(** ** JavaScript values and numbers *)

(** [ToBoolean]: the falsy values are [undefined], [null], [false], +0,
    -0, NaN and the empty string. *)
Definition js_truthy (v : js_value) : bool :=
  match v with
  | JUndefined | JNull => false
  | JBool b => b
  | JNumber (S754_zero _) | JNumber S754_nan => false
  | JNumber _ => true
  | JString s => negb (String.eqb s "")
  | JArray _ | JObject _ => true
  end.

(** [Object.values(v)] for a value that is not [null] or [undefined]: an
    object's values in [Object.keys] order, an array's elements, a
    string's characters, nothing for a number or a boolean. *)
Definition object_values (v : js_value) : list js_value :=
  match v with
  | JObject fields =>
      map (fun k => match own_get k fields with Some x => x | None => JUndefined end)
          (own_keys fields)
  | JArray elems => elems
  | JString s => map (fun c => JString (String c EmptyString)) (list_ascii_of_string s)
  | _ => []
  end.

Definition is_js_number (v : js_value) : bool :=
  match v with JNumber _ => true | _ => false end.

Definition number_of (v : js_value) : js_number :=
  match v with JNumber n => n | _ => S754_zero false end.

(** The number literal [0] (+0), the operators [+] and [/], and a length
    as a number. *)
Definition js_zero : js_number := S754_zero false.
Definition js_add (a b : js_number) : js_number := SFadd prec emax a b.
Definition js_div (a b : js_number) : js_number := SFdiv prec emax a b.
Definition js_of_Z (z : Z) : js_number := binary_normalize prec emax z 0 false.

Section Filters.
Context `{Hh : JsHost}.

(** The slug test of [getPlace], [p.data.slug === slug]: a missing slug
    is [undefined], which is [===] to [undefined]. *)
Definition slug_is (s : option string) (p : item) : bool :=
  match slug (data p), s with
  | Some a, Some b => String.eqb a b
  | None, None => true
  | _, _ => false
  end.

(** [getPlace] (lines 63-65): [places.find(p => p.data.slug === slug)]. *)
Definition getPlace (places : list item) (s : option string) : option item :=
  find (slug_is s) places.

(** [averageRating] (lines 68-73). *)
Definition averageRating (ratings : js_value) : js_number :=
  if negb (js_truthy ratings) then js_zero
  else
    let values := filter is_js_number (object_values ratings) in
    match values with
    | [] => js_zero
    | _ => js_div (fold_left (fun a b => js_add a (number_of b)) values js_zero)
                  (js_of_Z (Z.of_nat (List.length values)))
    end.

(** ** Dates in the en-US locale *)

Definition month_long (m0 : Z) : string :=
  nth (Z.to_nat m0) ["January"; "February"; "March"; "April"; "May"; "June"; "July";
                     "August"; "September"; "October"; "November"; "December"] "".

Definition month_short (m0 : Z) : string :=
  nth (Z.to_nat m0) ["Jan"; "Feb"; "Mar"; "Apr"; "May"; "Jun"; "Jul"; "Aug"; "Sep";
                     "Oct"; "Nov"; "Dec"] "".

(** ECMA-402 shows a year [y <= 0] as the era year [1 - y]. *)
Definition year_numeric (y : Z) : string :=
  number_to_string (Some (if (y <=? 0)%Z then (1 - y)%Z else y)).

(** [formatDate] (lines 76-82): [toLocaleDateString('en-US', {year:
    'numeric', month: 'long', day: 'numeric'})], the pattern
    "MMMM d, y"; an invalid date prints "Invalid Date". *)
Definition formatDate (d : date_input) : string :=
  match new_Date d with
  | None => "Invalid Date"
  | Some t =>
      let lt := LocalTime t in
      month_long (MonthFromTime lt) ++ " " ++ number_to_string (Some (DateFromTime lt)) ++ ", "
        ++ year_numeric (YearFromTime lt)
  end.

(** [String.prototype.padStart(n, fill)] with a one-character fill. *)
Definition pad_start (n : nat) (fill : ascii) (s : string) : string :=
  if (String.length s <? n)%nat
  then string_of_list_ascii (repeat fill (n - String.length s)) ++ s
  else s.

(** [dateSlug] (lines 85-91). *)
Definition dateSlug (d : date_input) : string :=
  let tv := new_Date d in
  let year := getFullYear tv in
  let month := pad_start 2 "0" (number_to_string (option_map (fun m => m + 1)%Z (Date_getMonth tv))) in
  let day := pad_start 2 "0" (number_to_string (getDate tv)) in
  number_to_string year ++ "-" ++ month ++ "-" ++ day.

(** [getYear] (lines 94-96) and [getDay] (lines 99-101). *)
Definition getYear (d : date_input) : option Z := getFullYear (new_Date d).
Definition getDay (d : date_input) : option Z := getDate (new_Date d).

(** [String.prototype.toUpperCase] on ASCII. *)
Definition ascii_upper (c : ascii) : ascii :=
  let n := nat_of_ascii c in
  if (97 <=? n)%nat && (n <=? 122)%nat then ascii_of_nat (n - 32) else c.

Definition to_upper (s : string) : string :=
  string_of_list_ascii (map ascii_upper (list_ascii_of_string s)).

(** [getMonth] (lines 104-106):
    [toLocaleDateString('en-US', {month: 'short'}).toUpperCase()]. *)
Definition getMonth (d : date_input) : string :=
  to_upper (match new_Date d with
            | None => "Invalid Date"
            | Some t => month_short (MonthFromTime (LocalTime t))
            end).

(** ** Cities and years *)

(** [p.data.location && p.data.location.city]: the city when it is a
    non-empty string. *)
Definition city_of (p : item) : option string :=
  match location (data p) with
  | Some l => match city l with
              | Some c => if String.eqb c "" then None else Some c
              | None => None
              end
  | None => None
  end.

(** [uniqueCities] (lines 109-117). *)
Definition uniqueCities (places : list item) : list string :=
  fold_left (fun cities p => match city_of p with
                             | Some c => set_add c cities
                             | None => cities
                             end) places [].

(** [getYears] (lines 120-122). *)
Definition getYears {V} (visitsByYear : props V) : list string :=
  sort desc_numeric (own_keys visitsByYear).

(** [currentYear] (lines 125-127): [new Date().getFullYear()]. *)
Definition currentYear : option Z := getFullYear (TimeClip host_now).
End Filters.

(** ** Ratings, cities and places *)


(** [C19] A rating that is not a number, added under a new name that is
    not an array index, leaves the average unchanged: [averageRating]
    ignores the entries that are not numbers. *)
Theorem averageRating_ignores_non_number (fields : list (string * js_value)) (k : string)
    (v : js_value) :
  is_js_number v = false -> ~ In k (map fst fields) -> is_array_index k = false ->
  averageRating (JObject (fields ++ [(k, v)])) = averageRating (JObject fields).
Proof.
  intros Hv Hk Hi. unfold averageRating, object_values. cbn [js_truthy negb].
  rewrite own_keys_app_plain, map_app, filter_app by exact Hi. cbn [map].
  rewrite own_get_app_new, String.eqb_refl.
  replace (own_get k fields) with (@None js_value) by (symmetry; now apply own_get_None_keys).
  cbn [filter]. rewrite Hv, app_nil_r.
  erewrite map_ext_in; [reflexivity|]. intros k' Hk'. rewrite own_get_app_new.
  destruct (own_get k' fields) eqn:E; [reflexivity|].
  apply own_get_None_keys in E. exfalso. apply E.
  eapply Permutation_in; [apply own_keys_perm|exact Hk'].
Qed.

Lemma averageRating_ignores_non_number_witness :
  averageRating (JObject ([("a", JNumber (js_of_Z 4))] ++ [("notes", JString "good")])) =
  averageRating (JObject [("a", JNumber (js_of_Z 4))]).
Proof.
  apply averageRating_ignores_non_number; [reflexivity| |reflexivity].
  simpl. intros [E|[]]. discriminate.
Defined.

(** [C20] [uniqueCities] holds each city of a place once, and exactly the
    non-empty [location.city] values of the places. *)
Theorem uniqueCities_spec (places : list item) :
  NoDup (uniqueCities places) /\
  forall c, In c (uniqueCities places) <-> exists p, In p places /\ city_of p = Some c.
Proof.
  destruct (fold_set_add_spec city_of places [] (NoDup_nil _)) as [Hn Hm].
  split; [exact Hn|]. intros c. unfold uniqueCities. rewrite Hm. simpl. tauto.
Qed.

(** A place with the given [slug] and [location]. *)
Definition place_at (sl : option string) (loc : option place_location) : item :=
  {| inputPath := "./src/places/p.md";
     data := {| title := "p"; slug := sl; date := DateUndefined; place := None;
                ratings := JUndefined; location := loc |} |}.


Lemma slug_is_eq (s : option string) (p : item) : slug_is s p = true <-> slug (data p) = s.
Proof.
  unfold slug_is. destruct (slug (data p)), s; split; intros E; try congruence.
  - apply String.eqb_eq in E. congruence.
  - injection E as ->. apply String.eqb_refl.
Qed.

(** [C21] [getPlace places s] is the first place whose slug is [s], and
    [undefined] when no place has it; a missing slug ([undefined]) finds
    the first place without one. *)
Theorem getPlace_spec (places : list item) (s : option string) :
  match getPlace places s with
  | Some q => exists pre post, places = (pre ++ q :: post)%list /\ slug (data q) = s /\
                               forall p, In p pre -> slug (data p) <> s
  | None => forall p, In p places -> slug (data p) <> s
  end.
Proof.
  unfold getPlace. destruct (find (slug_is s) places) as [q|] eqn:E.
  - destruct (find_first _ _ _ E) as (pre & post & -> & Hq & Hpre).
    exists pre, post. split; [reflexivity|]. split; [now apply slug_is_eq|].
    intros p Hp Hs. apply slug_is_eq in Hs. rewrite Hpre in Hs by exact Hp. discriminate.
  - intros p Hp Hs. apply slug_is_eq in Hs. rewrite (find_none _ _ E p Hp) in Hs. discriminate.
Qed.

(** [C22] When the places have distinct slugs, [getPlace] finds each place
    by its slug. *)
Theorem getPlace_unique (places : list item) (p : item) :
  NoDup (map (fun q => slug (data q)) places) -> In p places ->
  getPlace places (slug (data p)) = Some p.
Proof.
  intros Hnd Hp. pose proof (getPlace_spec places (slug (data p))) as Hs.
  destruct (getPlace places (slug (data p))) as [q|].
  - destruct Hs as (pre & post & Hpl & Hq & _). f_equal.
    apply (NoDup_map_inj_in _ _ _ _ Hnd); [rewrite Hpl; apply in_elt|exact Hp|exact Hq].
  - exfalso. exact (Hs p Hp eq_refl).
Qed.

Lemma getPlace_unique_witness :
  getPlace [place_at None None; place_at (Some "louvre") None]
           (slug (data (place_at (Some "louvre") None))) =
  Some (place_at (Some "louvre") None).
Proof.
  apply getPlace_unique; [|simpl; tauto].
  simpl. constructor; [simpl; intros [E|[]]; discriminate|constructor; [simpl; tauto|constructor]].
Defined.

(** ** ISO dates and the calendar filters *)

Definition digit_char (k : Z) : ascii := ascii_of_nat (48 + Z.to_nat k).

(** [z] written with exactly [n] decimal digits, the form of the fields of
    an ISO date. *)
Fixpoint fixed_width (n : nat) (z : Z) : string :=
  match n with
  | O => EmptyString
  | S n' => String (digit_char (z / 10 ^ Z.of_nat n')) (fixed_width n' (z mod 10 ^ Z.of_nat n'))
  end.

(** [YYYY-MM-DD]. *)
Definition iso_date (y m d : Z) : string :=
  fixed_width 4 y ++ "-" ++ fixed_width 2 m ++ "-" ++ fixed_width 2 d.

Lemma digit_char_all :
  check_range (fun k => match digit (digit_char k) with Some v => (v =? k)%Z | None => false end)
    0 10 = true.
Proof. vm_compute. reflexivity. Qed.

Lemma digit_digit_char (k : Z) : (0 <= k <= 9)%Z -> digit (digit_char k) = Some k.
Proof.
  intros Hk. pose proof (check_range_sound _ _ _ digit_char_all k ltac:(simpl; lia)) as H.
  cbv beta in H. destruct (digit (digit_char k)); [apply Z.eqb_eq in H; congruence|discriminate].
Qed.

Lemma fixed_digits_fixed_width (n : nat) (acc z : Z) (r : string) :
  (0 <= z < 10 ^ Z.of_nat n)%Z ->
  fixed_digits n acc (fixed_width n z ++ r) = Some ((acc * 10 ^ Z.of_nat n + z)%Z, r).
Proof.
  revert acc z. induction n as [|n IH]; intros acc z Hz; simpl fixed_width.
  - simpl in *. f_equal. f_equal. lia.
  - rewrite Nat2Z.inj_succ, Z.pow_succ_r in Hz |- * by lia.
    pose proof (Z.pow_pos_nonneg 10 (Z.of_nat n) ltac:(lia) ltac:(lia)).
    assert (Hq : (0 <= z / 10 ^ Z.of_nat n < 10)%Z)
      by (split; [apply Z.div_pos|apply Z.div_lt_upper_bound]; lia).
    cbn [append fixed_digits]. rewrite digit_digit_char by lia.
    rewrite IH by (apply Z.mod_pos_bound; lia). f_equal. f_equal.
    pose proof (Z.div_mod z (10 ^ Z.of_nat n) ltac:(lia)). nia.
Qed.

(** The date-only parser reads an ISO date back. *)
Lemma parse_date_only_iso (y m d : Z) :
  (0 <= y < 10000)%Z -> (0 <= m < 100)%Z -> (0 <= d < 100)%Z ->
  parse_date_only (iso_date y m d) = make_utc_date y m d.
Proof.
  intros Hy Hm Hd. unfold parse_date_only, iso_date.
  rewrite fixed_digits_fixed_width by exact Hy. cbn [append].
  rewrite fixed_digits_fixed_width by exact Hm. cbn [append].
  rewrite <- (string_app_nil_r (fixed_width 2 d)), fixed_digits_fixed_width by exact Hd.
  reflexivity.
Qed.

Lemma valid_date_ranges (y m d : Z) :
  valid_date y m d = true -> (1 <= m <= 12)%Z /\ (1 <= d <= 31)%Z.
Proof.
  unfold valid_date, valid_md. rewrite !andb_true_iff, !Z.leb_le. intros Hv.
  pose proof (month_length_le_31 (leap_year y) m). lia.
Qed.

Lemma DayFromYear_range (y : Z) : (0 <= y <= 9999)%Z -> (-719528 <= DayFromYear y <= 2932532)%Z.
Proof. intros Hy. unfold DayFromYear. zdiv. Qed.

(** [new Date("YYYY-MM-DD")] is UTC midnight of that date. *)
Lemma new_Date_iso_date `{Hh : JsHost} (y m d : Z) :
  (0 <= y <= 9999)%Z -> valid_date y m d = true ->
  new_Date (DateString (iso_date y m d)) = Some (days_from_civil y m d * msPerDay)%Z.
Proof.
  intros Hy Hv. destruct (valid_date_ranges _ _ _ Hv) as [Hm Hd].
  unfold new_Date, date_parse. rewrite parse_date_only_iso by lia.
  unfold make_utc_date. replace ((1 <=? m) && (m <=? 12) && (1 <=? d) && (d <=? 31))%Z with true
    by (symmetry; rewrite !andb_true_iff, !Z.leb_le; lia).
  assert (Hday : MakeDay y (m - 1) d = days_from_civil y m d).
  { unfold MakeDay. rewrite (days_from_civil_day y m d). f_equal. f_equal. f_equal; zdiv. }
  rewrite Hday. unfold MakeDate. rewrite Z.add_0_r.
  pose proof (days_from_civil_month y m d Hm). pose proof (DayFromYear_range y Hy).
  pose proof (day_within_year_bound _ _ _ Hv). unfold leap_len in *.
  assert (Hb : (Z.abs (days_from_civil y m d * msPerDay) <= maxTime)%Z)
    by (unfold msPerDay, maxTime; destruct (leap_year y); lia).
  rewrite TimeClip_id by exact Hb. cbv iota beta. apply TimeClip_id, Hb.
Qed.

Lemma year_string_all :
  check_range (fun y => String.eqb (number_to_string (Some y)) (fixed_width 4 y)) 1000 9000 = true.
Proof. vm_compute. reflexivity. Qed.

Lemma two_digits_all :
  check_range (fun k => String.eqb (pad_start 2 "0" (number_to_string (Some k))) (fixed_width 2 k))
    1 31 = true.
Proof. vm_compute. reflexivity. Qed.

Lemma year_string (y : Z) : (1000 <= y <= 9999)%Z -> number_to_string (Some y) = fixed_width 4 y.
Proof.
  intros Hy. apply String.eqb_eq, (check_range_sound _ _ _ year_string_all). simpl. lia.
Qed.

Lemma two_digits (k : Z) : (1 <= k <= 31)%Z ->
  pad_start 2 "0" (number_to_string (Some k)) = fixed_width 2 k.
Proof.
  intros Hk. apply String.eqb_eq, (check_range_sound _ _ _ two_digits_all). simpl. lia.
Qed.

Section IsoDates.
Context `{Hh : JsHost}.
(** The host's local time is UTC. *)
Hypothesis Hutc : forall t, local_tza t = 0%Z.

Lemma local_civil (y m d : Z) : valid_date y m d = true ->
  civil_from_days (Day (LocalTime (days_from_civil y m d * msPerDay))) = (y, m, d).
Proof.
  intros Hv. unfold LocalTime, Day. rewrite Hutc, Z.add_0_r, Z.div_mul by (unfold msPerDay; lia).
  now apply days_from_civil_civil_from_days.
Qed.

(** [C23] Round trip: on a host whose local time is UTC, [dateSlug] of
    the ISO string of a valid date with a four-digit year is that
    string. *)
Theorem dateSlug_iso_date (y m d : Z) :
  (1000 <= y <= 9999)%Z -> valid_date y m d = true ->
  dateSlug (DateString (iso_date y m d)) = iso_date y m d.
Proof.
  intros Hy Hv. destruct (valid_date_ranges _ _ _ Hv) as [Hm Hd].
  unfold dateSlug, getFullYear, Date_getMonth, getDate.
  rewrite new_Date_iso_date by (auto; lia). cbn [option_map].
  unfold YearFromTime, MonthFromTime, DateFromTime. rewrite local_civil by exact Hv.
  cbn [fst snd]. replace (m - 1 + 1)%Z with m by lia.
  rewrite year_string, !two_digits by lia. reflexivity.
Qed.

(** [C24] On a host whose local time is UTC, the calendar filters read
    the year, month and day of an ISO date string with a year from 1 to
    9999: [getYear], [getDay], [getMonth] (the upper-case short month)
    and [formatDate] ("Month d, y"). *)
Theorem calendar_filters_iso_date (y m d : Z) :
  (1 <= y <= 9999)%Z -> valid_date y m d = true ->
  getYear (DateString (iso_date y m d)) = Some y /\
  getDay (DateString (iso_date y m d)) = Some d /\
  getMonth (DateString (iso_date y m d)) = to_upper (month_short (m - 1)) /\
  formatDate (DateString (iso_date y m d)) =
    (month_long (m - 1) ++ " " ++ number_to_string (Some d) ++ ", " ++ number_to_string (Some y))%string.
Proof.
  intros Hy Hv.
  unfold getYear, getDay, getMonth, formatDate, getFullYear, getDate.
  rewrite new_Date_iso_date by (auto; lia). cbn [option_map].
  unfold YearFromTime, MonthFromTime, DateFromTime. rewrite !local_civil by exact Hv.
  cbn [fst snd]. unfold year_numeric. replace (y <=? 0)%Z with false by lia.
  repeat split.
Qed.
End IsoDates.

Lemma dateSlug_iso_date_witness :
  dateSlug (Hh := utc_host) (DateString (iso_date 2024 1 5)) = iso_date 2024 1 5.
Proof. apply (dateSlug_iso_date (Hh := utc_host) (fun _ => eq_refl)); [lia|reflexivity]. Defined.

Lemma calendar_filters_iso_date_witness :
  getYear (Hh := utc_host) (DateString (iso_date 2024 1 5)) = Some 2024%Z /\
  getDay (Hh := utc_host) (DateString (iso_date 2024 1 5)) = Some 5%Z /\
  getMonth (Hh := utc_host) (DateString (iso_date 2024 1 5)) = to_upper (month_short (1 - 1)) /\
  formatDate (Hh := utc_host) (DateString (iso_date 2024 1 5)) =
    (month_long (1 - 1) ++ " " ++ number_to_string (Some 5%Z) ++ ", "
     ++ number_to_string (Some 2024%Z))%string.
Proof. apply (calendar_filters_iso_date (Hh := utc_host) (fun _ => eq_refl)); [lia|reflexivity]. Defined.


(** Behind UTC by less than a day, the local calendar date of UTC
    midnight of a valid date is the day before. *)
Lemma local_civil_west `{Hh : JsHost} (y m d : Z) :
  (forall t, (- msPerDay < local_tza t < 0)%Z) -> valid_date y m d = true ->
  civil_from_days (Day (LocalTime (days_from_civil y m d * msPerDay))) = prev_day y m d.
Proof.
  intros Hw Hv. pose proof (prev_day_spec y m d Hv) as Hp.
  destruct (prev_day y m d) as [[y' m'] d']. destruct Hp as [Hv' Hd].
  unfold LocalTime. rewrite Day_before by apply Hw. rewrite <- Hd.
  now apply days_from_civil_civil_from_days.
Qed.

(** [C25] A date-only string is read as UTC midnight and the filters read
    the local calendar: on every host whose local time is behind UTC by
    less than a day, a valid ISO date [y-m-d] (year 1001 to 9999) shows,
    in [dateSlug], [getYear], [getDay], [getMonth] and [formatDate], as
    the valid date [(y', m', d')] one day before it, so that a visit
    dated January 1st counts in the year before. *)
Theorem date_filters_west_of_utc `{Hh : JsHost} :
  (forall t, (- msPerDay < local_tza t < 0)%Z) ->
  forall y m d, (1001 <= y <= 9999)%Z -> valid_date y m d = true ->
  let '(y', m', d') := prev_day y m d in
  valid_date y' m' d' = true /\ days_from_civil y' m' d' = (days_from_civil y m d - 1)%Z /\
  dateSlug (DateString (iso_date y m d)) = iso_date y' m' d' /\
  getYear (DateString (iso_date y m d)) = Some y' /\
  getDay (DateString (iso_date y m d)) = Some d' /\
  getMonth (DateString (iso_date y m d)) = to_upper (month_short (m' - 1)) /\
  formatDate (DateString (iso_date y m d)) =
    (month_long (m' - 1) ++ " " ++ number_to_string (Some d') ++ ", " ++ number_to_string (Some y'))%string.
Proof.
  intros Hwest y m d Hy Hv.
  pose proof (prev_day_spec y m d Hv) as Hp. pose proof (prev_day_year y m d) as Hb.
  destruct (prev_day y m d) as [[y' m'] d'] eqn:Ep. destruct Hp as [Hv' Hd].
  destruct (valid_date_ranges _ _ _ Hv') as [Hm' Hd'].
  pose proof (local_civil_west y m d Hwest Hv) as Hc. rewrite Ep in Hc.
  unfold dateSlug, getYear, getDay, getMonth, formatDate, getFullYear, Date_getMonth, getDate.
  rewrite new_Date_iso_date by (auto; lia). cbn [option_map].
  unfold YearFromTime, MonthFromTime, DateFromTime. rewrite !Hc.
  cbn [fst snd]. replace (m' - 1 + 1)%Z with m' by lia. unfold year_numeric.
  replace (y' <=? 0)%Z with false by lia.
  rewrite year_string, !two_digits by lia. repeat split; assumption.
Qed.

Lemma date_filters_west_of_utc_witness :
  let '(y', m', d') := prev_day 2024 1 1 in
  valid_date y' m' d' = true /\ days_from_civil y' m' d' = (days_from_civil 2024 1 1 - 1)%Z /\
  dateSlug (Hh := eastern_host) (DateString (iso_date 2024 1 1)) = iso_date y' m' d' /\
  getYear (Hh := eastern_host) (DateString (iso_date 2024 1 1)) = Some y' /\
  getDay (Hh := eastern_host) (DateString (iso_date 2024 1 1)) = Some d' /\
  getMonth (Hh := eastern_host) (DateString (iso_date 2024 1 1)) = to_upper (month_short (m' - 1)) /\
  formatDate (Hh := eastern_host) (DateString (iso_date 2024 1 1)) =
    (month_long (m' - 1) ++ " " ++ number_to_string (Some d') ++ ", " ++ number_to_string (Some y'))%string.
Proof.
  apply (date_filters_west_of_utc (Hh := eastern_host)); [|lia|reflexivity].
  intros t. cbn. unfold msPerDay. lia.
Defined.

(** [C26] An unparseable date is not an error: whenever [new Date(d)] is
    NaN (a missing date, or a string neither the ISO format nor the
    engine's fallback parser reads), the filters print NaN: "NaN-NaN-NaN",
    "Invalid Date", "INVALID DATE", and [getYear] and [getDay] give NaN. *)
Theorem date_filters_invalid `{Hh : JsHost} (v : date_input) :
  new_Date v = None ->
  dateSlug v = "NaN-NaN-NaN" /\ formatDate v = "Invalid Date" /\
  getMonth v = "INVALID DATE" /\ getYear v = None /\ getDay v = None.
Proof.
  intros Hn. unfold dateSlug, formatDate, getMonth, getYear, getDay, getFullYear, Date_getMonth, getDate.
  rewrite Hn. repeat split.
Qed.

Lemma date_filters_invalid_witness :
  new_Date (H := utc_host) DateUndefined = None /\
  (dateSlug (Hh := utc_host) DateUndefined = "NaN-NaN-NaN" /\
   formatDate (Hh := utc_host) DateUndefined = "Invalid Date" /\
   getMonth (Hh := utc_host) DateUndefined = "INVALID DATE" /\
   getYear (Hh := utc_host) DateUndefined = None /\ getDay (Hh := utc_host) DateUndefined = None).
Proof. split; [reflexivity|]. apply (date_filters_invalid (Hh := utc_host)). reflexivity. Defined.

(** [C27] [getYears] lists the names of [visitsByYear], largest number
    first, when none of them is NaN as a number. *)
Theorem getYears_sorted {V : Type} (o : props V) :
  (forall k, In k (map fst o) -> isNaN_string k = false) ->
  Permutation (getYears o) (map fst o) /\ StronglySorted not_above (getYears o).
Proof.
  intros Hk. unfold getYears. split.
  - rewrite <- own_keys_perm. apply Permutation_sym, sort_perm.
  - apply sort_desc_numeric_sorted. intros k Hin. apply Hk.
    eapply Permutation_in; [apply own_keys_perm|exact Hin].
Qed.

Lemma getYears_sorted_witness :
  Permutation (getYears [("2023", 1); ("2024", 2)]) (map fst [("2023", 1); ("2024", 2)]) /\
  StronglySorted not_above (getYears [("2023", 1); ("2024", 2)]).
Proof. apply getYears_sorted. intros k [<-|[<-|[]]]; reflexivity. Defined.
