(* ===== verification/Stars.v ===== *)
(** * Stars: the [stars] shortcode of [src/.eleventy.js] (lines 130-146)

    [stars(rating)] emits [Math.floor(rating)] full stars, a half star
    when [rating % 1 >= 0.5], and [5 - fullStars - (hasHalf ? 1 : 0)]
    empty stars, appending each unit's markup to the string [html].  This
    file models:
    - [Math.floor] and [% 1 >= 0.5] on binary64, exactly, from mantissa
      and exponent;
    - the shortcode in closed form, [stars], the loops being counted
      ([loop_count]) and the engine's longest string checked on the total;
    - the shortcode as the code runs it, [stars_loop]: three [for] loops
      that append one unit at a time and throw a [RangeError] as soon as
      [html] would outgrow the longest string, with fuel bounding the
      iterations.
    The theorems: five units exactly for a rating in [0, 5]; no clamping
    outside [0, 5] (every negative rating gives more than five empty
    stars, every rating from 5 on [floor rating] full stars, NaN nothing
    and both infinities a [RangeError]); the loops compute the closed
    form on every rating, +Infinity included, once the fuel reaches
    [fuel_bound], a bound computed from the longest string; on +Infinity
    they throw after exactly [max_string_length / 32 + 1] iterations. *)

From Stdlib Require Import Ascii SpecFloat QArith Qround.
From S2P Require Import Prelude JsDate Content.
Local Open Scope string_scope.

(** ** The [stars] shortcode (lines 130-146) *)

(** [Math.floor(x)] of a binary64 number: NaN, an infinity, or an
    integer. *)
Inductive xnum :=
| XNaN
| XInf (negative : bool)
| XInt (z : Z).

Definition signed (s : bool) (m : positive) : Z := if s then Z.neg m else Z.pos m.

Definition js_floor (x : js_number) : xnum :=
  match x with
  | S754_zero _ => XInt 0
  | S754_infinity s => XInf s
  | S754_nan => XNaN
  | S754_finite s m e =>
      XInt (if (0 <=? e)%Z then signed s m * 2 ^ e else signed s m / 2 ^ (- e))%Z
  end.

(** [x % 1 >= 0.5]: the remainder has the sign of [x], is NaN for NaN and
    the infinities, and is at least 1/2 only for a positive [x] whose
    fractional part is. *)
Definition has_half (x : js_number) : bool :=
  match x with
  | S754_finite false m e => (e <? 0)%Z && (2 ^ (- e) <=? 2 * (Z.pos m mod 2 ^ (- e)))%Z
  | _ => false
  end.

(** [5 - fullStars - (hasHalf ? 1 : 0)]. *)
Definition empty_count (full : xnum) (half : bool) : xnum :=
  match full with
  | XInt z => XInt (5 - z - (if half then 1 else 0))%Z
  | XInf s => XInf (negb s)
  | XNaN => XNaN
  end.

(** The iterations of [for (let i = 0; i < n; i++)]: none for NaN and
    -Infinity, without end ([None]) for +Infinity. *)
Definition loop_count (n : xnum) : option Z :=
  match n with
  | XInt z => Some (Z.max 0 z)
  | XInf false => None
  | _ => Some 0
  end.

Inductive star := Full | Half | Empty.

Definition dq : string := String (ascii_of_nat 34) EmptyString.

(** The markup of a unit; its length in UTF-16 code units is 32 for a full
    or half star and 33 for an empty one. *)
Definition star_html (s : star) : string :=
  match s with
  | Full => "<span class=" ++ dq ++ "star full" ++ dq ++ ">★</span>"
  | Half => "<span class=" ++ dq ++ "star half" ++ dq ++ ">★</span>"
  | Empty => "<span class=" ++ dq ++ "star empty" ++ dq ++ ">☆</span>"
  end.

Definition render (units : list star) : string := String.concat "" (map star_html units).

Section Stars.
Context `{Hh : JsHost}.

(** [stars(rating)]: the units in order, or the [RangeError] the engine
    throws when [html] outgrows its longest string (which a loop to
    +Infinity reaches). *)
Definition stars (rating : js_number) : js_result (list star) :=
  let fullStars := js_floor rating in
  let hasHalf := has_half rating in
  let emptyStars := empty_count fullStars hasHalf in
  match loop_count fullStars, loop_count emptyStars with
  | Some f, Some e =>
      if (32 * f + (if hasHalf then 32 else 0) + 33 * e <=? max_string_length)%Z
      then Ok (repeat Full (Z.to_nat f) ++ (if hasHalf then [Half] else [])
               ++ repeat Empty (Z.to_nat e))%list
      else Throw (RangeError "Invalid string length")
  | _, _ => Throw (RangeError "Invalid string length")
  end.

(** ** The loops as the code runs them *)

(** [i < n] for the counter [i] and the loop bound [n]: false against
    NaN and -Infinity, true against +Infinity. *)
Definition xlt (i : Z) (n : xnum) : bool :=
  match n with
  | XInt z => (i <? z)%Z
  | XInf negative => negb negative
  | XNaN => false
  end.

(** The length of a unit's markup in UTF-16 code units. *)
Definition unit_width (u : star) : Z :=
  match u with Full | Half => 32 | Empty => 33 end.

(** [html += markup(u)], which throws when [html] would outgrow the
    longest string. *)
Definition append_unit (u : star) (st : Z * list star) : js_result (Z * list star) :=
  let '(len, acc) := st in
  if (len + unit_width u <=? max_string_length)%Z then Ok (len + unit_width u, (acc ++ [u])%list)
  else Throw (RangeError "Invalid string length").

(** [for (let i = i0; i < n; i++) html += markup(u)] on the length and
    units of [html]; [None] when the fuel runs out. *)
Fixpoint for_units (fuel : nat) (u : star) (i : Z) (n : xnum) (st : Z * list star)
    : option (js_result (Z * list star)) :=
  match fuel with
  | O => None
  | S fuel' =>
      if xlt i n then
        match append_unit u st with
        | Ok st' => for_units fuel' u (i + 1) n st'
        | Throw e => Some (Throw e)
        end
      else Some (Ok st)
  end.

(** The shortcode as it runs: the full stars, the half star, the empty
    stars, each loop with [fuel] iterations at most. *)
Definition stars_loop (fuel : nat) (rating : js_number) : option (js_result (list star)) :=
  let fullStars := js_floor rating in
  let hasHalf := has_half rating in
  let emptyStars := empty_count fullStars hasHalf in
  match for_units fuel Full 0 fullStars (0, []) with
  | None => None
  | Some (Throw e) => Some (Throw e)
  | Some (Ok st) =>
      match (if hasHalf then append_unit Half st else Ok st) with
      | Throw e => Some (Throw e)
      | Ok st' => option_map (fun r => js_bind r (fun st'' => Ok (snd st''))) (for_units fuel Empty 0 emptyStars st')
      end
  end.

(** Enough iterations for every loop: each one adds 32 code units at
    least to a string of at most [max_string_length]. *)
Definition fuel_bound : nat := Z.to_nat (max_string_length / 32) + 2.
End Stars.

(** The exact value of a finite binary64 number. *)
Definition js_to_Q (x : js_number) : option Q :=
  match x with
  | S754_zero _ => Some 0%Q
  | S754_finite s m e =>
      Some (if (0 <=? e)%Z then inject_Z (signed s m * 2 ^ e) else signed s m # Z.to_pos (2 ^ (- e)))
  | _ => None
  end.

(** ** Properties of [stars] *)

Section StarsFacts.
Context `{Hh : JsHost}.

(** When [Math.floor] gives [f] in [0, 5] and a half star fits, the
    shortcode emits [f] full stars, the half star, and the rest empty. *)
Lemma stars_counts (r : js_number) (f : Z) (h : bool) :
  (165 <= max_string_length)%Z -> js_floor r = XInt f -> has_half r = h ->
  (0 <= f)%Z -> (f + (if h then 1 else 0) <= 5)%Z ->
  stars r = Ok (repeat Full (Z.to_nat f) ++ (if h then [Half] else [])
                ++ repeat Empty (Z.to_nat (5 - f - (if h then 1 else 0))))%list.
Proof.
  intros Hmax Hf Hh' H0 H5. unfold stars. rewrite Hf, Hh'. cbn [loop_count empty_count].
  rewrite (Z.max_r 0 f), (Z.max_r 0 (5 - f - _)) by (destruct h; lia).
  rewrite (proj2 (Z.leb_le _ _)) by (destruct h; lia). reflexivity.
Qed.

(** [rating % 1 >= 0.5] of a non-negative rating tests its exact
    fractional part. *)
Lemma has_half_spec (r : js_number) (q : Q) :
  js_to_Q r = Some q -> (0 <= q)%Q ->
  has_half r = Qle_bool (1 # 2) (q - inject_Z (Qfloor q)).
Proof.
  intros Hq Hlo. apply Bool.eq_iff_eq_true. rewrite Qle_bool_iff.
  destruct r as [s|s| |s m e]; cbn [js_to_Q] in Hq; try discriminate; injection Hq as <-.
  - cbn. unfold Qle. simpl. lia.
  - unfold Qle in Hlo. destruct ((0 <=? e)%Z) eqn:E.
    + apply Z.leb_le in E. rewrite Qfloor_Z. unfold Qminus. rewrite Qplus_opp_r. split.
      * intros H. destruct s; cbn [has_half] in H; [discriminate|].
        apply andb_true_iff in H as [H _]. apply Z.ltb_lt in H. lia.
      * intros H. unfold Qle in H. simpl in H. lia.
    + apply Z.leb_gt in E. pose proof (Z.pow_pos_nonneg 2 (- e) ltac:(lia) ltac:(lia)) as Hd.
      cbn [Qnum Qden] in Hlo. destruct s; cbn [signed] in *; [lia|].
      cbn [has_half]. replace (e <? 0)%Z with true by (symmetry; apply Z.ltb_lt; lia).
      unfold Qfloor, Qle, Qminus, Qplus, Qopp. cbn [Qnum Qden inject_Z]. rewrite Pos.mul_1_r, Z2Pos.id by lia.
      rewrite andb_true_l, Z.leb_le.
      pose proof (Z.div_mod (Z.pos m) (2 ^ (- e)) ltac:(lia)). nia.
Qed.

(** For a rating in [0, 5], [Math.floor] is the exact floor, and the full
    stars and the half star fit in five units. *)
Lemma floor_in_range (r : js_number) (q : Q) :
  js_to_Q r = Some q -> (0 <= q <= 5)%Q ->
  js_floor r = XInt (Qfloor q) /\ (0 <= Qfloor q)%Z /\
  (Qfloor q + (if has_half r then 1 else 0) <= 5)%Z.
Proof.
  intros Hq [Hlo Hhi].
  destruct r as [s|s| |s m e]; cbn [js_to_Q] in Hq; try discriminate; injection Hq as <-.
  - cbn. split; [reflexivity|lia].
  - unfold Qle in Hlo, Hhi. destruct (0 <=? e)%Z eqn:E.
    + pose proof E as E0. apply Z.leb_le in E. pose proof (Z.pow_pos_nonneg 2 e ltac:(lia) E).
      cbn [Qnum Qden inject_Z] in Hlo, Hhi. rewrite Qfloor_Z.
      destruct s; cbn [signed] in *; [nia|]. cbn [js_floor has_half signed]. rewrite E0.
      replace (e <? 0)%Z with false by (symmetry; apply Z.ltb_ge; lia).
      split; [reflexivity|cbn [andb]; lia].
    + apply Z.leb_gt in E. pose proof (Z.pow_pos_nonneg 2 (- e) ltac:(lia) ltac:(lia)) as Hd.
      cbn [Qnum Qden] in Hlo, Hhi. rewrite Z2Pos.id in Hhi by lia.
      destruct s; cbn [signed] in *; [lia|].
      cbn [js_floor has_half]. replace (0 <=? e)%Z with false by (symmetry; apply Z.leb_gt; lia).
      replace (e <? 0)%Z with true by (symmetry; apply Z.ltb_lt; lia).
      unfold Qfloor. rewrite Z2Pos.id by lia. rewrite andb_true_l.
      split; [reflexivity|split; [apply Z.div_pos; lia|]].
      pose proof (Z.div_mod (Z.pos m) (2 ^ (- e)) ltac:(lia)).
      pose proof (Z.mod_pos_bound (Z.pos m) (2 ^ (- e)) ltac:(lia)).
      destruct (2 ^ (- e) <=? 2 * (Z.pos m mod 2 ^ (- e)))%Z eqn:Eh;
        [apply Z.leb_le in Eh|apply Z.leb_gt in Eh]; nia.
Qed.

(** [C15] For a rating whose value lies in [0, 5], [stars] emits exactly
    five units: [floor rating] full stars, then a half star exactly when
    the fractional part is at least 1/2, then empty stars. *)
Theorem stars_five_units (r : js_number) (q : Q) :
  (165 <= max_string_length)%Z -> js_to_Q r = Some q -> (0 <= q <= 5)%Q ->
  exists (f : nat) (h : bool),
    stars r = Ok (repeat Full f ++ (if h then [Half] else [])
                  ++ repeat Empty (5 - f - (if h then 1 else 0)))%list /\
    Z.of_nat f = Qfloor q /\ h = Qle_bool (1 # 2) (q - inject_Z (Qfloor q)) /\
    (f + (if h then 1 else 0) + (5 - f - (if h then 1 else 0)) = 5)%nat.
Proof.
  intros Hmax Hq Hr. destruct (floor_in_range r q Hq Hr) as (Hf & H0 & H5).
  exists (Z.to_nat (Qfloor q)), (has_half r).
  rewrite (stars_counts r (Qfloor q) (has_half r)) by auto.
  split; [|split; [lia|split; [apply has_half_spec; [exact Hq|apply Hr]|destruct (has_half r); lia]]].
  destruct (has_half r);
    [replace (Z.to_nat (5 - Qfloor q - 1)) with (5 - Z.to_nat (Qfloor q) - 1)%nat by lia
    |replace (Z.to_nat (5 - Qfloor q - 0)) with (5 - Z.to_nat (Qfloor q) - 0)%nat by lia];
    reflexivity.
Qed.

(** [Math.floor] of a finite rating is its exact floor. *)
Lemma js_floor_exact (r : js_number) (q : Q) : js_to_Q r = Some q -> js_floor r = XInt (Qfloor q).
Proof.
  intros Hq. destruct r as [s|s| |s m e]; cbn [js_to_Q] in Hq; try discriminate; injection Hq as <-.
  - reflexivity.
  - cbn [js_floor]. destruct (0 <=? e)%Z eqn:E; [now rewrite Qfloor_Z|].
    apply Z.leb_gt in E. pose proof (Z.pow_pos_nonneg 2 (- e) ltac:(lia) ltac:(lia)).
    unfold Qfloor. cbn [Qnum Qden]. rewrite Z2Pos.id by lia. reflexivity.
Qed.

(** A negative rating has no half star: [x % 1] is not positive. *)
Lemma has_half_neg (r : js_number) (q : Q) : js_to_Q r = Some q -> (q < 0)%Q -> has_half r = false.
Proof.
  intros Hq Hneg. destruct r as [s|s| |[] m e]; cbn [js_to_Q] in Hq; try discriminate;
    injection Hq as <-; try reflexivity; exfalso.
  destruct (0 <=? e)%Z eqn:E; cbn [signed] in Hneg.
  - apply Z.leb_le in E. pose proof (Z.pow_pos_nonneg 2 e ltac:(lia) E).
    change (inject_Z (Z.pos m * 2 ^ e) < inject_Z 0)%Q in Hneg. rewrite <- Zlt_Qlt in Hneg. nia.
  - unfold Qlt in Hneg. cbn [Qnum Qden] in Hneg. lia.
Qed.

(** [C18] The code does not clamp the rating to [0, 5] (the spec's
    "ratings are between 0 and 5" is not checked): a negative rating
    gives [5 - floor rating] empty stars, more than five; a rating of 5
    or more gives [floor rating] full stars and the half star, more than
    five units from 5.5 on; NaN gives no markup at all; and both
    infinities throw, since one of the loops runs to +Infinity. *)
Theorem stars_out_of_range (r : js_number) (q : Q) :
  js_to_Q r = Some q -> (33 * (Z.abs (Qfloor q) + 6) <= max_string_length)%Z ->
  ((q < 0)%Q -> stars r = Ok (repeat Empty (Z.to_nat (5 - Qfloor q))) /\ (5 < 5 - Qfloor q)%Z) /\
  ((5 <= q)%Q -> stars r = Ok (repeat Full (Z.to_nat (Qfloor q)) ++ (if has_half r then [Half] else []))%list
                 /\ (5 <= Qfloor q)%Z) /\
  stars S754_nan = Ok [] /\ (exists e, stars (S754_infinity false) = Throw e) /\
  (exists e, stars (S754_infinity true) = Throw e).
Proof.
  intros Hq Hmax. pose proof (js_floor_exact r q Hq) as Hf. pose proof (Qfloor_le q) as Hle.
  split; [|split; [|split; [|split; eexists; reflexivity]]]; [intros Hr; unfold stars; rewrite Hf..|].
  3: { unfold stars. cbn. rewrite (proj2 (Z.leb_le 0 max_string_length)) by lia. reflexivity. }
  - rewrite (has_half_neg r q Hq Hr). cbn [loop_count empty_count].
    assert (Hneg : (Qfloor q < 0)%Z)
      by (rewrite Zlt_Qlt; apply (Qle_lt_trans _ q); [exact Hle|exact Hr]).
    rewrite (Z.max_l 0 (Qfloor q)), (Z.max_r 0 (5 - _ - 0)) by lia.
    rewrite (proj2 (Z.leb_le _ _)) by lia. rewrite Z.sub_0_r. split; [reflexivity|lia].
  - assert (H5 : (5 <= Qfloor q)%Z)
      by (rewrite <- (Qfloor_Z 5); apply Qfloor_resp_le; exact Hr).
    cbn [loop_count empty_count]. rewrite (Z.max_r 0 (Qfloor q)), (Z.max_l 0 (5 - _ - _)) by (destruct (has_half r); lia).
    rewrite (proj2 (Z.leb_le _ _)) by (destruct (has_half r); lia).
    split; [cbn [repeat Z.to_nat]; now rewrite app_nil_r|exact H5].
Qed.
End StarsFacts.


Lemma stars_five_units_witness :
  exists (f : nat) (h : bool),
    stars (Hh := utc_host) (S754_finite false 7 (-1)) =
      Ok (repeat Full f ++ (if h then [Half] else []) ++ repeat Empty (5 - f - (if h then 1 else 0)))%list /\
    Z.of_nat f = Qfloor (7 # 2) /\ h = Qle_bool (1 # 2) ((7 # 2) - inject_Z (Qfloor (7 # 2)))%Q /\
    (f + (if h then 1 else 0) + (5 - f - (if h then 1 else 0)) = 5)%nat.
Proof.
  apply (stars_five_units (Hh := utc_host)); [simpl; lia|reflexivity|split; unfold Qle; simpl; lia].
Defined.

Lemma stars_out_of_range_witness :
  ((inject_Z 7 < 0)%Q -> stars (Hh := utc_host) (S754_finite false 7 0) = Ok (repeat Empty (Z.to_nat (5 - Qfloor (inject_Z 7))))
                         /\ (5 < 5 - Qfloor (inject_Z 7))%Z) /\
  ((5 <= inject_Z 7)%Q -> stars (Hh := utc_host) (S754_finite false 7 0)
                           = Ok (repeat Full (Z.to_nat (Qfloor (inject_Z 7)))
                                 ++ (if has_half (S754_finite false 7 0) then [Half] else []))%list
                           /\ (5 <= Qfloor (inject_Z 7))%Z) /\
  stars (Hh := utc_host) S754_nan = Ok [] /\ (exists e, stars (Hh := utc_host) (S754_infinity false) = Throw e) /\
  (exists e, stars (Hh := utc_host) (S754_infinity true) = Throw e).
Proof. apply (stars_out_of_range (Hh := utc_host)); [reflexivity|vm_compute; congruence]. Defined.

(** ** The loops compute the closed form *)

Section StarsLoopFacts.
Context `{Hh : JsHost}.
Hypothesis Hmax : (0 <= max_string_length)%Z.

(** What a [for] loop of [append_unit] computes: [max(0, n - i)]
    iterations, or a [RangeError] when they do not fit, or one that never
    ends (+Infinity) and throws. *)
Definition loop_result (u : star) (i : Z) (n : xnum) (st : Z * list star) : js_result (Z * list star) :=
  match n with
  | XInt z =>
      let k := Z.max 0 (z - i) in
      if (fst st + unit_width u * k <=? max_string_length)%Z
      then Ok (fst st + unit_width u * k, (snd st ++ repeat u (Z.to_nat k))%list)
      else Throw (RangeError "Invalid string length")
  | XInf false => Throw (RangeError "Invalid string length")
  | _ => Ok st
  end.

Lemma unit_width_range (u : star) : (32 <= unit_width u <= 33)%Z.
Proof. destruct u; simpl; lia. Qed.

Lemma for_units_closed (fuel : nat) (u : star) (i : Z) (n : xnum) (len : Z) (acc : list star) :
  (0 <= len <= max_string_length)%Z ->
  ((max_string_length - len) / unit_width u + 2 <= Z.of_nat fuel)%Z ->
  for_units fuel u i n (len, acc) = Some (loop_result u i n (len, acc)).
Proof.
  pose proof (unit_width_range u) as Hw. set (w := unit_width u) in *.
  revert i len acc. induction fuel as [|fuel IH]; intros i len acc Hlen Hf.
  - exfalso. assert (0 <= (max_string_length - len) / w)%Z by (apply Z.div_pos; lia).
    simpl in Hf. lia.
  - assert (Hstep : forall len', (len' = len + w)%Z -> (len' <= max_string_length)%Z ->
              ((max_string_length - len') / w + 2 <= Z.of_nat fuel)%Z).
    { intros len' -> Hl. replace (max_string_length - len) with (max_string_length - (len + w) + 1 * w)%Z
        in Hf by lia. rewrite Z.div_add in Hf by lia. lia. }
    cbn [for_units append_unit]. fold w.
    destruct n as [|[]|z]; cbn [xlt negb loop_result fst snd];
      [reflexivity|reflexivity| | ].
    + destruct (Z.leb_spec (len + w) max_string_length); [|reflexivity].
      rewrite IH by (auto; lia). reflexivity.
    + destruct (Z.ltb_spec i z).
      * replace (Z.max 0 (z - i)) with (Z.max 0 (z - (i + 1)) + 1)%Z by lia.
        destruct (Z.leb_spec (len + w) max_string_length).
        -- rewrite IH by (auto; lia). cbn [loop_result fst snd]. fold w.
           replace (len + w * (Z.max 0 (z - (i + 1)) + 1))%Z with (len + w + w * Z.max 0 (z - (i + 1)))%Z
             by lia.
           rewrite Z2Nat.inj_add, Nat.add_1_r by lia. cbn [repeat]. rewrite <- app_assoc. reflexivity.
        -- replace (len + w * (Z.max 0 (z - (i + 1)) + 1) <=? max_string_length)%Z with false
             by (symmetry; apply Z.leb_gt; nia). reflexivity.
      * replace (Z.max 0 (z - i)) with 0%Z by lia. rewrite Z.mul_0_r, Z.add_0_r, app_nil_r.
        replace (len <=? max_string_length)%Z with true by (symmetry; apply Z.leb_le; lia).
        reflexivity.
Qed.
Lemma fuel_enough (fuel : nat) (u : star) (len : Z) :
  (fuel_bound <= fuel)%nat -> (0 <= len <= max_string_length)%Z ->
  ((max_string_length - len) / unit_width u + 2 <= Z.of_nat fuel)%Z.
Proof.
  intros Hf Hl. pose proof (unit_width_range u). unfold fuel_bound in Hf.
  assert ((max_string_length - len) / unit_width u <= max_string_length / 32)%Z.
  { transitivity (max_string_length / unit_width u)%Z.
    - apply Z.div_le_mono; lia.
    - apply Z.div_le_compat_l; lia. }
  pose proof (Z.div_pos max_string_length 32 Hmax ltac:(lia)). lia.
Qed.

Lemma for_units_pos_inf (fuel : nat) (i len : Z) (acc : list star) :
  (0 <= len <= max_string_length)%Z ->
  for_units fuel Full i (XInf false) (len, acc) =
  if (Z.of_nat fuel <=? (max_string_length - len) / 32)%Z then None
  else Some (Throw (RangeError "Invalid string length")).
Proof.
  revert i len acc. induction fuel as [|fuel IH]; intros i len acc Hl.
  - assert (0 <= (max_string_length - len) / 32)%Z by (apply Z.div_pos; lia).
    cbn. replace (0 <=? (max_string_length - len) / 32)%Z with true by (symmetry; apply Z.leb_le; lia).
    reflexivity.
  - cbn [for_units xlt negb append_unit unit_width].
    destruct (Z.leb_spec (len + 32) max_string_length).
    + rewrite IH by lia.
      replace (max_string_length - len)%Z with (max_string_length - (len + 32) + 1 * 32)%Z by lia.
      rewrite Z.div_add by lia. rewrite Nat2Z.inj_succ.
      destruct (Z.leb_spec (Z.of_nat fuel) ((max_string_length - (len + 32)) / 32));
        destruct (Z.leb_spec (Z.succ (Z.of_nat fuel)) ((max_string_length - (len + 32)) / 32 + 1));
        first [reflexivity | lia].
    + rewrite (Z.div_small (max_string_length - len) 32) by lia.
      replace (Z.of_nat (S fuel) <=? 0)%Z with false by (symmetry; apply Z.leb_gt; lia).
      reflexivity.
Qed.

(** [C16] The shortcode as it runs, three [for] loops appending one unit
    at a time, ends within [fuel_bound] iterations per loop on every
    rating, +Infinity included, and computes the closed form [stars]:
    the same units, or the same [RangeError]. *)
Theorem stars_loop_stars (fuel : nat) (r : js_number) :
  (fuel_bound <= fuel)%nat -> stars_loop fuel r = Some (stars r).
Proof.
  intros Hf. unfold stars_loop, stars. generalize (js_floor r) (has_half r). intros full h.
  rewrite for_units_closed by (first [lia | apply fuel_enough; [exact Hf|lia]]).
  destruct full as [|[]|z]; cbn [loop_result loop_count empty_count negb fst snd];
    try reflexivity;
    destruct h; cbn [append_unit unit_width];
    repeat (first [ rewrite for_units_closed by (first [lia | apply fuel_enough; [exact Hf|lia]; lia])
                  | progress cbn [loop_result append_unit fst snd js_bind option_map unit_width]
                  | match goal with |- context [(?a <=? ?b)%Z] => destruct (Z.leb_spec a b) end ]);
    first [reflexivity | exfalso; lia | rewrite ?Z.sub_0_r; simpl; rewrite <- ?app_assoc; reflexivity].
Qed.

(** [C17] On +Infinity the loop of full stars runs exactly
    [max_string_length / 32 + 1] times: the last iteration would make
    [html] longer than the engine's longest string and throws; with less
    fuel the run has not ended. *)
Theorem stars_loop_pos_infinity (fuel : nat) :
  stars_loop fuel (S754_infinity false) =
  if (Z.of_nat fuel <=? max_string_length / 32)%Z then None
  else Some (Throw (RangeError "Invalid string length")).
Proof.
  unfold stars_loop. cbn [js_floor has_half empty_count].
  rewrite for_units_pos_inf by lia. rewrite Z.sub_0_r.
  now destruct (Z.of_nat fuel <=? max_string_length / 32)%Z.
Qed.
End StarsLoopFacts.

Lemma stars_loop_stars_witness :
  stars_loop (Hh := utc_host) fuel_bound (S754_finite false 7 (-1)) =
  Some (stars (Hh := utc_host) (S754_finite false 7 (-1))).
Proof. apply (stars_loop_stars (Hh := utc_host)); [simpl; lia|apply le_n]. Defined.

Lemma stars_loop_pos_infinity_witness :
  stars_loop (Hh := utc_host) 3 (S754_infinity false) = None.
Proof. rewrite (stars_loop_pos_infinity (Hh := utc_host)); [reflexivity|simpl; lia]. Defined.
