(* ===== verification/Composition.v ===== *)
(** * Composition: the Year Index Builder against the Collection Builder

    [years.js] reads the years from the names of the files of
    [src/visits]; [visitsByYear] reads them from the [date] fields of the
    same files, as Eleventy hands them out ([getFilteredByGlob]), and the
    templates list [getYears(visitsByYear)] beside [years].  The spec
    (section 4.3, 6) leaves the two sources unreconciled and states the
    identifier convention [YYYY-MM-DD-<slug>] that makes them agree.  This
    file models the content store that feeds both (one record per file of
    the visits directory) and proves:
    - on a host in UTC, when every file follows the convention, the year
      index is [getYears(visitsByYear)];
    - a name outside the convention breaks the agreement: a hidden file
      that the glob skips, leaving [visitsByYear] as it was, still gives
      [years.js] a "year" that [getYears(visitsByYear)] does not list;
    - a host behind UTC breaks it too: a visit is grouped under the local
      year of UTC midnight of its date, the year before for January 1st,
      while [years.js] takes the year of its name. *)

From Stdlib Require Import Ascii SpecFloat QArith.
From S2P Require Import Prelude JsSort Calendar JsDate JsObject Content JsNumber Collections YearIndex Filters Stars.
Local Open Scope string_scope.
#[local] Set Warnings "-abstract-large-number".

(** ** The content store *)

(** A file of [src/visits]: its name, and the [date] and [place] of its
    front matter. *)
Record visit_file := { file_name : string; file_date : date_input; file_place : string }.

(** The item Eleventy makes of a visit file. *)
Definition visit_item (f : visit_file) : item :=
  {| inputPath := "./src/visits/" ++ file_name f;
     data := {| title := ""; slug := None; date := file_date f; place := Some (file_place f);
                ratings := JUndefined; location := None |} |}.

(** What [years.js] sees of the same files. *)
Definition store_dir (files : list visit_file) : visits_dir :=
  {| dir_exists := true; dir_entries := map file_name files |}.

(** What Eleventy hands the configuration. *)
Definition store_api (files : list visit_file) : collection_api :=
  {| all_sorted := map visit_item files |}.

(** The identifier convention (spec section 6): the name starts with the
    file's date [YYYY-MM-DD], a four-digit year, and ends in [.md]; like
    every name a directory lists, it has no slash. *)
Definition follows_convention (f : visit_file) : Prop :=
  exists y m d rest, file_name f = (iso_date y m d ++ rest)%string /\
    file_date f = DateString (iso_date y m d) /\ (1000 <= y <= 9999)%Z /\
    valid_date y m d = true /\ string_has "/" (file_name f) = false /\
    ends_with ".md" (file_name f) = true.

(** ** String lemmas *)

Lemma prefix_app (a b : string) : String.prefix a (a ++ b) = true.
Proof.
  induction a as [|c a IH]; simpl; [now destruct b|].
  destruct (Ascii.ascii_dec c c); [exact IH|contradiction].
Qed.

Lemma prefix_dot (c : ascii) (r : string) : c <> "."%char -> String.prefix "." (String c r) = false.
Proof. intros Hc. cbn [String.prefix]. destruct (Ascii.ascii_dec "." c); [congruence|reflexivity]. Qed.

Lemma substring_app_r (a b : string) (n : nat) : substring (String.length a) n (a ++ b) = substring 0 n b.
Proof. induction a as [|c a IH]; simpl; [reflexivity|exact IH]. Qed.

Lemma substring_app_l (a b : string) : substring 0 (String.length a) (a ++ b) = a.
Proof. induction a as [|c a IH]; simpl; [now destruct b|now rewrite IH]. Qed.

Lemma substring_all (s : string) : substring 0 (String.length s) s = s.
Proof. induction s as [|c s IH]; simpl; [reflexivity|now rewrite IH]. Qed.

Lemma length_app (a b : string) : String.length (a ++ b) = (String.length a + String.length b)%nat.
Proof. induction a as [|c a IH]; simpl; auto. Qed.

Lemma length_fixed_width (n : nat) (z : Z) : String.length (fixed_width n z) = n.
Proof. revert z. induction n as [|n IH]; intros z; simpl; auto. Qed.

(** ** Four-digit years *)

Lemma year_digits_all :
  check_range (fun y => match string_to_number (fixed_width 4 y) with
                        | Some (Fin q) => Qeq_bool q (inject_Z y)
                        | _ => false
                        end && negb (Ascii.eqb (match fixed_width 4 y with
                                                | String c _ => c | EmptyString => "."%char end) "."))
    1000 9000 = true.
Proof. vm_compute. reflexivity. Qed.

(** A four-digit year reads back as its value and does not start with a
    dot. *)
Lemma year_digits (y : Z) : (1000 <= y <= 9999)%Z ->
  (exists q, string_to_number (fixed_width 4 y) = Some (Fin q) /\ (q == inject_Z y)%Q) /\
  exists c r, fixed_width 4 y = String c r /\ c <> "."%char.
Proof.
  intros Hy. pose proof (check_range_sound _ _ _ year_digits_all y ltac:(simpl; lia)) as H.
  cbv beta in H. apply andb_true_iff in H as [H1 H2]. split.
  - destruct (string_to_number (fixed_width 4 y)) as [[q|]|]; try discriminate.
    exists q. split; [reflexivity|now apply Qeq_bool_iff].
  - destruct (fixed_width 4 y) as [|c r]; [discriminate|]. exists c, r. split; [reflexivity|].
    intros ->. discriminate.
Qed.

(** A name [YYYY-MM-DD...md] is accepted by [years.js], with its year. *)
Lemma convention_prefix (f : visit_file) (y m d : Z) (rest : string) :
  file_name f = (iso_date y m d ++ rest)%string -> (1000 <= y <= 9999)%Z ->
  ends_with ".md" (file_name f) = true ->
  substring 0 4 (file_name f) = fixed_width 4 y /\ accepted (file_name f) = true.
Proof.
  intros En Hy He.
  assert (Hsub : substring 0 4 (file_name f) = fixed_width 4 y).
  { rewrite En. unfold iso_date. rewrite !string_app_assoc.
    rewrite <- (length_fixed_width 4 y) at 1. apply substring_app_l. }
  split; [exact Hsub|]. unfold accepted. rewrite He, Hsub. unfold isNaN_string.
  destruct (year_digits y Hy) as [(q & Eq & _) _]. now rewrite Eq.
Qed.

(** The group of a key holds each element with that key. *)
Lemma group_of_In (key : item -> string) (k : string) (xs : list item) (x : item) :
  In x xs -> key x = k -> exists g, group_of key k xs = Some g /\ In x g.
Proof.
  intros Hx Hk. unfold group_of.
  assert (Hf : In x (filter (has_key key k) xs))
    by (apply filter_In; split; [exact Hx|unfold has_key; apply String.eqb_eq, Hk]).
  destruct (filter (has_key key k) xs) as [|a l]; [destruct Hf|]. now exists (a :: l).
Qed.

(** ** A file that follows the convention *)

Section Convention.
Context `{Hh : JsHost}.
(** The host's local time is UTC. *)
Hypothesis Hutc : forall t, local_tza t = 0%Z.

(** The glob [src/visits/*.md] selects the file. *)
Lemma convention_glob (f : visit_file) :
  follows_convention f -> glob_dir_md "src/visits" (inputPath (visit_item f)) = true.
Proof.
  intros (y & m & d & rest & En & _ & Hy & _ & Hs & He).
  unfold glob_dir_md. cbn [inputPath visit_item].
  change ("./" ++ "src/visits" ++ "/") with "./src/visits/". rewrite prefix_app.
  rewrite length_app, substring_app_r.
  replace (String.length "./src/visits/" + String.length (file_name f) - String.length "./src/visits/")%nat
    with (String.length (file_name f)) by lia.
  rewrite substring_all, Hs, He.
  destruct (year_digits y Hy) as [_ (c & r & Ec & Hc)].
  rewrite En. unfold iso_date. rewrite !string_app_assoc, Ec. cbn [append].
  rewrite prefix_dot by exact Hc. reflexivity.
Qed.

(** [years.js] keeps the file's four-digit year, which is also its key in
    [visitsByYear]. *)
Lemma convention_year (f : visit_file) :
  follows_convention f -> exists y, (1000 <= y <= 9999)%Z /\
    substring 0 4 (file_name f) = fixed_width 4 y /\ accepted (file_name f) = true /\
    year_key (visit_item f) = fixed_width 4 y.
Proof.
  intros (y & m & d & rest & En & Ed & Hy & Hv & _ & He). exists y.
  destruct (convention_prefix f y m d rest En Hy He) as [Hsub Hacc].
  split; [exact Hy|]. split; [exact Hsub|]. split; [exact Hacc|].
  unfold year_key, visit_time, getFullYear. cbn [data visit_item date]. rewrite Ed.
  rewrite new_Date_iso_date by (auto; lia). cbn [option_map].
  unfold YearFromTime. rewrite (local_civil Hutc) by exact Hv. cbn [fst]. now apply year_string.
Qed.
End Convention.

(** The glob [src/visits/*.md] skips a hidden file. *)
Lemma hidden_glob (f : visit_file) (r : string) :
  file_name f = String "." r -> glob_dir_md "src/visits" (inputPath (visit_item f)) = false.
Proof.
  intros Eh. unfold glob_dir_md. cbn [inputPath visit_item].
  change ("./" ++ "src/visits" ++ "/") with "./src/visits/". rewrite prefix_app.
  rewrite length_app, substring_app_r.
  replace (String.length "./src/visits/" + String.length (file_name f) - String.length "./src/visits/")%nat
    with (String.length (file_name f)) by lia.
  rewrite substring_all, Eh. cbn [String.prefix].
  destruct (Ascii.ascii_dec "." "."); [now destruct r|contradiction].
Qed.

(** A name [years.js] accepts contributes its prefix to the index. *)
Lemma years_In (files : list visit_file) (f : visit_file) :
  In f files -> accepted (file_name f) = true ->
  In (substring 0 4 (file_name f)) (years (store_dir files)).
Proof.
  intros Hin Hacc. unfold years. cbn [dir_exists dir_entries store_dir].
  eapply Permutation_in; [apply sort_perm|].
  destruct (fold_years_spec (map file_name files) [] (NoDup_nil _)) as [_ HmY].
  apply HmY. right. exists (file_name f). split; [now apply in_map|]. auto.
Qed.

(** ** The year index is [getYears(visitsByYear)] *)

Section Agreement.
Context `{Hh : JsHost} `{Hc : Collator}.
Hypothesis Hutc : forall t, local_tza t = 0%Z.

Lemma store_visits (files : list visit_file) :
  Forall follows_convention files -> getFilteredByGlob (store_api files) "src/visits" = map visit_item files.
Proof.
  intros Hf. apply filter_all_true. intros it Hit. apply in_map_iff in Hit as (f & <- & Hin).
  rewrite Forall_forall in Hf. now apply convention_glob, Hf.
Qed.

(** The keys of the grouping are the four-character prefixes of the
    names. *)
Lemma group_keys (files : list visit_file) (o : props (list item)) (k : string) :
  Forall follows_convention files ->
  (forall k, own_get k o = option_map (sort date_desc) (group_of year_key k (map visit_item files))) ->
  In k (map fst o) <-> exists f, In f files /\ k = substring 0 4 (file_name f).
Proof.
  intros Hf Hg. rewrite Forall_forall in Hf.
  assert (Hkeys : In k (map fst o) <-> own_get k o <> None).
  { split; intros H; [intros E; now apply own_get_None_keys in E|].
    destruct (in_dec string_dec k (map fst o)) as [|Hn]; [assumption|].
    exfalso. apply H. now apply own_get_None_keys. }
  rewrite Hkeys, Hg. unfold group_of.
  split.
  - intros Hn. destruct (filter (has_key year_key k) (map visit_item files)) as [|it l] eqn:E;
      [contradiction|].
    assert (Hit : In it (filter (has_key year_key k) (map visit_item files))) by (rewrite E; now left).
    apply filter_In in Hit as [Hit Hk]. apply in_map_iff in Hit as (f & <- & Hin).
    exists f. split; [exact Hin|]. unfold has_key in Hk. apply String.eqb_eq in Hk.
    destruct (convention_year Hutc f (Hf f Hin)) as (y & _ & Hs & _ & Hy). congruence.
  - intros (f & Hin & ->).
    assert (Hit : In (visit_item f) (filter (has_key year_key (substring 0 4 (file_name f)))
                                            (map visit_item files))).
    { apply filter_In. split; [now apply in_map|]. unfold has_key. apply String.eqb_eq.
      destruct (convention_year Hutc f (Hf f Hin)) as (y & _ & Hs & _ & Hy). congruence. }
    destruct (filter _ _); [destruct Hit|]. discriminate.
Qed.

(** Two distinct four-digit years are apart in the order of the index. *)
Lemma years_antisym (files : list visit_file) (a b : string) :
  Forall follows_convention files ->
  (exists f, In f files /\ a = substring 0 4 (file_name f)) ->
  (exists f, In f files /\ b = substring 0 4 (file_name f)) ->
  not_above a b -> not_above b a -> a = b.
Proof.
  rewrite Forall_forall. intros Hf (fa & Ha & ->) (fb & Hb & ->).
  destruct (convention_year Hutc fa (Hf fa Ha)) as (ya & Hya & -> & _).
  destruct (convention_year Hutc fb (Hf fb Hb)) as (yb & Hyb & -> & _).
  destruct (year_digits ya Hya) as [(qa & Ea & Qa) _], (year_digits yb Hyb) as [(qb & Eb & Qb) _].
  unfold not_above. rewrite Ea, Eb. cbn [num_compare]. intros H1 H2.
  assert (Hq : (qa == qb)%Q).
  { apply Qeq_alt. destruct (Qcompare qa qb) eqn:E; [reflexivity| |contradiction].
    rewrite <- Qcompare_antisym, E in H1. contradiction. }
  assert (ya = yb) as -> by (apply inject_Z_injective; rewrite <- Qa, <- Qb; exact Hq).
  reflexivity.
Qed.

(** A year of the index or a key of the grouping is a number. *)
Lemma prefix_not_nan (files : list visit_file) (k : string) :
  Forall follows_convention files ->
  (exists f, In f files /\ k = substring 0 4 (file_name f)) -> isNaN_string k = false.
Proof.
  rewrite Forall_forall. intros Hf (f & Hin & ->).
  destruct (convention_year Hutc f (Hf f Hin)) as (y & Hy & -> & _).
  destruct (year_digits y Hy) as [(q & Eq & _) _]. unfold isNaN_string. now rewrite Eq.
Qed.

(** [C12] On a host in UTC, when every file of the visits directory
    follows the identifier convention, [visitsByYear] succeeds and the
    years [getYears] lists from it are exactly the year index of
    [years.js], in the same order. *)
Theorem years_getYears (files : list visit_file) :
  Forall follows_convention files ->
  exists o, visitsByYear (store_api files) = Ok o /\ getYears o = years (store_dir files).
Proof.
  intros Hf.
  destruct (grouped_spec year_key (map visit_item files) (fun x _ => year_key_not_inherited x))
    as (o & E & Hnd & _ & Hg).
  exists o. split; [unfold visitsByYear; rewrite store_visits by exact Hf; exact E|].
  unfold getYears, years. cbn [dir_exists dir_entries store_dir].
  destruct (fold_years_spec (map file_name files) [] (NoDup_nil _)) as [HnY HmY].
  set (Y := fold_left years_step (map file_name files) []) in *.
  assert (HK : forall k, In k (own_keys o) <-> exists f, In f files /\ k = substring 0 4 (file_name f)).
  { intros k. rewrite <- (group_keys files o k Hf Hg).
    split; apply Permutation_in; [|symmetry]; apply own_keys_perm. }
  assert (HY : forall k, In k Y <-> exists f, In f files /\ k = substring 0 4 (file_name f)).
  { intros k. rewrite HmY. rewrite Forall_forall in Hf. split.
    - intros [[]|(n & Hn & _ & ->)]. apply in_map_iff in Hn as (f & <- & Hin). eauto.
    - intros (f & Hin & ->). right. exists (file_name f). split; [now apply in_map|].
      destruct (convention_year Hutc f (Hf f Hin)) as (y & _ & _ & Ha & _). auto. }
  assert (Hsorted : forall l, (forall k, In k l <-> exists f, In f files /\ k = substring 0 4 (file_name f)) ->
            StronglySorted not_above (sort desc_numeric l)).
  { intros l Hl. apply sort_desc_numeric_sorted. intros k Hk. apply (prefix_not_nan files); auto.
    now apply Hl. }
  apply (StronglySorted_perm_eq not_above); [| apply Hsorted, HK | apply Hsorted, HY |].
  - intros a b Ha Hb. apply (Permutation_in _ (Permutation_sym (sort_perm _ _))) in Ha, Hb.
    apply (years_antisym files); [exact Hf|now apply HK|now apply HK].
  - eapply Permutation_trans; [symmetry; apply sort_perm|].
    eapply Permutation_trans; [|apply sort_perm].
    apply NoDup_Permutation; [eapply Permutation_NoDup; [symmetry; apply own_keys_perm|exact Hnd]|exact HnY|].
    intros k. rewrite HK, HY. reflexivity.
Qed.
(** [C13] A hidden file of the visits directory ([.YYYY-...md]) breaks
    the agreement of [C12]: the glob [src/visits/*.md] skips it, so
    [visitsByYear] is what it is without the file, but [years.js] still
    lists its first four characters (such as ".202", for which [isNaN] is
    false) as a year, which no key of [visitsByYear] is when the other
    files follow the convention. *)
Theorem years_hidden_file (files : list visit_file) (h : visit_file) (r : string) :
  Forall follows_convention files -> file_name h = String "." r -> accepted (file_name h) = true ->
  visitsByYear (store_api (h :: files)) = visitsByYear (store_api files) /\
  In (substring 0 4 (file_name h)) (years (store_dir (h :: files))) /\
  exists o, visitsByYear (store_api (h :: files)) = Ok o /\
            ~ In (substring 0 4 (file_name h)) (getYears o).
Proof.
  intros Hf Eh Hacc.
  assert (Hskip : visitsByYear (store_api (h :: files)) = visitsByYear (store_api files)).
  { unfold visitsByYear, getFilteredByGlob. cbn [store_api all_sorted map filter].
    rewrite (hidden_glob h r Eh). reflexivity. }
  split; [exact Hskip|]. split; [apply years_In; [now left|exact Hacc]|].
  destruct (grouped_spec year_key (visit_items (store_api files)) (fun x _ => year_key_not_inherited x))
    as (o & E & _ & _ & Hg).
  exists o. split; [rewrite Hskip; exact E|]. intros Hin.
  unfold visit_items in Hg. rewrite store_visits in Hg by exact Hf.
  unfold getYears in Hin. apply (Permutation_in _ (Permutation_sym (sort_perm _ _))) in Hin.
  apply (Permutation_in _ (own_keys_perm o)) in Hin.
  apply (group_keys files o _ Hf Hg) in Hin as (f & Hinf & Ek).
  rewrite Forall_forall in Hf.
  destruct (convention_year Hutc f (Hf f Hinf)) as (y & Hy & Hs & _).
  destruct (year_digits y Hy) as [_ (c & r' & Ec & Hdot)].
  rewrite Hs, Ec, Eh in Ek. cbn in Ek. inv Ek. now apply Hdot.
Qed.
End Agreement.

(** ** West of UTC *)

Section WestOfUtc.
Context `{Hh : JsHost}.
(** The host's local time is behind UTC by less than a day. *)
Hypothesis Hwest : forall t, (- msPerDay < local_tza t < 0)%Z.

(** [C8] West of UTC a visit is grouped by the local year of UTC
    midnight of its date: a visit whose file follows the convention and
    is dated January 1st of [y] is in the group of the year [y - 1] of
    [visitsByYear], while [years.js] lists [y] from its name. *)
Theorem visitsByYear_key_west_of_utc (files : list visit_file) (f : visit_file) (y m d : Z) (rest : string) :
  In f files -> file_name f = (iso_date y m d ++ rest)%string -> file_date f = DateString (iso_date y m d) ->
  (1001 <= y <= 9999)%Z -> valid_date y m d = true -> string_has "/" (file_name f) = false ->
  ends_with ".md" (file_name f) = true ->
  In (number_to_string (Some y)) (years (store_dir files)) /\
  exists o g, visitsByYear (store_api files) = Ok o /\
    own_get (number_to_string (Some (if (m =? 1) && (d =? 1) then y - 1 else y)%Z)) o = Some g /\
    In (visit_item f) g.
Proof.
  intros Hin En Ed Hy Hv Hs He. destruct (valid_date_ranges _ _ _ Hv) as [Hm Hd].
  destruct (convention_prefix f y m d rest En ltac:(lia) He) as [Hsub Hacc].
  split; [rewrite year_string, <- Hsub by lia; now apply years_In|].
  destruct (grouped_spec year_key (visit_items (store_api files)) (fun x _ => year_key_not_inherited x))
    as (o & E & _ & _ & Hg).
  assert (Hk : year_key (visit_item f) = number_to_string (Some (if (m =? 1) && (d =? 1) then y - 1 else y)%Z)).
  { unfold year_key, visit_time, getFullYear. cbn [data visit_item date].
    rewrite Ed, new_Date_iso_date by (auto; lia). cbn [option_map]. unfold YearFromTime.
    rewrite (local_civil_west y m d Hwest Hv), prev_day_fst by lia. reflexivity. }
  assert (Hx : In (visit_item f) (visit_items (store_api files))).
  { apply filter_In. split; [now apply in_map|]. apply convention_glob.
    exists y, m, d, rest. repeat split; auto; lia. }
  destruct (group_of_In year_key _ _ _ Hx Hk) as (g & Eg & Hig).
  exists o, (sort date_desc g). split; [exact E|]. split; [rewrite Hg, Eg; reflexivity|].
  eapply Permutation_in; [apply sort_perm|exact Hig].
Qed.
End WestOfUtc.

(** ** Witnesses *)

Definition sample_store : list visit_file :=
  [{| file_name := "2024-01-05-louvre.md"; file_date := DateString "2024-01-05"; file_place := "louvre" |};
   {| file_name := "2023-05-01-orsay.md"; file_date := DateString "2023-05-01"; file_place := "orsay" |};
   {| file_name := "2024-12-31-flore.md"; file_date := DateString "2024-12-31"; file_place := "flore" |}].

Lemma sample_store_convention : Forall follows_convention sample_store.
Proof.
  repeat constructor.
  - exists 2024%Z, 1%Z, 5%Z, "-louvre.md". repeat split; vm_compute; congruence.
  - exists 2023%Z, 5%Z, 1%Z, "-orsay.md". repeat split; vm_compute; congruence.
  - exists 2024%Z, 12%Z, 31%Z, "-flore.md". repeat split; vm_compute; congruence.
Qed.

Lemma years_getYears_witness :
  exists o, visitsByYear (Hh := utc_host) (store_api sample_store) = Ok o /\
            getYears o = years (store_dir sample_store).
Proof.
  apply (years_getYears (Hh := utc_host) (fun _ => eq_refl)). exact sample_store_convention.
Defined.

Definition hidden_visit : visit_file :=
  {| file_name := ".2024-01-05-louvre.md"; file_date := DateString "2024-01-05"; file_place := "louvre" |}.

Lemma years_hidden_file_witness :
  visitsByYear (Hh := utc_host) (store_api (hidden_visit :: sample_store))
    = visitsByYear (Hh := utc_host) (store_api sample_store) /\
  In (substring 0 4 (file_name hidden_visit)) (years (store_dir (hidden_visit :: sample_store))) /\
  exists o, visitsByYear (Hh := utc_host) (store_api (hidden_visit :: sample_store)) = Ok o /\
            ~ In (substring 0 4 (file_name hidden_visit)) (getYears o).
Proof.
  apply (years_hidden_file (Hh := utc_host) (fun _ => eq_refl) sample_store hidden_visit "2024-01-05-louvre.md").
  - exact sample_store_convention.
  - reflexivity.
  - vm_compute. reflexivity.
Defined.

Definition new_year_visit : visit_file :=
  {| file_name := "2024-01-01-louvre.md"; file_date := DateString "2024-01-01"; file_place := "louvre" |}.

Lemma visitsByYear_key_west_of_utc_witness :
  In (number_to_string (Some 2024%Z)) (years (store_dir [new_year_visit])) /\
  exists o g, visitsByYear (Hh := eastern_host) (store_api [new_year_visit]) = Ok o /\
    own_get (number_to_string (Some (if (1 =? 1) && (1 =? 1) then 2024 - 1 else 2024)%Z)) o = Some g /\
    In (visit_item new_year_visit) g.
Proof.
  apply (visitsByYear_key_west_of_utc (Hh := eastern_host)
           ltac:(intros t; cbn; unfold msPerDay; lia) [new_year_visit] new_year_visit 2024 1 1 "-louvre.md").
  - now left.
  - vm_compute. reflexivity.
  - reflexivity.
  - lia.
  - reflexivity.
  - vm_compute. reflexivity.
  - vm_compute. reflexivity.
Defined.
