(* ===== verification/Select.v ===== *)
(** * Select: the file selection of [src/scripts/compress-assets.ts]

    The compression script compresses either the image files staged in
    git ([--staged]) or every image file under [assets/].  This file
    models:
    - Node's [path.extname] (the algorithm of Node's [path.posix]),
      [path.join] of a normalized directory and a name (shown to be
      Node's [path.join] on these calls in [NodePath]), ASCII
      [toLowerCase], and [IMAGE_EXTENSIONS.includes];
    - [getStagedImageFiles] (lines 34-53) on the output of
      [git diff --cached --name-only], [None] when [execSync] throws;
    - the directory tree that [readdirSync] lists and the recursive walk
      [getAllImageFiles] (lines 55-69), which pushes onto one array shared
      by every recursive call: the model threads that array as state.
    The theorems: the walk returns the image files of a well-formed tree
    in walk order, each once; the staged filter keeps exactly the image
    files under [assets/], and nothing when [git] fails. *)

From Stdlib Require Import Ascii.
From S2P Require Import Prelude JsNumber.
Local Open Scope string_scope.
Local Open Scope Z_scope.

(** ** Paths *)

Definition ascii_lower (c : ascii) : ascii :=
  let n := nat_of_ascii c in
  if (65 <=? n)%nat && (n <=? 90)%nat then ascii_of_nat (n + 32) else c.

(** [String.prototype.toLowerCase] on ASCII. *)
Definition to_lower (s : string) : string :=
  string_of_list_ascii (map ascii_lower (list_ascii_of_string s)).

(** The scan of Node's [path.posix.extname], from the last character to
    the first: [startDot] is the last dot of the last path segment,
    [startPart] the start of that segment, [end] one past its last
    character (trailing slashes skipped), and [preDotState] records what
    lies before the dot: nothing (0), a dot (1), something else (-1). *)
Record ext_scan := {
  startDot : Z; startPart : Z; end_ : Z; matchedSlash : bool; preDotState : Z
}.

Fixpoint extname_scan (i : Z) (rev_chars : list ascii) (st : ext_scan) : ext_scan :=
  match rev_chars with
  | [] => st
  | c :: rest =>
      if (c =? "/")%char then
        if negb (matchedSlash st) then
          {| startDot := startDot st; startPart := i + 1; end_ := end_ st;
             matchedSlash := matchedSlash st; preDotState := preDotState st |}
        else extname_scan (i - 1) rest st
      else
        let st1 := if (end_ st =? -1)%Z
                   then {| startDot := startDot st; startPart := startPart st; end_ := i + 1;
                           matchedSlash := false; preDotState := preDotState st |}
                   else st in
        let st2 :=
          if (c =? ".")%char then
            if (startDot st1 =? -1)%Z
            then {| startDot := i; startPart := startPart st1; end_ := end_ st1;
                    matchedSlash := matchedSlash st1; preDotState := preDotState st1 |}
            else if negb (preDotState st1 =? 1)%Z
            then {| startDot := startDot st1; startPart := startPart st1; end_ := end_ st1;
                    matchedSlash := matchedSlash st1; preDotState := 1 |}
            else st1
          else if negb (startDot st1 =? -1)%Z
          then {| startDot := startDot st1; startPart := startPart st1; end_ := end_ st1;
                  matchedSlash := matchedSlash st1; preDotState := -1 |}
          else st1 in
        extname_scan (i - 1) rest st2
  end%Z.

(** [path.extname(p)]. *)
Definition extname (p : string) : string :=
  let n := Z.of_nat (String.length p) in
  let st := extname_scan (n - 1) (rev (list_ascii_of_string p))
              {| startDot := -1; startPart := 0; end_ := -1; matchedSlash := true;
                 preDotState := 0 |} in
  if (startDot st =? -1) || (end_ st =? -1) || (preDotState st =? 0) ||
     ((preDotState st =? 1) && (startDot st =? end_ st - 1) && (startDot st =? startPart st + 1))
  then ""
  else substring (Z.to_nat (startDot st)) (Z.to_nat (end_ st - startDot st)) p.

(** [path.join(dir, name)] for a normalized directory without a trailing
    slash and a normalized relative path, the only calls of the script. *)
Definition join (dir name : string) : string := dir ++ "/" ++ name.

Definition IMAGE_EXTENSIONS : list string := [".jpg"; ".jpeg"; ".png"; ".webp"].

(** [IMAGE_EXTENSIONS.includes(extname(name).toLowerCase())] *)
Definition is_image (name : string) : bool :=
  existsb (String.eqb (to_lower (extname name))) IMAGE_EXTENSIONS.

(** ** [getStagedImageFiles] (lines 34-53) *)

(** [s.split(c)] for a one-character separator: the empty string splits
    into one empty piece. *)
Fixpoint split_on (c : ascii) (s : string) : list string :=
  match s with
  | EmptyString => [""]
  | String x r =>
      if (x =? c)%char then "" :: split_on c r
      else match split_on c r with
           | h :: t => String x h :: t
           | [] => [String x ""]
           end
  end.

(** The test of line 45-47 on one name of the [git] output. *)
Definition staged_image (file : string) : bool :=
  if String.eqb file "" || negb (String.prefix "assets/" file) then false else is_image file.

(** [root] is [dirname(ASSETS_DIR)]; [git_output] is what
    [execSync('git diff --cached --name-only --diff-filter=ACM')] returns,
    [None] when it throws (no git, not a repository), which the [catch]
    turns into no file. *)
Definition getStagedImageFiles (root : string) (git_output : option string) : list string :=
  match git_output with
  | None => []
  | Some output => map (join root) (filter staged_image (split_on "010" (trim output)))
  end.

(** ** [getAllImageFiles] (lines 55-69) *)

(** An entry that [readdirSync(dir, { withFileTypes: true })] lists: a
    directory with its entries, in the order the file system gives them;
    a directory that [readdirSync] cannot read, with the reason it gives
    ([EACCES: permission denied]); or anything else, which the walk
    treats as a file. *)
#[local] Set Warnings "-register-all".
Inductive entry :=
| FileEntry (name : string)
| DirEntry (name : string) (children : list entry)
| UnreadableDir (name : string) (reason : string).

(** What [readdirSync(dir)] gives for the directory the walk starts
    from: its entries, or the reason it throws ([ENOTDIR: not a
    directory] when [assets] is a file). *)
Inductive listing :=
| Listed (es : list entry)
| Unlisted (reason : string).

Definition entry_name (e : entry) : string :=
  match e with FileEntry n | DirEntry n _ | UnreadableDir n _ => n end.

(** The error [readdirSync] throws: [<reason>, scandir '<path>']. *)
Definition scandir_error (reason path : string) : js_error :=
  SystemError (reason ++ ", scandir '" ++ path ++ "'").

Definition readdir (dir : string) (l : listing) : js_result (list entry) :=
  match l with
  | Listed es => Ok es
  | Unlisted reason => Throw (scandir_error reason dir)
  end.

(** One iteration of the [for] loop on the entry [e] of [dir]: a
    directory is walked by the recursive call, which pushes onto the same
    array [files] and whose [readdirSync] may throw out of the whole
    walk; an image file is pushed. *)
Fixpoint visit (dir : string) (e : entry) (files : list string) : js_result (list string) :=
  match e with
  | FileEntry name => Ok (if is_image name then files ++ [join dir name] else files)%list
  | DirEntry name children =>
      (fix loop (es : list entry) (acc : list string) : js_result (list string) :=
         match es with
         | [] => Ok acc
         | e' :: es' => acc' <- visit (join dir name) e' acc ;; loop es' acc'
         end) children files
  | UnreadableDir name reason => Throw (scandir_error reason (join dir name))
  end.

(** The loop over the entries of one directory: a throw leaves the loop. *)
Definition for_entries (dir : string) (es : list entry) (files : list string) : js_result (list string) :=
  fold_left (fun acc e => acc' <- acc ;; visit dir e acc') es (Ok files).

(** [getAllImageFiles(dir, files)]: the final contents of the shared
    array [files], or what [readdirSync] throws. *)
Definition getAllImageFiles (dir : string) (l : listing) (files : list string) : js_result (list string) :=
  es <- readdir dir l ;; for_entries dir es files.

(** The image files of a tree, in the walk's order: the specification of
    the walk when it does not throw. *)
Fixpoint image_paths (dir : string) (e : entry) : list string :=
  match e with
  | FileEntry name => if is_image name then [join dir name] else []
  | DirEntry name children => flat_map (image_paths (join dir name)) children
  | UnreadableDir _ _ => []
  end.

(** The first result of [f] on a list. *)
Fixpoint first_some {A B} (f : A -> option B) (l : list A) : option B :=
  match l with
  | [] => None
  | x :: l' => match f x with Some y => Some y | None => first_some f l' end
  end.

(** The error of the first unreadable directory in the walk's order. *)
Fixpoint walk_error (dir : string) (e : entry) : option js_error :=
  match e with
  | FileEntry _ => None
  | DirEntry name children => first_some (walk_error (join dir name)) children
  | UnreadableDir name reason => Some (scandir_error reason (join dir name))
  end.

(** Induction on trees, with the hypothesis on every child. *)
Fixpoint entry_ind' (P : entry -> Prop) (Hf : forall n, P (FileEntry n))
    (Hd : forall n cs, Forall P cs -> P (DirEntry n cs))
    (Hu : forall n r, P (UnreadableDir n r)) (e : entry) : P e :=
  match e with
  | FileEntry n => Hf n
  | DirEntry n cs =>
      Hd n cs ((fix go (cs : list entry) : Forall P cs :=
                  match cs with
                  | [] => Forall_nil P
                  | c :: cs' => Forall_cons c (entry_ind' P Hf Hd Hu c) (go cs')
                  end) cs)
  | UnreadableDir n r => Hu n r
  end.

(** A name read from a directory has no slash. *)
Definition no_slash (s : string) : Prop := ~ In "/"%char (list_ascii_of_string s).

(** A well-formed tree: names without slashes, distinct within each
    directory, as a file system lists them. *)
Fixpoint wf_entry (e : entry) : Prop :=
  match e with
  | FileEntry n | UnreadableDir n _ => no_slash n
  | DirEntry n cs =>
      no_slash n /\ NoDup (map entry_name cs) /\
      (fix all (cs : list entry) : Prop :=
         match cs with [] => True | c :: cs' => wf_entry c /\ all cs' end) cs
  end.

(** What may follow a name in a path: nothing, or a separator. *)
Definition seg_end (r : string) : Prop := r = "" \/ exists r', r = String "/" r'.

(** A throw passes through the rest of the loop. *)
Lemma for_entries_throw (dir : string) (es : list entry) (err : js_error) :
  fold_left (fun acc e => acc' <- acc ;; visit dir e acc') es (Throw err) = Throw err.
Proof. induction es; simpl; auto. Qed.

(** The loop inside [visit] is [for_entries] on the subdirectory. *)
Lemma visit_dir (dir n : string) (cs : list entry) (files : list string) :
  visit dir (DirEntry n cs) files = for_entries (join dir n) cs files.
Proof.
  unfold for_entries. cbn [visit]. revert files.
  induction cs as [|c cs IH]; intros files; [reflexivity|]. cbn [fold_left js_bind].
  destruct (visit (join dir n) c files) as [acc|err]; [apply IH|].
  symmetry. apply for_entries_throw.
Qed.

(** The walk of one entry: the error of its first unreadable directory,
    or the shared array extended with its image files. *)
Definition walk_spec (dir : string) (e : entry) (files : list string) : js_result (list string) :=
  match walk_error dir e with
  | Some err => Throw err
  | None => Ok (files ++ image_paths dir e)%list
  end.

Lemma for_entries_gen (dir : string) (es : list entry) :
  Forall (fun e => forall files, visit dir e files = walk_spec dir e files) es ->
  forall files, for_entries dir es files =
    match first_some (walk_error dir) es with
    | Some err => Throw err
    | None => Ok (files ++ flat_map (image_paths dir) es)%list
    end.
Proof.
  unfold for_entries. induction 1 as [|e es He _ IH]; intros files; cbn [fold_left js_bind first_some flat_map].
  - now rewrite app_nil_r.
  - rewrite He. unfold walk_spec. destruct (walk_error dir e) as [err|].
    + apply for_entries_throw.
    + rewrite IH, app_assoc. reflexivity.
Qed.

Lemma visit_spec (e : entry) : forall dir files, visit dir e files = walk_spec dir e files.
Proof.
  induction e as [n|n cs IH|n r] using entry_ind'; intros dir files; unfold walk_spec; cbn [walk_error image_paths].
  - cbn [visit]. destruct (is_image n); [reflexivity|now rewrite app_nil_r].
  - rewrite visit_dir, for_entries_gen; [reflexivity|].
    rewrite Forall_forall in IH |- *. intros c Hc. now apply IH.
  - reflexivity.
Qed.

Lemma for_entries_spec (dir : string) (es : list entry) (files : list string) :
  for_entries dir es files =
    match first_some (walk_error dir) es with
    | Some err => Throw err
    | None => Ok (files ++ flat_map (image_paths dir) es)%list
    end.
Proof. apply for_entries_gen. apply Forall_forall. intros e _ f. apply visit_spec. Qed.

Lemma wf_children (n : string) (cs : list entry) :
  wf_entry (DirEntry n cs) -> no_slash n /\ NoDup (map entry_name cs) /\ Forall wf_entry cs.
Proof.
  simpl. intros (Hn & Hd & Hall). repeat split; auto. clear Hn Hd.
  induction cs as [|c cs IH]; [constructor|]. destruct Hall. constructor; auto.
Qed.

Lemma wf_names (cs : list entry) : Forall wf_entry cs -> Forall no_slash (map entry_name cs).
Proof.
  intros H. apply Forall_map. eapply Forall_impl; [|exact H]. intros [n|n cs'|n r] Hw; simpl in *; tauto.
Qed.

Lemma segment_eq (n1 n2 r1 r2 : string) :
  no_slash n1 -> no_slash n2 -> seg_end r1 -> seg_end r2 ->
  (n1 ++ r1)%string = (n2 ++ r2)%string -> n1 = n2.
Proof.
  revert n2. induction n1 as [|a n1 IH]; intros [|b n2] H1 H2 E1 E2 E; simpl in *; auto.
  - exfalso. destruct E1 as [->|[r ->]]; [discriminate|]. injection E as <- _.
    apply H2. now left.
  - exfalso. destruct E2 as [->|[r ->]]; [discriminate|]. injection E as -> _.
    apply H1. now left.
  - injection E as -> E. f_equal.
    apply (IH n2); [intros Hin; apply H1; now right|intros Hin; apply H2; now right|auto..].
Qed.

Lemma image_paths_shape (e : entry) : forall dir p, In p (image_paths dir e) ->
  exists r, p = (dir ++ "/" ++ entry_name e ++ r)%string /\ seg_end r.
Proof.
  induction e as [n|n cs IH|n r] using entry_ind'; intros dir p Hp; simpl in Hp; [| |contradiction].
  - destruct (is_image n); [|contradiction]. destruct Hp as [<-|[]].
    exists "". split; [unfold join; now rewrite string_app_nil_r|now left].
  - apply in_flat_map in Hp as (c & Hc & Hp). rewrite Forall_forall in IH.
    destruct (IH c Hc _ _ Hp) as (r & -> & _). exists ("/" ++ entry_name c ++ r)%string.
    split; [unfold join; now rewrite !string_app_assoc|right; eexists; reflexivity].
Qed.

(** The image paths under distinct names of one directory are distinct. *)
Lemma children_nodup (dir : string) (cs : list entry) :
  NoDup (map entry_name cs) -> Forall no_slash (map entry_name cs) ->
  (forall c, In c cs -> NoDup (image_paths dir c)) -> NoDup (flat_map (image_paths dir) cs).
Proof.
  intros Hd Hs Hc. apply NoDup_flat_map; [eapply NoDup_map_inv; exact Hd|exact Hc|].
  intros x y p Hx Hy Hxy Hpx Hpy. apply Hxy.
  destruct (image_paths_shape x _ _ Hpx) as (rx & Ex & Sx).
  destruct (image_paths_shape y _ _ Hpy) as (ry & Ey & Sy). rewrite Ex in Ey.
  rewrite Forall_forall in Hs.
  apply string_app_inv_l, string_app_inv_l, segment_eq in Ey; auto; try (apply Hs, in_map; auto).
  apply (NoDup_map_inj_in _ _ _ _ Hd Hx Hy Ey).
Qed.

Lemma image_paths_nodup (e : entry) : wf_entry e -> forall dir, NoDup (image_paths dir e).
Proof.
  induction e as [n|n cs IH|n r] using entry_ind'; intros Hw dir; simpl; [| |constructor].
  - destruct (is_image n); repeat constructor. intros [].
  - apply wf_children in Hw as (_ & Hd & Hall).
    apply children_nodup; [exact Hd|now apply wf_names|].
    rewrite Forall_forall in IH, Hall. intros c Hc. now apply IH, Hall.
Qed.

(** ** The file selection *)

(** [C33] [getAllImageFiles(dir)] on a directory that lists the entries
    [es]: when the walk reaches a directory it cannot read, it throws that
    directory's [scandir] error, the first in the walk's order, out of
    the whole walk; otherwise it returns the image files of the tree in
    the walk's order, and on a well-formed tree (names without slashes,
    distinct in each directory) each of them once. *)
Theorem getAllImageFiles_spec (dir : string) (es : list entry) :
  getAllImageFiles dir (Listed es) [] =
    match first_some (walk_error dir) es with
    | Some err => Throw err
    | None => Ok (flat_map (image_paths dir) es)
    end /\
  (NoDup (map entry_name es) -> Forall wf_entry es -> NoDup (flat_map (image_paths dir) es)).
Proof.
  split; [apply for_entries_spec|]. intros Hd Hw.
  apply children_nodup; [exact Hd|now apply wf_names|].
  rewrite Forall_forall in Hw. intros c Hc. now apply image_paths_nodup, Hw.
Qed.
(** [C34] [getStagedImageFiles] keeps exactly the lines of the [git]
    output under [assets/] with an image extension, joined to the
    repository root, and gives no file when [git] fails. *)
Theorem getStagedImageFiles_spec (root output p : string) :
  (In p (getStagedImageFiles root (Some output)) <->
   exists file, In file (split_on "010" (trim output)) /\ String.prefix "assets/" file = true /\
                is_image file = true /\ p = join root file) /\
  getStagedImageFiles root None = [].
Proof.
  split; [|reflexivity]. simpl. rewrite in_map_iff.
  split; intros (file & H1 & H2).
  - apply filter_In in H2 as [Hin Hs]. exists file. unfold staged_image in Hs.
    destruct (String.eqb file ""), (String.prefix "assets/" file); simpl in Hs; try discriminate.
    auto.
  - destruct H2 as (Hp & Hi & ->). exists file. split; [reflexivity|]. apply filter_In.
    split; [exact H1|]. unfold staged_image. rewrite Hp, Hi.
    destruct (String.eqb_spec file ""); [subst; discriminate|reflexivity].
Qed.

(** ** Witnesses *)

Definition sample_tree : list entry :=
  [DirEntry "2024" [FileEntry "louvre.JPG"; FileEntry "notes.txt"; FileEntry "map.png"];
   FileEntry "logo.webp"; FileEntry ".gitkeep"].

Lemma getAllImageFiles_spec_witness :
  getAllImageFiles "/site/assets" (Listed sample_tree) [] =
    Ok ["/site/assets/2024/louvre.JPG"; "/site/assets/2024/map.png"; "/site/assets/logo.webp"] /\
  getAllImageFiles "/site/assets" (Listed (DirEntry "private" [] :: UnreadableDir "raw" "EACCES: permission denied" :: sample_tree)) [] =
    Throw (SystemError "EACCES: permission denied, scandir '/site/assets/raw'") /\
  NoDup (flat_map (image_paths "/site/assets") sample_tree).
Proof.
  split; [|split].
  - rewrite (proj1 (getAllImageFiles_spec "/site/assets" sample_tree)). vm_compute. reflexivity.
  - rewrite (proj1 (getAllImageFiles_spec "/site/assets" _)). vm_compute. reflexivity.
  - apply (proj2 (getAllImageFiles_spec "/site/assets" sample_tree)).
    + repeat constructor; simpl; intuition discriminate.
    + repeat constructor; simpl; unfold no_slash; simpl; intuition discriminate.
Defined.
