(* ===== verification/Compress.v ===== *)
(** * Compress: [compressImages] of [src/scripts/compress-assets.ts]

    The script compresses JPEG files with mozjpeg and PNG files with
    pngquant in place and reports counts and sizes.  This file models
    [compressImages] (lines 71-159) over an explicit file system (path to
    size), the compressors being a host function that gives the new size
    or throws; each iteration ([compress_step]) also gives the line its
    [catch] prints on [stderr], and the loop collects them in order; the file selection is in [Select], [main] in [Script].
    The theorems: every file is counted once, the totals are the sums of
    the reports, the reports are accurate for distinct paths, only listed
    JPEG and PNG files change; the [Error compressing] lines are those
    of a subsequence of the listed paths, one per failure, each with an
    error of its own file; WebP files are reported but never compressed,
    and a path listed twice over-counts the saved bytes, for every
    compressor.  Sizes are integers (a file size is far below 2^53, so the binary64
    sums of the code are exact). *)

From Stdlib Require Import Ascii.
From S2P Require Import Prelude JsObject JsNumber Select.
Local Open Scope string_scope.
Local Open Scope Z_scope.

(** ** [compressImages] (lines 71-159) *)

Inductive plugin := Mozjpeg | Pngquant.

(** The compressors: [imagemin] with the given plugins on a file of the
    given size writes the file back with a new size, or throws. *)
Class ImageTools := { imagemin_size : list plugin -> string -> Z -> js_result Z }.

(** The file system: the size of each existing file ([existsSync],
    [statSync(p).size]). *)
Definition file_system := props Z.

Record file_report := { path : string; original : Z; compressed : Z; saved : Z }.

(** [interface CompressionResult] *)
Record CompressionResult := {
  successCount : Z; failCount : Z; totalOriginal : Z; totalCompressed : Z;
  files : list file_report
}.

Definition empty_result : CompressionResult :=
  {| successCount := 0; failCount := 0; totalOriginal := 0; totalCompressed := 0; files := [] |}.

(** [path.relative(base, p)] for [p] under [base]; the script only passes
    such paths (line 143). *)
Definition relative (base p : string) : string :=
  let pre := (base ++ "/")%string in
  if String.prefix pre p then substring (String.length pre) (String.length p - String.length pre) p
  else p.

(** Lines 111-129: mozjpeg for [.jpg] and [.jpeg], pngquant for [.png]. *)
Definition plugins_for (ext : string) : list plugin :=
  ((if existsb (String.eqb ext) [".jpg"; ".jpeg"] then [Mozjpeg] else [])
   ++ (if existsb (String.eqb ext) [".png"] then [Pngquant] else []))%list.

(** Lines 97-103: the sizes of the existing files, in a plain object. *)
Definition original_sizes (filePaths : list string) (fs : file_system) : props Z :=
  fold_left (fun o p => match own_get p fs with Some n => own_set p n o | None => o end) filePaths [].

(** [failCount++] in the [catch] (lines 152-155). *)
Definition count_failure (r : CompressionResult) : CompressionResult :=
  {| successCount := successCount r; failCount := failCount r + 1;
     totalOriginal := totalOriginal r; totalCompressed := totalCompressed r; files := files r |}.

(** Lines 142-151: the report and the counters of a compressed file. *)
Definition record_success (assets_dir filePath : string) (originalSize compressedSize : Z)
    (r : CompressionResult) : CompressionResult :=
  {| successCount := successCount r + 1; failCount := failCount r;
     totalOriginal := totalOriginal r + originalSize;
     totalCompressed := totalCompressed r + compressedSize;
     files := (files r ++ [{| path := relative assets_dir filePath; original := originalSize;
                             compressed := compressedSize;
                             saved := originalSize - compressedSize |}])%list |}.

Section Compression.
Context `{Ht : ImageTools}.
Variable ASSETS_DIR : string.

(** [await imagemin([filePath], {destination: dir, plugins})]: a path
    that matches no file is no work. *)
Definition run_imagemin (plugins : list plugin) (filePath : string) (fs : file_system)
    : js_result file_system :=
  match own_get filePath fs with
  | Some size => n <- imagemin_size plugins filePath size ;; Ok (own_set filePath n fs)
  | None => Ok fs
  end.

(** The error [statSync(filePath)] throws for a missing file. *)
Definition stat_error (filePath : string) : js_error :=
  SystemError ("ENOENT: no such file or directory, stat '" ++ filePath ++ "'").

(** [console.error(`Error compressing ${filePath}:`, message)], line 153:
    the two arguments are printed separated by a space. *)
Definition error_line (filePath : string) (e : js_error) : string :=
  "Error compressing " ++ filePath ++ ": " ++ error_message e.

(** One iteration of the loop of lines 106-156: the file system and the
    counters after it, and the lines it prints on [stderr].  The [try]
    block either compresses (when a plugin applies) and reads the new
    size, or throws; the [catch] prints the error and counts a failure. *)
Definition compress_step (originalSizes : props Z) (st : file_system * CompressionResult)
    (filePath : string) : (file_system * CompressionResult) * list string :=
  let '(fs, r) := st in
  let plugins := plugins_for (to_lower (extname filePath)) in
  match (if (List.length plugins =? 0)%nat then Ok fs else run_imagemin plugins filePath fs) with
  | Throw e => ((fs, count_failure r), [error_line filePath e])
  | Ok fs' =>
      match own_get filePath fs' with
      | None => ((fs', count_failure r), [error_line filePath (stat_error filePath)])
      | Some compressedSize =>
          let originalSize := match own_get filePath originalSizes with Some n => n | None => 0 end in
          ((fs', record_success ASSETS_DIR filePath originalSize compressedSize r), [])
      end
  end.

(** The effect of one iteration on the file system and the counters. *)
Definition compress_one (originalSizes : props Z) (st : file_system * CompressionResult)
    (filePath : string) : file_system * CompressionResult :=
  fst (compress_step originalSizes st filePath).

(** The loop, the lines it prints accumulating in order. *)
Definition compress_loop (originalSizes : props Z) (filePaths : list string)
    (st : (file_system * CompressionResult) * list string) : (file_system * CompressionResult) * list string :=
  fold_left (fun acc filePath =>
               let '(st0, printed) := acc in
               let '(st1, out) := compress_step originalSizes st0 filePath in
               (st1, printed ++ out)%list)
            filePaths st.

(** What [compressImages(filePaths)] leaves: its result, the file system
    after it, and the lines it printed on [stderr]. *)
Record compression_run := { cresult : CompressionResult; cfs : file_system; cerrors : list string }.

Definition compressImages (filePaths : list string) (fs : file_system) : compression_run :=
  match filePaths with
  | [] => {| cresult := empty_result; cfs := fs; cerrors := [] |}
  | _ =>
      let originalSizes := original_sizes filePaths fs in
      let '((fs', r), printed) := compress_loop originalSizes filePaths ((fs, empty_result), []) in
      {| cresult := r; cfs := fs'; cerrors := printed |}
  end.
End Compression.

(** The counters of a result agree with its reports. *)
Definition sumZ (l : list Z) : Z := fold_right Z.add 0 l.

Definition result_ok (r : CompressionResult) : Prop :=
  successCount r = Z.of_nat (List.length (files r)) /\
  totalOriginal r = sumZ (map original (files r)) /\
  totalCompressed r = sumZ (map compressed (files r)) /\
  Forall (fun f => saved f = original f - compressed f) (files r).

(** ** Properties of [compressImages] *)

(** The loop's file system and counters do not depend on what it prints. *)
Lemma loop_fst `{Ht : ImageTools} (A : string) (o : props Z) (paths : list string)
    (st : file_system * CompressionResult) (printed : list string) :
  fst (compress_loop A o paths (st, printed)) = fold_left (compress_one A o) paths st.
Proof.
  unfold compress_loop. revert st printed.
  induction paths as [|p paths IH]; intros st printed; [reflexivity|]. cbn [fold_left].
  change (compress_one A o st p) with (fst (compress_step A o st p)).
  destruct (compress_step A o st p) as [st1 out]. exact (IH st1 (printed ++ out)%list).
Qed.

Lemma compressImages_state `{Ht : ImageTools} (A : string) (paths : list string) (fs : file_system) :
  paths <> [] ->
  (cfs (compressImages A paths fs), cresult (compressImages A paths fs)) =
  fold_left (compress_one A (original_sizes paths fs)) paths (fs, empty_result).
Proof.
  destruct paths as [|p ps]; [congruence|]. intros _. unfold compressImages.
  rewrite <- (loop_fst A _ _ _ []). destruct (compress_loop _ _ _ _) as [[fs' r] printed]. reflexivity.
Qed.


Lemma sumZ_app (l1 l2 : list Z) : sumZ (l1 ++ l2) = sumZ l1 + sumZ l2.
Proof. unfold sumZ. rewrite fold_right_app. induction l1; simpl; lia. Qed.

Lemma result_ok_empty : result_ok empty_result.
Proof. repeat split; constructor. Qed.

Lemma count_failure_ok (r : CompressionResult) : result_ok r -> result_ok (count_failure r).
Proof. unfold result_ok. simpl. tauto. Qed.

Lemma record_success_ok (a p : string) (o c : Z) (r : CompressionResult) :
  result_ok r -> result_ok (record_success a p o c r).
Proof.
  unfold result_ok. simpl. rewrite !map_app, !sumZ_app, length_app. simpl.
  intros (H1 & H2 & H3 & H4). repeat split; try lia.
  apply Forall_app. split; [exact H4|]. constructor; [reflexivity|constructor].
Qed.

Lemma original_sizes_acc (paths : list string) (fs : file_system) (acc : props Z) (q : string) :
  own_get q (fold_left (fun o p => match own_get p fs with Some n => own_set p n o | None => o end)
                       paths acc) =
  if existsb (String.eqb q) paths then
    match own_get q fs with Some n => Some n | None => own_get q acc end
  else own_get q acc.
Proof.
  revert acc. induction paths as [|p paths IH]; intros acc; simpl; [reflexivity|].
  rewrite IH. destruct (String.eqb_spec q p) as [->|Hne]; simpl.
  - destruct (own_get p fs) eqn:E; [rewrite own_get_set_eq|]; now destruct (existsb _ paths).
  - destruct (own_get p fs); [rewrite own_get_set_ne by congruence|]; reflexivity.
Qed.

(** The object [originalSizes] holds the size of every listed file that
    exists. *)
Lemma original_sizes_get (paths : list string) (fs : file_system) (q : string) :
  In q paths -> own_get q (original_sizes paths fs) = own_get q fs.
Proof.
  intros Hq. unfold original_sizes. rewrite original_sizes_acc.
  replace (existsb (String.eqb q) paths) with true
    by (symmetry; apply existsb_exists; exists q; split; [exact Hq|apply String.eqb_refl]).
  now destruct (own_get q fs).
Qed.

Section CompressionFacts.
Context `{Ht : ImageTools}.
Variable ASSETS_DIR : string.

(** Each iteration keeps the counters in agreement with the reports and
    counts the file once, as a success or a failure. *)
Lemma compress_one_ok (o : props Z) (fs : file_system) (r : CompressionResult) (p : string) :
  result_ok r ->
  result_ok (snd (compress_one ASSETS_DIR o (fs, r) p)) /\
  successCount (snd (compress_one ASSETS_DIR o (fs, r) p)) +
  failCount (snd (compress_one ASSETS_DIR o (fs, r) p)) = successCount r + failCount r + 1.
Proof.
  intros Hr. unfold compress_one, compress_step.
  destruct (if (List.length _ =? 0)%nat then _ else _) as [fs'|];
    [destruct (own_get p fs')|]; simpl;
    (split; [apply count_failure_ok || apply record_success_ok; exact Hr|lia]).
Qed.

Lemma fold_compress_ok (o : props Z) (paths : list string) (fs : file_system) (r : CompressionResult) :
  result_ok r ->
  result_ok (snd (fold_left (compress_one ASSETS_DIR o) paths (fs, r))) /\
  successCount (snd (fold_left (compress_one ASSETS_DIR o) paths (fs, r))) +
  failCount (snd (fold_left (compress_one ASSETS_DIR o) paths (fs, r))) =
  successCount r + failCount r + Z.of_nat (List.length paths).
Proof.
  revert fs r. induction paths as [|p paths IH]; intros fs r Hr; cbn [fold_left List.length];
    [split; [exact Hr|simpl; lia]|].
  destruct (compress_one ASSETS_DIR o (fs, r) p) as [fs1 r1] eqn:E.
  destruct (compress_one_ok o fs r p Hr) as [Hok Hc]. rewrite E in Hok, Hc. simpl in Hok, Hc.
  destruct (IH fs1 r1 Hok) as [H1 H2]. split; [exact H1|]. rewrite H2, Nat2Z.inj_succ. lia.
Qed.

(** Where the error of a failed iteration on [p] comes from: the
    compressor threw it on [p], or [statSync(p)] did. *)
Definition error_of (p : string) (e : js_error) : Prop :=
  e = stat_error p \/ exists n, imagemin_size (plugins_for (to_lower (extname p))) p n = Throw e.

Definition print_error (pe : string * js_error) : string := error_line (fst pe) (snd pe).

(** An iteration on [p] prints nothing, or, when it counts a failure, the
    one line of an error on [p]. *)
Lemma compress_step_printed (o : props Z) (fs : file_system) (r : CompressionResult) (p : string) :
  exists fl, snd (compress_step ASSETS_DIR o (fs, r) p) = map print_error fl /\
    (fl = [] \/ exists e, fl = [(p, e)] /\ error_of p e) /\
    Z.of_nat (List.length fl) = failCount (snd (fst (compress_step ASSETS_DIR o (fs, r) p))) - failCount r.
Proof.
  unfold compress_step.
  destruct (List.length (plugins_for (to_lower (extname p))) =? 0)%nat eqn:En.
  - destruct (own_get p fs) as [n|].
    + exists []. cbn. split; [reflexivity|split; [now left|lia]].
    + exists [(p, stat_error p)]. cbn. split; [reflexivity|split; [right; eexists; split; [reflexivity|now left]|lia]].
  - unfold run_imagemin. destruct (own_get p fs) as [n|] eqn:Ep.
    + destruct (imagemin_size _ p n) as [c|e] eqn:Ei; cbn [js_bind].
      * rewrite own_get_set_eq. exists []. cbn. split; [reflexivity|split; [now left|lia]].
      * exists [(p, e)]. cbn. split; [reflexivity|split; [right; eexists; split; [reflexivity|right; eexists; exact Ei]|lia]].
    + rewrite Ep. exists [(p, stat_error p)]. cbn.
      split; [reflexivity|split; [right; eexists; split; [reflexivity|now left]|lia]].
Qed.

(** The loop prints, after what was printed before, the errors of the
    failed iterations, one per failure, in the order of the paths. *)
Lemma loop_printed (o : props Z) (paths : list string) (fs : file_system) (r : CompressionResult)
    (printed : list string) :
  exists fails, snd (compress_loop ASSETS_DIR o paths ((fs, r), printed)) = (printed ++ map print_error fails)%list /\
    subseq (map fst fails) paths /\ (forall p e, In (p, e) fails -> error_of p e) /\
    Z.of_nat (List.length fails) = failCount (snd (fst (compress_loop ASSETS_DIR o paths ((fs, r), printed)))) - failCount r.
Proof.
  unfold compress_loop. revert fs r printed.
  induction paths as [|p paths IH]; intros fs r printed; cbn [fold_left].
  - exists []. cbn. rewrite app_nil_r. split; [reflexivity|split; [constructor|split; [intros _ _ []|lia]]].
  - destruct (compress_step_printed o fs r p) as (fl & Hout & Hfl & Hn).
    destruct (compress_step ASSETS_DIR o (fs, r) p) as [[fs1 r1] out]. cbn [fst snd] in Hout, Hn |- *.
    subst out. destruct (IH fs1 r1 (printed ++ map print_error fl)%list) as (fails & Hp & Hs & He & Hc).
    exists (fl ++ fails)%list. rewrite Hp, map_app, app_assoc. split; [reflexivity|].
    rewrite length_app, Nat2Z.inj_add.
    destruct Hfl as [->|(e & -> & Hpe)]; cbn [map fst app List.length] in *.
    + split; [apply subseq_drop, Hs|split; [exact He|lia]].
    + split; [apply subseq_keep, Hs|split; [|lia]]. intros q e' [Eq|Hin]; [inv Eq; exact Hpe|eauto].
Qed.

(** An iteration writes at most its own file, and none when no plugin
    applies. *)
Lemma compress_one_frame (o : props Z) (fs : file_system) (r : CompressionResult) (p q : string) :
  q <> p -> own_get q (fst (compress_one ASSETS_DIR o (fs, r) p)) = own_get q fs.
Proof.
  intros Hq. unfold compress_one, compress_step, run_imagemin.
  destruct (List.length _ =? 0)%nat; [destruct (own_get p fs); reflexivity|].
  destruct (own_get p fs); [|destruct (own_get p fs); reflexivity].
  destruct (imagemin_size _ p _); simpl; [|reflexivity].
  destruct (own_get p _); simpl; now apply own_get_set_ne.
Qed.

Lemma compress_one_no_plugin (o : props Z) (fs : file_system) (r : CompressionResult) (p : string) :
  plugins_for (to_lower (extname p)) = [] -> fst (compress_one ASSETS_DIR o (fs, r) p) = fs.
Proof. intros E. unfold compress_one, compress_step. rewrite E. simpl. now destruct (own_get p fs). Qed.

(** An iteration adds no report, or the report of its file, which existed
    and has its new size. *)
Lemma compress_one_cases (o : props Z) (fs : file_system) (r : CompressionResult) (p : string) :
  files (snd (compress_one ASSETS_DIR o (fs, r) p)) = files r \/
  exists s c, own_get p fs = Some s /\ own_get p (fst (compress_one ASSETS_DIR o (fs, r) p)) = Some c /\
    snd (compress_one ASSETS_DIR o (fs, r) p) =
    record_success ASSETS_DIR p (match own_get p o with Some n => n | None => 0 end) c r.
Proof.
  unfold compress_one, compress_step, run_imagemin.
  destruct (List.length _ =? 0)%nat.
  - destruct (own_get p fs) as [c|] eqn:E; [right; now exists c, c|now left].
  - destruct (own_get p fs) as [s0|] eqn:E; [|rewrite E; now left].
    destruct (imagemin_size _ p s0) as [n|]; simpl; [|now left].
    rewrite own_get_set_eq. right. exists s0, n. split; [reflexivity|].
    simpl. rewrite own_get_set_eq. split; reflexivity.
Qed.

(** What a report says of its file [q]: its path relative to the assets
    directory, its size before ([fs0]) and after ([fs]). *)
Definition report_of (fs0 fs : file_system) (q : string) (f : file_report) : Prop :=
  path f = relative ASSETS_DIR q /\ own_get q fs0 = Some (original f) /\
  own_get q fs = Some (compressed f) /\ saved f = original f - compressed f.

Lemma fold_compress_accurate (o : props Z) (fs0 : file_system) (paths : list string) :
  forall (done : list string) (fs : file_system) (r : CompressionResult), NoDup (done ++ paths) ->
  (forall q, In q paths -> own_get q o = own_get q fs0) ->
  (forall q, ~ In q done -> own_get q fs = own_get q fs0) ->
  (forall f, In f (files r) -> exists q, In q done /\ report_of fs0 fs q f) ->
  forall f, In f (files (snd (fold_left (compress_one ASSETS_DIR o) paths (fs, r)))) ->
  exists q, In q (done ++ paths) /\ report_of fs0 (fst (fold_left (compress_one ASSETS_DIR o) paths (fs, r))) q f.
Proof.
  induction paths as [|p paths IH]; intros done fs r Hnd Ho Hfr Hrep; cbn [fold_left].
  - rewrite app_nil_r. exact Hrep.
  - assert (Hp : ~ In p done) by (intros H; apply (NoDup_remove_2 _ _ _ Hnd), in_or_app; now left).
    destruct (compress_one ASSETS_DIR o (fs, r) p) as [fs1 r1] eqn:E.
    intros f Hf. enough (H : exists q, In q ((done ++ [p]) ++ paths) /\
                              report_of fs0 (fst (fold_left (compress_one ASSETS_DIR o) paths (fs1, r1))) q f)
      by (destruct H as (q & Hq & R); exists q; rewrite <- app_assoc in Hq; auto).
    revert f Hf. apply IH.
    + rewrite <- app_assoc. exact Hnd.
    + intros q Hq. apply Ho. now right.
    + intros q Hq. rewrite in_app_iff in Hq. replace fs1 with (fst (compress_one ASSETS_DIR o (fs, r) p))
        by now rewrite E.
      rewrite compress_one_frame by (intros ->; apply Hq; right; now left). apply Hfr. tauto.
    + assert (Hold : forall f, In f (files r) -> exists q, In q (done ++ [p]) /\ report_of fs0 fs1 q f).
      { intros f Hf. destruct (Hrep f Hf) as (q & Hq & R1 & R2 & R3 & R4). exists q.
        split; [apply in_or_app; now left|]. repeat split; auto. rewrite <- R3.
        replace fs1 with (fst (compress_one ASSETS_DIR o (fs, r) p)) by now rewrite E.
        apply compress_one_frame. intros ->. contradiction. }
      pose proof (compress_one_cases o fs r p) as HC. rewrite E in HC.
      destruct HC as [Hs|(s0 & c & Hs0 & Hc & Hr)]; simpl in *.
      * rewrite Hs. exact Hold.
      * subst r1. simpl. intros f Hf. apply in_app_or in Hf as [Hf|[<-|[]]]; [now apply Hold|].
        exists p. split; [apply in_or_app; right; now left|].
        assert (Hp0 : own_get p fs0 = Some s0) by (rewrite <- (Hfr p Hp); exact Hs0).
        unfold report_of. simpl. rewrite (Ho p (or_introl eq_refl)), Hp0. repeat split; auto.
Qed.

Lemma fold_compress_frame (o : props Z) (paths : list string) (fs : file_system)
    (r : CompressionResult) (q : string) :
  (~ In q paths \/ plugins_for (to_lower (extname q)) = []) ->
  own_get q (fst (fold_left (compress_one ASSETS_DIR o) paths (fs, r))) = own_get q fs.
Proof.
  revert fs r. induction paths as [|p paths IH]; intros fs r Hq; cbn [fold_left]; [reflexivity|].
  destruct (compress_one ASSETS_DIR o (fs, r) p) as [fs1 r1] eqn:E.
  rewrite IH by (destruct Hq as [Hq|Hq]; [left; intros H; apply Hq; now right|now right]).
  replace fs1 with (fst (compress_one ASSETS_DIR o (fs, r) p)) by now rewrite E.
  destruct (String.eqb_spec q p) as [->|Hne]; [|now apply compress_one_frame].
  destruct Hq as [Hq|Hq]; [exfalso; apply Hq; now left|now rewrite compress_one_no_plugin].
Qed.

(** [C28] [compressImages] counts every file once, as a success or a
    failure; the success count is the number of reports and the totals
    are the sums of the reported sizes, each report saving its original
    size minus its compressed size. *)
Theorem compressImages_counts (paths : list string) (fs : file_system) :
  result_ok (cresult (compressImages ASSETS_DIR paths fs)) /\
  successCount (cresult (compressImages ASSETS_DIR paths fs)) +
  failCount (cresult (compressImages ASSETS_DIR paths fs)) = Z.of_nat (List.length paths).
Proof.
  destruct paths as [|p ps]; [split; [apply result_ok_empty|reflexivity]|].
  destruct (fold_compress_ok (original_sizes (p :: ps) fs) (p :: ps) fs empty_result result_ok_empty)
    as [H1 H2].
  rewrite <- compressImages_state in H1, H2 by discriminate. cbn [snd] in H1, H2.
  split; [exact H1|]. rewrite H2. reflexivity.
Qed.

(** [C29] For a list of distinct paths, every report of [compressImages]
    describes one of the listed files: its path relative to the assets
    directory, its size before the run, its size after it. *)
Theorem compressImages_accurate (paths : list string) (fs : file_system) :
  NoDup paths ->
  forall f, In f (files (cresult (compressImages ASSETS_DIR paths fs))) ->
  exists q, In q paths /\ report_of fs (cfs (compressImages ASSETS_DIR paths fs)) q f.
Proof.
  intros Hnd f Hf. destruct paths as [|p ps]; [destruct Hf|].
  pose proof (fold_compress_accurate (original_sizes (p :: ps) fs) fs (p :: ps) [] fs empty_result
                Hnd (fun q Hq => original_sizes_get _ _ _ Hq) (fun _ _ => eq_refl)
                (fun f (H : In f []) => match H with end)) as H.
  rewrite <- compressImages_state in H by discriminate. exact (H f Hf).
Qed.

(** [C30] [compressImages] prints on [stderr] one [Error compressing]
    line per failure it counts, in the order of the loop: the lines are
    the errors of a subsequence of the listed paths, each line naming its
    own file with an error that came from that file (the compressor on
    it, or [statSync] of it). *)
Theorem compressImages_errors (paths : list string) (fs : file_system) :
  exists fails : list (string * js_error),
    cerrors (compressImages ASSETS_DIR paths fs) = map (fun pe => error_line (fst pe) (snd pe)) fails /\
    subseq (map fst fails) paths /\ (forall p e, In (p, e) fails -> error_of p e) /\
    Z.of_nat (List.length fails) = failCount (cresult (compressImages ASSETS_DIR paths fs)).
Proof.
  destruct paths as [|p ps].
  - exists []. split; [reflexivity|split; [constructor|split; [intros _ _ []|reflexivity]]].
  - unfold compressImages.
    destruct (loop_printed (original_sizes (p :: ps) fs) (p :: ps) fs empty_result []) as (fails & H1 & H2 & H3 & H4).
    destruct (compress_loop _ _ _ _) as [[fs' r] printed]. cbn [fst snd cresult cerrors failCount empty_result] in *.
    exists fails. split; [exact H1|split; [exact H2|split; [exact H3|lia]]].
Qed.

(** [compressImages] writes only listed files with a JPEG or PNG
    extension: any other file keeps its size. *)
Lemma compressImages_frame (paths : list string) (fs : file_system) (q : string) :
  (~ In q paths \/ plugins_for (to_lower (extname q)) = []) ->
  own_get q (cfs (compressImages ASSETS_DIR paths fs)) = own_get q fs.
Proof.
  intros Hq. destruct paths as [|p ps]; [reflexivity|].
  pose proof (fold_compress_frame (original_sizes (p :: ps) fs) (p :: ps) fs empty_result q Hq) as H.
  rewrite <- compressImages_state in H by discriminate. exact H.
Qed.

(** [C32] A WebP file, listed among the formats of the help text, is not
    compressed (no plugin handles it) but is reported as processed with
    nothing saved. *)
Theorem compressImages_webp (p : string) (n : Z) (fs : file_system) :
  to_lower (extname p) = ".webp" -> own_get p fs = Some n ->
  compressImages ASSETS_DIR [p] fs =
  {| cresult := {| successCount := 1; failCount := 0; totalOriginal := n; totalCompressed := n;
      files := [{| path := relative ASSETS_DIR p; original := n; compressed := n; saved := 0 |}] |};
     cfs := fs; cerrors := [] |}.
Proof.
  intros He Hn. unfold compressImages, compress_loop, original_sizes. cbn [fold_left]. rewrite Hn.
  unfold compress_step. rewrite He. cbn. rewrite Hn, String.eqb_refl.
  unfold record_success. simpl. repeat f_equal. lia.
Qed.
(** [C35] The reports are accurate only for distinct paths: a path
    listed twice is compressed twice, and its second report takes as
    original size the size from before the first compression (the sizes
    are read once, before the loop), so the result counts [n - c1] bytes
    saved more than the file lost: it reports [(n - c1) + (n - c2)] where
    the file went from [n] to [c2]. *)
Theorem compressImages_duplicate_overcount (p : string) (n c1 c2 : Z) (fs : file_system) :
  plugins_for (to_lower (extname p)) <> [] -> own_get p fs = Some n ->
  imagemin_size (plugins_for (to_lower (extname p))) p n = Ok c1 ->
  imagemin_size (plugins_for (to_lower (extname p))) p c1 = Ok c2 ->
  cresult (compressImages ASSETS_DIR [p; p] fs) =
    {| successCount := 2; failCount := 0; totalOriginal := n + n; totalCompressed := c1 + c2;
       files := [{| path := relative ASSETS_DIR p; original := n; compressed := c1; saved := n - c1 |};
                 {| path := relative ASSETS_DIR p; original := n; compressed := c2; saved := n - c2 |}] |} /\
  own_get p (cfs (compressImages ASSETS_DIR [p; p] fs)) = Some c2.
Proof.
  intros Hpl Hn H1 H2. unfold compressImages, compress_loop, original_sizes. cbn [fold_left].
  rewrite Hn. unfold compress_step.
  destruct (plugins_for (to_lower (extname p))) as [|pl0 pls] eqn:Epl; [contradiction|].
  cbn [List.length Nat.eqb]. rewrite <- Epl in H1, H2 |- *. unfold run_imagemin.
  rewrite Hn, H1. cbn [js_bind]. rewrite !own_get_set_eq, H2. cbn [js_bind]. rewrite !own_get_set_eq.
  cbn -[own_get own_set]. rewrite own_get_set_eq. split; [|reflexivity]. reflexivity.
Qed.
End CompressionFacts.

(** Compressors that halve every file. *)
Definition halving_tools : ImageTools := {| imagemin_size := fun _ _ n => Ok (n / 2) |}.

(** ** Witnesses *)

Definition sample_fs : file_system :=
  [("/site/assets/a.jpg", 1000); ("/site/assets/b.webp", 500); ("/site/assets/c.png", 300)].

Lemma compressImages_accurate_witness :
  exists q, In q ["/site/assets/a.jpg"; "/site/assets/b.webp"] /\
    report_of "/site/assets" sample_fs
      (cfs (compressImages (Ht := halving_tools) "/site/assets"
              ["/site/assets/a.jpg"; "/site/assets/b.webp"] sample_fs))
      q {| path := "a.jpg"; original := 1000; compressed := 500; saved := 500 |}.
Proof.
  apply (compressImages_accurate (Ht := halving_tools)).
  - repeat constructor; simpl; intuition discriminate.
  - vm_compute. left. reflexivity.
Defined.

Lemma compressImages_webp_witness :
  compressImages (Ht := halving_tools) "/site/assets" ["/site/assets/b.webp"] sample_fs =
  {| cresult := {| successCount := 1; failCount := 0; totalOriginal := 500; totalCompressed := 500;
      files := [{| path := relative "/site/assets" "/site/assets/b.webp"; original := 500;
                   compressed := 500; saved := 0 |}] |};
     cfs := sample_fs; cerrors := [] |}.
Proof. apply (compressImages_webp (Ht := halving_tools)); vm_compute; reflexivity. Defined.

Lemma compressImages_duplicate_overcount_witness :
  cresult (compressImages (Ht := halving_tools) "/site/assets" ["/site/assets/a.jpg"; "/site/assets/a.jpg"] sample_fs) =
    {| successCount := 2; failCount := 0; totalOriginal := 1000 + 1000; totalCompressed := 500 + 250;
       files := [{| path := relative "/site/assets" "/site/assets/a.jpg"; original := 1000; compressed := 500;
                    saved := 1000 - 500 |};
                 {| path := relative "/site/assets" "/site/assets/a.jpg"; original := 1000; compressed := 250;
                    saved := 1000 - 250 |}] |} /\
  own_get "/site/assets/a.jpg" (cfs (compressImages (Ht := halving_tools) "/site/assets"
                                       ["/site/assets/a.jpg"; "/site/assets/a.jpg"] sample_fs)) = Some 250%Z.
Proof.
  apply (compressImages_duplicate_overcount (Ht := halving_tools)); [vm_compute; discriminate|reflexivity..].
Defined.
