(* ===== verification/Script.v ===== *)
(** * Script: [main] of [src/scripts/compress-assets.ts] (lines 161-243)

    [main] answers [--help], stops when the assets directory is missing,
    selects the files (staged ones with [--staged], else the walk of
    [assets/]), compresses them and prints a summary; the promise it
    returns is caught by [main().catch] (lines 239-242), which prints
    [Fatal error:] and the message and exits with 1.  The only throw that
    reaches that [catch] is [readdirSync]'s, from the walk: [git]'s and
    the compressors' errors are caught inside.  The model is [main_body]
    in [js_result] and [main], its [catch].  The theorems: a run changes
    only JPEG and PNG files under the assets directory; its exit code;
    an unreadable directory anywhere under [assets/] stops the run before
    any file is compressed; a pre-commit run with nothing staged is
    silent.  The output interleaves, as the script does, the line
    announcing the compression, the [Error compressing] lines of the
    failed files, then the summary. *)

From Stdlib Require Import Ascii.
From S2P Require Import Prelude JsObject JsNumber Select Compress.
Local Open Scope string_scope.
Local Open Scope Z_scope.

(** ** [main] (lines 161-237) *)

(** What [main] sees of its environment: the arguments, whether the
    assets directory exists, the repository root [dirname(ASSETS_DIR)],
    the tree under [assets/], the output of [git] ([None] when it throws)
    and the sizes of the files. *)
Record script_env := {
  args : list string;
  assets_exists : bool;
  root : string;
  assets_tree : listing;
  git_output : option string;
  sizes : file_system
}.

Definition assets_dir (env : script_env) : string := join (root env) "assets".

(** The lines [main] prints ([console.log], and [console.error] for the
    files that fail to compress and for the fatal error), in order, with the numbers they show ([formatBytes] and
    [toFixed] are not modelled: a line carries the values it formats). *)
Inductive log_line :=
| LogHelp
| LogNoAssets (dir : string)
| LogNoImages
| LogCompressing (count : nat)
| LogNoneCompressed
| LogComplete (processed original compressed : Z)
| LogSaved (saved original : Z)
| LogFile (report : file_report)
| LogError (line : string)
| LogFailed (count : Z)
| LogFatal (message : string).

Inductive mode := All | Staged.

(** The outcome of a run: the lines printed, the exit code and the file
    system after it. *)
Record run := { output : list log_line; exit_code : Z; fs_after : file_system }.

(** Lines 189-194: the mode and the files it selects. *)
Definition run_mode (env : script_env) : mode :=
  if existsb (String.eqb "--staged") (args env) then Staged else All.

Definition selected_files (env : script_env) : js_result (list string) :=
  match run_mode env with
  | Staged => Ok (getStagedImageFiles (root env) (git_output env))
  | All => getAllImageFiles (assets_dir env) (assets_tree env) []
  end.

(** The body of [async function main()], lines 161-237: a run, or the
    error that rejects its promise. *)
Definition main_body `{Ht : ImageTools} (env : script_env) : js_result run :=
  let fs := sizes env in
  if existsb (String.eqb "--help") (args env) then
    Ok {| output := [LogHelp]; exit_code := 0; fs_after := fs |}
  else if negb (assets_exists env) then
    Ok {| output := [LogNoAssets (assets_dir env)]; exit_code := 1; fs_after := fs |}
  else
    filesToCompress <- selected_files env ;;
    let quiet := match run_mode env with Staged => true | All => false end in
    match filesToCompress with
    | [] => Ok {| output := if quiet then [] else [LogNoImages]; exit_code := 0; fs_after := fs |}
    | _ =>
        let head := LogCompressing (List.length filesToCompress) in
        let c := compressImages (assets_dir env) filesToCompress fs in
        let results := cresult c in
        let fs' := cfs c in
        let errors := map LogError (cerrors c) in
        if (successCount results =? 0)%Z then
          Ok {| output := head :: errors ++ (if quiet then [] else [LogNoneCompressed]); exit_code := 0;
                fs_after := fs' |}
        else
          let totalSaved := totalOriginal results - totalCompressed results in
          Ok {| output := head :: errors ++ LogComplete (successCount results) (totalOriginal results)
                                           (totalCompressed results)
                       :: (if (0 <? totalSaved)%Z then [LogSaved totalSaved (totalOriginal results)] else [])
                       ++ map LogFile (files results)
                       ++ (if (0 <? failCount results)%Z then [LogFailed (failCount results)] else []);
             exit_code := 0; fs_after := fs' |}
    end.

(** [main().catch(error => { console.error('Fatal error:', error.message);
    process.exit(1); })], lines 239-242.  The body throws only from the
    walk, before any file is written or any line printed. *)
Definition main `{Ht : ImageTools} (env : script_env) : run :=
  js_catch (main_body env)
    (fun error => {| output := [LogFatal (error_message error)]; exit_code := 1; fs_after := sizes env |}).


(** ** Properties of [main] *)

(** Every file [main] selects lies under the assets directory. *)
(** The walk of the assets directory, when it does not throw, gives its
    image files. *)
Lemma walk_assets (env : script_env) (files : list string) :
  getAllImageFiles (assets_dir env) (assets_tree env) [] = Ok files ->
  exists es, assets_tree env = Listed es /\ files = flat_map (image_paths (assets_dir env)) es.
Proof.
  destruct (assets_tree env) as [es|r]; [|discriminate]. cbn [getAllImageFiles readdir js_bind].
  rewrite for_entries_spec. destruct (first_some _ _); [discriminate|].
  intros E. injection E as <-. eauto.
Qed.

Lemma selected_under_assets (env : script_env) (files : list string) (q : string) :
  selected_files env = Ok files -> In q files -> exists rest, q = (assets_dir env ++ "/" ++ rest)%string.
Proof.
  unfold selected_files. destruct (run_mode env).
  - intros Hw. apply walk_assets in Hw as (es & _ & ->). intros Hq. apply in_flat_map in Hq as (e & _ & Hq).
    destruct (image_paths_shape e _ _ Hq) as (r & -> & _). exists (entry_name e ++ r)%string.
    reflexivity.
  - intros E. injection E as <-.
    destruct (git_output env) as [out|]; [|intros []]. simpl. intros Hq.
    apply in_map_iff in Hq as (file & <- & Hf). apply filter_In in Hf as [_ Hs].
    unfold staged_image in Hs. destruct (String.prefix "assets/" file) eqn:Ep; [|now rewrite orb_true_r in Hs].
    destruct (string_prefix_app _ _ Ep) as [r ->]. exists r.
    unfold assets_dir, join. rewrite !string_app_assoc. reflexivity.
Qed.

Section MainFacts.
Context `{Ht : ImageTools}.

(** [C31] A run of the script changes the size of no file except JPEG
    and PNG files under the assets directory. *)
Theorem main_frame (env : script_env) (q : string) :
  (plugins_for (to_lower (extname q)) = [] \/ ~ (exists rest, q = (assets_dir env ++ "/" ++ rest)%string)) ->
  own_get q (fs_after (main env)) = own_get q (sizes env).
Proof.
  intros Hq. unfold main, main_body.
  destruct (existsb _ (args env)); [reflexivity|]. destruct (assets_exists env); [|reflexivity].
  cbn [negb]. destruct (selected_files env) as [files|err] eqn:Es; cbn [js_bind js_catch]; [|reflexivity].
  destruct files as [|p ps]; [reflexivity|].
  pose proof (compressImages_frame (assets_dir env) (p :: ps) (sizes env) q) as Hf.
  destruct (compressImages (assets_dir env) (p :: ps) (sizes env)) as [results fs' errs]. cbn [cresult cfs cerrors].
  simpl in Hf. destruct (successCount results =? 0)%Z; apply Hf;
    (destruct Hq as [Hq|Hq]; [now right|left; intros Hin; apply Hq;
     apply (selected_under_assets env (p :: ps)); assumption]).
Qed.

(** [C36] The script exits with 1 exactly when it is not asked for help
    and either the assets directory is missing or the file selection
    throws (an unreadable directory under [assets/]), and with 0
    otherwise. *)
Theorem main_exit_code (env : script_env) :
  exit_code (main env) =
  if existsb (String.eqb "--help") (args env) then 0
  else if assets_exists env then (if is_ok (selected_files env) then 0 else 1) else 1.
Proof.
  unfold main, main_body. destruct (existsb _ (args env)); [reflexivity|].
  destruct (assets_exists env); [|reflexivity]. cbn [negb].
  destruct (selected_files env) as [files|err]; cbn [js_bind js_catch is_ok]; [|reflexivity].
  destruct files as [|p ps]; [reflexivity|].
  destruct (compressImages _ _ _) as [results fs' errs]. cbn [cresult cfs cerrors]. now destruct (successCount results =? 0)%Z.
Qed.

(** [C37] Without [--staged], a directory under [assets/] that
    [readdirSync] cannot read (or an [assets] that is not a directory)
    ends the run in [main().catch]: it prints [Fatal error:] with the
    [scandir] error of the first such directory in the walk's order,
    exits with 1 and compresses no file, not even the images the walk
    found before it. *)
Theorem main_unreadable (env : script_env) (err : js_error) :
  existsb (String.eqb "--help") (args env) = false -> assets_exists env = true ->
  run_mode env = All ->
  match assets_tree env with
  | Listed es => first_some (walk_error (assets_dir env)) es = Some err
  | Unlisted reason => err = scandir_error reason (assets_dir env)
  end ->
  main env = {| output := [LogFatal (error_message err)]; exit_code := 1; fs_after := sizes env |}.
Proof.
  intros Hh He Hm Hw. unfold main, main_body. rewrite Hh, He. cbn [negb].
  unfold selected_files. rewrite Hm. unfold getAllImageFiles.
  destruct (assets_tree env) as [es|reason]; cbn [readdir js_bind]; [|now subst].
  rewrite for_entries_spec, Hw. reflexivity.
Qed.

(** [C38] As a pre-commit hook ([--staged]) with no staged image, the
    script prints nothing, exits with 0 and changes no file. *)
Theorem main_staged_silent (env : script_env) :
  existsb (String.eqb "--help") (args env) = false -> assets_exists env = true ->
  run_mode env = Staged -> getStagedImageFiles (root env) (git_output env) = [] ->
  main env = {| output := []; exit_code := 0; fs_after := sizes env |}.
Proof.
  intros Hh He Hm Hs. unfold main, main_body. rewrite Hh, He. cbn [negb].
  unfold selected_files. rewrite Hm, Hs. reflexivity.
Qed.
End MainFacts.

Definition staged_env : script_env :=
  {| args := ["--staged"]; assets_exists := true; root := "/site"; assets_tree := Listed [];
     git_output := Some "src/visits/2024-01-05-louvre.md"; sizes := sample_fs |}.

Lemma main_frame_witness :
  own_get "/site/assets/b.webp"
    (fs_after (main (Ht := halving_tools)
                 {| args := []; assets_exists := true; root := "/site";
                    assets_tree := Listed [FileEntry "a.jpg"; FileEntry "b.webp"]; git_output := None;
                    sizes := sample_fs |})) = own_get "/site/assets/b.webp" sample_fs.
Proof. apply (main_frame (Ht := halving_tools)). left. vm_compute. reflexivity. Defined.

Lemma main_staged_silent_witness :
  main (Ht := halving_tools) staged_env = {| output := []; exit_code := 0; fs_after := sizes staged_env |}.
Proof. apply (main_staged_silent (Ht := halving_tools)); vm_compute; reflexivity. Defined.

(** A tree with an image before an unreadable directory. *)
Definition locked_env : script_env :=
  {| args := []; assets_exists := true; root := "/site";
     assets_tree := Listed [FileEntry "a.jpg"; DirEntry "2024" [UnreadableDir "raw" "EACCES: permission denied"]];
     git_output := None; sizes := sample_fs |}.

Lemma main_unreadable_witness :
  main (Ht := halving_tools) locked_env =
  {| output := [LogFatal "EACCES: permission denied, scandir '/site/assets/2024/raw'"]; exit_code := 1;
     fs_after := sample_fs |}.
Proof.
  apply (main_unreadable (Ht := halving_tools) locked_env
           (SystemError "EACCES: permission denied, scandir '/site/assets/2024/raw'"));
    vm_compute; reflexivity.
Defined.
