(* ===== verification/NodePath.v ===== *)
(** * NodePath: Node's [path.posix.join] and [path.posix.normalize]

    Two files of the repository compute paths with [path.join]:
    [years.js] (line 5, [join(__dirname, '..', 'visits')]) and the
    compression script ([ASSETS_DIR], line 20, and [join(root, file)],
    [join(dir, entry.name)]).  Node's code is not part of the repository;
    this file models it from Node's [lib/path.js]:
    - [join(...args)] drops the empty arguments, joins the rest with
      ["/"] and normalizes, ["."] when nothing is left;
    - [normalize(p)] keeps a leading and a trailing separator and
      normalizes the segments with [normalizeString];
    - [normalizeString] walks the segments: [""] and ["."] are skipped,
      [".."] removes the last segment unless there is none or it is
      itself [".."], in which case a relative path keeps it.
    The segments are kept as a stack, the reverse of the result.

    The theorems: joining a relative path to an absolute normalized
    directory gives the directory of the segments the walk leaves
    ([path_join_abs]), and on the calls of the compression script, a
    normalized absolute directory and a normalized relative path, the
    concatenation [Select.join] is [path.join]. *)

From Stdlib Require Import Ascii.
From S2P Require Import Prelude Content Select.
Local Open Scope string_scope.

(** ** The model *)

(** One segment of [normalizeString]. *)
Definition norm_step (allow_above : bool) (st : list string) (seg : string) : list string :=
  if String.eqb seg "" || String.eqb seg "." then st
  else if String.eqb seg ".." then
    match st with
    | s :: st' => if String.eqb s ".." then (if allow_above then ".." :: st else st) else st'
    | [] => if allow_above then [".."] else []
    end
  else seg :: st.

(** [normalizeString(path, allowAboveRoot)] *)
Definition normalizeString (allow_above : bool) (p : string) : string :=
  String.concat "/" (rev (fold_left (norm_step allow_above) (split_on "/" p) [])).

(** [path[path.length - 1]] *)
Fixpoint last_char (s : string) : option ascii :=
  match s with
  | EmptyString => None
  | String c EmptyString => Some c
  | String _ r => last_char r
  end.

(** [posix.normalize(path)] *)
Definition normalize (p : string) : string :=
  if String.eqb p "" then "."
  else
    let isAbsolute := String.prefix "/" p in
    let trailingSeparator := match last_char p with Some c => (c =? "/")%char | None => false end in
    let body := normalizeString (negb isAbsolute) p in
    if String.eqb body "" then (if isAbsolute then "/" else if trailingSeparator then "./" else ".")
    else (if isAbsolute then "/" else "") ++ body ++ (if trailingSeparator then "/" else "").

(** [posix.join(...args)] *)
Definition path_join (args : list string) : string :=
  match filter (fun a => negb (String.eqb a "")) args with
  | [] => "."
  | parts => normalize (String.concat "/" parts)
  end.

(** A segment of a normalized path: not empty, not ["."] or [".."], and
    without a separator. *)
Definition is_name (s : string) : bool :=
  negb (String.eqb s "") && negb (String.eqb s ".") && negb (String.eqb s "..") &&
  negb (string_has "/" s).

(** The absolute path of a list of segments. *)
Definition abs_path (rs : list string) : string := "/" ++ String.concat "/" rs.

(** ** Splitting and concatenating segments *)

Lemma split_on_name (c : ascii) (r s : string) :
  string_has c r = false ->
  split_on c r = [r] /\ split_on c (r ++ String c s) = r :: split_on c s.
Proof.
  induction r as [|x r IH]; cbn [split_on string_has append].
  - intros _. now rewrite Ascii.eqb_refl.
  - intros H. apply orb_false_iff in H as [Hx Hr].
    rewrite Ascii.eqb_sym, Hx. destruct (IH Hr) as [-> ->]. auto.
Qed.

Lemma is_name_has (s : string) : is_name s = true -> string_has "/" s = false.
Proof. unfold is_name. intros H. apply andb_true_iff in H as [_ H]. now apply negb_true_iff. Qed.

Lemma is_name_nonempty (s : string) : is_name s = true -> s <> "".
Proof. intros H ->. discriminate. Qed.

#[local] Hint Resolve is_name_has is_name_nonempty : twofold.

Lemma split_concat_app (rs : list string) (s : string) :
  rs <> [] -> forallb is_name rs = true ->
  split_on "/" (String.concat "/" rs ++ String "/" s) = (rs ++ split_on "/" s)%list.
Proof.
  induction rs as [|r rs IH]; [congruence|]; intros _ H; cbn [forallb] in H;
    apply andb_true_iff in H as [Hr H].
  destruct rs as [|r' rs].
  - cbn [String.concat app]. now apply split_on_name, is_name_has.
  - change (String.concat "/" (r :: r' :: rs)) with (r ++ String "/" (String.concat "/" (r' :: rs))).
    rewrite string_app_assoc. cbn [append].
    rewrite (proj2 (split_on_name "/" r _ (is_name_has r Hr))), IH by (easy || exact H).
    reflexivity.
Qed.

Lemma fold_names (b : bool) (rs st : list string) :
  forallb is_name rs = true -> fold_left (norm_step b) rs st = (rev rs ++ st)%list.
Proof.
  revert st. induction rs as [|r rs IH]; intros st H; [reflexivity|].
  cbn [forallb] in H. apply andb_true_iff in H as [Hr H].
  cbn [fold_left rev]. rewrite IH by exact H. rewrite <- app_assoc. cbn [app]. f_equal.
  unfold norm_step. unfold is_name in Hr.
  destruct (String.eqb r ""), (String.eqb r "."), (String.eqb r ".."); easy.
Qed.

Lemma concat_names_nonempty (rs : list string) :
  rs <> [] -> forallb is_name rs = true -> String.concat "/" rs <> "".
Proof.
  destruct rs as [|r [|r' rs]]; [congruence| |]; intros _ H; cbn [forallb] in H;
    apply andb_true_iff in H as [Hr _]; apply is_name_nonempty in Hr.
  - exact Hr.
  - change (String.concat "/" (r :: r' :: rs)) with (r ++ String "/" (String.concat "/" (r' :: rs))).
    destruct r; [congruence|]. discriminate.
Qed.

Lemma last_char_app (p q : string) : q <> "" -> last_char (p ++ q) = last_char q.
Proof.
  intros Hq. induction p as [|x p IH]; [reflexivity|].
  cbn [append]. rewrite <- IH. destruct p; [destruct q; [congruence|reflexivity]|reflexivity].
Qed.

Lemma last_char_name (s : string) : is_name s = true -> last_char s <> Some "/"%char.
Proof.
  intros H. apply is_name_has in H. induction s as [|x s IH]; [discriminate|].
  cbn [string_has] in H. apply orb_false_iff in H as [Hx H].
  destruct s as [|y s].
  - cbn. intros E. injection E as ->. now rewrite Ascii.eqb_refl in Hx.
  - exact (IH H).
Qed.

Lemma concat_cons_cons (r r' : string) (rs : list string) :
  String.concat "/" (r :: r' :: rs) = r ++ String "/" (String.concat "/" (r' :: rs)).
Proof. reflexivity. Qed.

Lemma split_concat (ns : list string) :
  ns <> [] -> forallb is_name ns = true -> split_on "/" (String.concat "/" ns) = ns.
Proof.
  induction ns as [|n ns IH]; [congruence|]; intros _ H; cbn [forallb] in H;
    apply andb_true_iff in H as [Hn H].
  destruct ns as [|n' ns].
  - now apply split_on_name, is_name_has.
  - rewrite concat_cons_cons, (proj2 (split_on_name "/" n _ (is_name_has n Hn))), IH by (easy || exact H).
    reflexivity.
Qed.

Lemma last_char_concat (ns : list string) :
  ns <> [] -> forallb is_name ns = true -> last_char (String.concat "/" ns) <> Some "/"%char.
Proof.
  induction ns as [|n ns IH]; [congruence|]; intros _ H; cbn [forallb] in H;
    apply andb_true_iff in H as [Hn H].
  destruct ns as [|n' ns]; [now apply last_char_name|].
  rewrite concat_cons_cons.
  replace (n ++ String "/" (String.concat "/" (n' :: ns))) with
          ((n ++ "/") ++ String.concat "/" (n' :: ns)) by now rewrite string_app_assoc.
  rewrite last_char_app by (apply concat_names_nonempty; easy).
  apply IH; easy.
Qed.

Lemma concat_app (rs ns : list string) :
  rs <> [] -> ns <> [] ->
  String.concat "/" (rs ++ ns) = String.concat "/" rs ++ "/" ++ String.concat "/" ns.
Proof.
  intros Hr Hn. induction rs as [|r rs IH]; [congruence|].
  destruct rs as [|r' rs].
  - destruct ns; [congruence|reflexivity].
  - cbn [app]. rewrite !concat_cons_cons. change (r' :: rs ++ ns)%list with ((r' :: rs) ++ ns)%list.
    rewrite IH by discriminate. now rewrite string_app_assoc.
Qed.

Lemma abs_path_split (rs : list string) (q : string) :
  rs <> [] -> forallb is_name rs = true ->
  fold_left (norm_step false) (split_on "/" (abs_path rs ++ "/" ++ q)) [] =
  fold_left (norm_step false) (split_on "/" q) (rev rs).
Proof.
  intros Hr Hrn. unfold abs_path. cbn [append split_on]. rewrite Ascii.eqb_refl.
  rewrite split_concat_app by assumption. cbn [fold_left].
  rewrite fold_left_app, (fold_names false rs) by exact Hrn. now rewrite app_nil_r.
Qed.

Lemma prefix_slash (s : string) : String.prefix "/" (String "/" s) = true.
Proof. cbn [String.prefix]. destruct (Ascii.ascii_dec "/" "/"); [now destruct s|congruence]. Qed.

(** ** Joining onto an absolute directory *)

(** [path.join(dir, ...ps)] for a normalized absolute [dir] is the
    directory of the segments the walk of [ps] leaves on the stack of
    [dir]'s segments. *)
Lemma path_join_abs (rs ps ts : list string) :
  rs <> [] -> forallb is_name rs = true ->
  ps <> [] -> forallb (fun p => negb (String.eqb p "")) ps = true ->
  fold_left (norm_step false) (split_on "/" (String.concat "/" ps)) (rev rs) = rev ts ->
  ts <> [] -> forallb is_name ts = true ->
  last_char (String.concat "/" ps) <> Some "/"%char ->
  path_join (abs_path rs :: ps) = abs_path ts.
Proof.
  intros Hr Hrn Hp Hpn Hf Ht Htn Hl. unfold path_join.
  cbn [filter]. replace (String.eqb (abs_path rs) "") with false by reflexivity. cbn [negb].
  rewrite (filter_all_true _ ps) by (intros p Hin; rewrite forallb_forall in Hpn; now apply Hpn).
  destruct ps as [|p ps]; [congruence|].
  change (String.concat "/" (abs_path rs :: p :: ps)) with
    (abs_path rs ++ "/" ++ String.concat "/" (p :: ps)).
  set (q := String.concat "/" (p :: ps)) in *.
  assert (Hq : q <> "").
  { unfold q. cbn [forallb] in Hpn. apply andb_true_iff in Hpn as [Hp0 _].
    destruct p as [|c p']; [discriminate|]. destruct ps; discriminate. }
  unfold normalize, normalizeString. fold (abs_path rs).
  replace (String.eqb (abs_path rs ++ "/" ++ q) "") with false by reflexivity.
  replace (String.prefix "/" (abs_path rs ++ "/" ++ q)) with true
    by (symmetry; apply prefix_slash).
  rewrite abs_path_split, Hf, rev_involutive by assumption.
  replace (abs_path rs ++ "/" ++ q) with ((abs_path rs ++ "/") ++ q) by now rewrite string_app_assoc.
  rewrite last_char_app by exact Hq.
  destruct (String.eqb_spec (String.concat "/" ts) "") as [E|_];
    [exfalso; exact (concat_names_nonempty ts Ht Htn E)|].
  destruct (last_char q) as [c|] eqn:Ec; [destruct (Ascii.eqb_spec c "/"); [congruence|]|];
    cbn; now rewrite string_app_nil_r.
Qed.

(** [Select.join(dir, name)] is [path.join(dir, name)] for a
    normalized absolute directory and a normalized relative path, the
    calls of the compression script ([join(root, file)] on [git]'s
    output, [join(dir, entry.name)] in the walk). *)
Theorem join_path_join (rs ns : list string) :
  rs <> [] -> forallb is_name rs = true -> ns <> [] -> forallb is_name ns = true ->
  join (abs_path rs) (String.concat "/" ns) = path_join [abs_path rs; String.concat "/" ns].
Proof.
  intros Hr Hrn Hn Hnn.
  rewrite (path_join_abs rs [String.concat "/" ns] (rs ++ ns)); try assumption; try discriminate.
  - unfold join, abs_path. rewrite concat_app by assumption. now rewrite string_app_assoc.
  - cbn [forallb]. rewrite andb_true_r.
    apply negb_true_iff, String.eqb_neq, concat_names_nonempty; assumption.
  - cbn [String.concat]. rewrite split_concat, fold_names, rev_app_distr by assumption. reflexivity.
  - destruct rs; [congruence|discriminate].
  - rewrite forallb_app. now apply andb_true_iff.
  - exact (last_char_concat ns Hn Hnn).
Qed.

Lemma join_path_join_witness :
  (["home"; "me"; "twofold"] <> [] /\ forallb is_name ["home"; "me"; "twofold"] = true /\
   ["assets"; "photos"; "a.png"] <> [] /\ forallb is_name ["assets"; "photos"; "a.png"] = true) /\
  join (abs_path ["home"; "me"; "twofold"]) (String.concat "/" ["assets"; "photos"; "a.png"])
  = path_join [abs_path ["home"; "me"; "twofold"]; String.concat "/" ["assets"; "photos"; "a.png"]].
Proof.
  split; [repeat split; (discriminate || reflexivity)|].
  apply join_path_join; (discriminate || reflexivity).
Defined.
