(* ===== verification/Config.v ===== *)
(** * Config: the Eleventy configuration and the directories the code names

    [src/.eleventy.js] is one function of [eleventyConfig]: it registers
    two passthrough copies (lines 3-4), four collections, ten filters
    and one shortcode (lines 7-146), and returns the configuration
    object of lines 148-157 (directories, path prefix, template engines).
    The registered functions are modelled in [Collections], [Filters] and
    [Stars]; this file models the registrations by name, in order, and
    the returned object.

    Three pieces of code name the same directories from different
    places: [years.js] reads [join(__dirname, '..', 'visits')], where
    [__dirname] is Eleventy's data directory [dir.input/dir.data] that
    loads it; the collections read the glob [src/visits/*.md] from the
    project root; the compression script rewrites
    [join(import.meta.dir, '..', 'assets')] from [scripts/], the
    directory Eleventy copies to the site.  The theorem
    [content_directories] shows they agree for every project root. *)

From S2P Require Import Prelude NodePath.
Local Open Scope string_scope.

(** ** Registrations (lines 3-146) *)

Inductive registration :=
| AddPassthroughCopy (path : string)
| AddCollection (name : string)
| AddFilter (name : string)
| AddShortcode (name : string).

(** The calls on [eleventyConfig], in the order of the file. *)
Definition registrations : list registration :=
  [AddPassthroughCopy "assets"; AddPassthroughCopy "css";
   AddCollection "places"; AddCollection "visits";
   AddCollection "visitsByYear"; AddCollection "visitsByPlace";
   AddFilter "getPlace"; AddFilter "averageRating"; AddFilter "formatDate";
   AddFilter "dateSlug"; AddFilter "getYear"; AddFilter "getDay";
   AddFilter "getMonth"; AddFilter "uniqueCities"; AddFilter "getYears";
   AddFilter "currentYear";
   AddShortcode "stars"].

Definition passthrough_copies : list string :=
  flat_map (fun r => match r with AddPassthroughCopy p => [p] | _ => [] end) registrations.

(** ** The returned object (lines 148-157) *)

Record dir_config := { input : string; output : string; includes : string; data : string }.

Record config := {
  dir : dir_config;
  pathPrefix : string;
  markdownTemplateEngine : string;
  htmlTemplateEngine : string
}.

Definition eleventy_config : config :=
  {| dir := {| input := "src"; output := "_site"; includes := "_includes"; data := "_data" |};
     pathPrefix := "/twofold/";
     markdownTemplateEngine := "njk";
     htmlTemplateEngine := "njk" |}.

(** Eleventy loads the global data files from [dir.input/dir.data]
    under the project root. *)
Definition data_dir (root : string) (c : config) : string :=
  path_join [root; input (dir c); data (dir c)].

(** [years.js], line 5: [path.join(__dirname, '..', 'visits')]. *)
Definition visitsDir (dirname : string) : string := path_join [dirname; ".."; "visits"].

(** [compress-assets.ts], line 20:
    [join(import.meta.dir, '..', 'assets')]. *)
Definition ASSETS_DIR (import_meta_dir : string) : string := path_join [import_meta_dir; ".."; "assets"].

(** ** The directories agree *)

Lemma app_ne_nil_l {A : Type} (l m : list A) : l <> [] -> (l ++ m)%list <> [].
Proof. destruct l; [congruence|discriminate]. Qed.

Lemma names_app (rs qs : list string) :
  forallb is_name rs = true -> forallb is_name qs = true -> forallb is_name (rs ++ qs) = true.
Proof. rewrite forallb_app. intros -> ->. reflexivity. Qed.

(** The side conditions of [path_join_abs] on literal relative paths. *)
Ltac join_side :=
  first [ assumption | discriminate | reflexivity
        | now apply app_ne_nil_l
        | now apply names_app
        | now rewrite ?rev_app_distr
        | (cbn; discriminate) ].

(** [C14] For every project root (an absolute normalized directory):
    the directory [years.js] reads, from Eleventy's data directory, is the
    directory of the visits glob [src/visits]; and the directory the
    compression script rewrites, from [scripts/], is one that Eleventy
    copies to the site, [assets]. *)
Theorem content_directories (rs : list string) :
  rs <> [] -> forallb is_name rs = true ->
  visitsDir (data_dir (abs_path rs) eleventy_config) = path_join [abs_path rs; "src/visits"] /\
  exists p, In p passthrough_copies /\
            ASSETS_DIR (path_join [abs_path rs; "scripts"]) = path_join [abs_path rs; p].
Proof.
  intros Hr Hn. unfold visitsDir, data_dir, ASSETS_DIR. cbn [dir input data eleventy_config].
  rewrite (path_join_abs rs ["src"; "_data"] (rs ++ ["src"; "_data"])) by join_side.
  rewrite (path_join_abs (rs ++ ["src"; "_data"]) [".."; "visits"] (rs ++ ["src"; "visits"])) by join_side.
  rewrite (path_join_abs rs ["src/visits"] (rs ++ ["src"; "visits"])) by join_side.
  split; [reflexivity|]. exists "assets". split; [now left|].
  rewrite (path_join_abs rs ["scripts"] (rs ++ ["scripts"])) by join_side.
  rewrite (path_join_abs (rs ++ ["scripts"]) [".."; "assets"] (rs ++ ["assets"])) by join_side.
  rewrite (path_join_abs rs ["assets"] (rs ++ ["assets"])) by join_side.
  reflexivity.
Qed.

Lemma content_directories_witness :
  (["home"; "me"; "twofold"] <> [] /\ forallb is_name ["home"; "me"; "twofold"] = true) /\
  (visitsDir (data_dir (abs_path ["home"; "me"; "twofold"]) eleventy_config)
   = path_join [abs_path ["home"; "me"; "twofold"]; "src/visits"] /\
   exists p, In p passthrough_copies /\
             ASSETS_DIR (path_join [abs_path ["home"; "me"; "twofold"]; "scripts"])
             = path_join [abs_path ["home"; "me"; "twofold"]; p]).
Proof.
  split; [split; [discriminate|reflexivity]|].
  apply content_directories; [discriminate|reflexivity].
Defined.
